(** * Component discovery, descriptor merge, circuit handshake and boot guards

    A shallow embedding of the Blazor web client's

    - [Services/ComponentDescriptorDiscovery.ts]: the scan of a DOM subtree
      for component marker comments, the persisted-state search, and the
      two descriptor classes with their [merge];
    - [Platform/Circuits/CircuitManager.ts]: [CircuitDescriptor];
    - [Boot.Web.ts]: [boot] and the start-once guards of the runtimes;

    followed by the properties of them that the specification states.

    Conventions.  A function that can throw returns a [result]; a method
    that mutates [this] returns the new value of [this]; a [while] loop
    takes fuel, and its caller supplies enough of it (proved below).
    Strings are sequences of code units below 256.  Fields have the types
    their TypeScript declarations give them. *)

From Stdlib Require Import String Ascii List ZArith Bool Lia Permutation Sorted.
Import ListNotations.
Local Open Scope string_scope.
Local Open Scope list_scope.

(** ** Exceptions *)

(** One constructor per [throw] site of the three files, and one per
    exception of a platform function they call. *)
Inductive Error : Type :=
| SyntaxError                                  (* JSON.parse *)
| InvalidCharacterError                        (* atob *)
| InvalidComponentType (type : option string)
| MalformedComponentComment (textContent : string)
| RootComponentOnDocument
| NoEndComponentComment (start : string)
| DescriptorUndefined
| SequenceUndefined
| SequenceNotInteger
| AssemblyUndefined
| TypeNameUndefined
| InvalidEndComment (json : string)
| EndCommentWithoutPrerenderId (json : string)
| EndCommentMismatch (prerenderedId prerenderedEndId : string)
| MergeDifferingTypes
| MergeDifferentComponentTypes (typeName otherTypeName : string)
| MergeDifferentAssemblies (assembly otherAssembly : string)
| CircuitAlreadyInitialized (circuitId : string)
| CircuitNotInitialized
| AlreadyStarted
| TypeError.                                   (* a method call on undefined *)

(** The outcome of a call.  [OutOfFuel] is the model's own: a loop that was
    given too little fuel.  No exported function produces it (see
    [resolveComponentComments_fuel_enough] and its corollaries). *)
Inductive result (A : Type) : Type :=
| Return (a : A)
| Throw (e : Error)
| OutOfFuel.
Arguments Return {A} a.
Arguments Throw {A} e.
Arguments OutOfFuel {A}.

Definition bind {A B : Type} (r : result A) (k : A -> result B) : result B :=
  match r with
  | Return a => k a
  | Throw e => Throw e
  | OutOfFuel => OutOfFuel
  end.

Declare Scope js_scope.
Delimit Scope js_scope with js.
Notation "'let*' x ':=' r 'in' k" := (bind r (fun x => k))
  (at level 10, x pattern, r at level 100, k at level 200) : js_scope.
Local Open Scope js_scope.

(** [try { body } catch (error) { throw handler }]. *)
Definition try_catch_rethrow {A : Type} (body : result A) (rethrown : Error) : result A :=
  match body with
  | Return a => Return a
  | Throw _ => Throw rethrown
  | OutOfFuel => OutOfFuel
  end.

(** ** Strings and the two regular expressions *)

Module Text.

Definition code (c : ascii) : nat := nat_of_ascii c.

(** [\s] on code units below 256: TAB, LF, VT, FF, CR, SPACE, NBSP. *)
Definition isWhiteSpace (c : ascii) : bool :=
  let n := code c in
  (((9 <=? n) && (n <=? 13)) || (n =? 32) || (n =? 160))%nat.

(** The characters [.] does not match (no [s] flag): LF and CR. *)
Definition isLineTerminator (c : ascii) : bool :=
  let n := code c in ((n =? 10) || (n =? 13))%nat.

(** The class [[a-zA-Z0-9+/=]]. *)
Definition isStateChar (c : ascii) : bool :=
  let n := code c in
  (((97 <=? n) && (n <=? 122)) || ((65 <=? n) && (n <=? 90))
   || ((48 <=? n) && (n <=? 57)) || (n =? 43) || (n =? 47) || (n =? 61))%nat.

Fixpoint dropWhile (p : ascii -> bool) (s : string) : string :=
  match s with
  | EmptyString => EmptyString
  | String c rest => if p c then dropWhile p rest else s
  end.

Fixpoint all (p : ascii -> bool) (s : string) : bool :=
  match s with
  | EmptyString => true
  | String c rest => p c && all p rest
  end.

Fixpoint stripPrefix (prefix s : string) : option string :=
  match prefix, s with
  | EmptyString, _ => Some s
  | String a p, String b rest => if Ascii.eqb a b then stripPrefix p rest else None
  | String _ _, EmptyString => None
  end.

Definition isEmpty (s : string) : bool :=
  match s with EmptyString => true | _ => false end.

(** [blazorCommentRegularExpression.exec(text)], reduced to its
    [descriptor] group ([None] when [exec] returns [null]).  The pattern
    is: start of text, any white space, the word Blazor and a colon, any
    characters other than an opening brace, then the group [descriptor]
    of any characters but line terminators up to the end.  Each starred
    part is followed by something it cannot itself match ([B] is no white
    space, the group starts at the first brace or at the end), so giving
    a star fewer characters never turns a failure into a match: the
    greedy reading below is the only one. *)
Definition blazorCommentRegularExpression (text : string) : option string :=
  match stripPrefix "Blazor:" (dropWhile isWhiteSpace text) with
  | None => None
  | Some afterPrefix =>
      let descriptor := dropWhile (fun c => negb (Ascii.eqb c "{")) afterPrefix in
      if all (fun c => negb (isLineTerminator c)) descriptor
      then Some descriptor else None
  end.

(** [blazorStateCommentRegularExpression.exec(content)], reduced to its
    [state] group: start of text, any white space, the prefix, then one
    or more characters of the class above up to the end. *)
Definition blazorStateCommentRegularExpression (content : string) : option string :=
  match stripPrefix "Blazor-Component-State:" (dropWhile isWhiteSpace content) with
  | None => None
  | Some state =>
      if negb (isEmpty state) && all isStateChar state then Some state else None
  end.

End Text.

(** Truthiness of an optional string: [undefined] and [''] are falsy. *)
Definition truthy (s : option string) : bool :=
  match s with
  | Some v => negb (Text.isEmpty v)
  | None => false
  end.

(** [value === literal] for an optional string. *)
Definition equals (value : option string) (literal : string) : bool :=
  match value with
  | Some v => String.eqb v literal
  | None => false
  end.

(** ** The DOM *)

(** What the scan looks at in a node: whether it is a comment and with
    which text, whether it has children, and whether the parent of a marker
    is the document. *)
#[warnings="-register-all"]
Inductive Node : Type :=
| Comment (textContent : string)
| Text (data : string)
| Element (tagName : string) (children : list Node)
| Document (children : list Node).

Module Node.

Definition isComment (n : Node) : bool :=
  match n with Comment _ => true | _ => false end.

Definition isDocument (n : Node) : bool :=
  match n with Document _ => true | _ => false end.

Definition children (n : Node) : list Node :=
  match n with
  | Element _ c | Document c => c
  | Comment _ | Text _ => []
  end.

Definition hasChildNodes (n : Node) : bool :=
  match children n with [] => false | _ :: _ => true end.

(** [node.textContent] of a comment; the code reads it only after the
    [nodeType] test. *)
Definition textContent (n : Node) : string :=
  match n with Comment t => t | _ => EmptyString end.

(** Number of nodes of a subtree. *)
Fixpoint size (n : Node) : nat :=
  match n with
  | Comment _ | Text _ => 1
  | Element _ c | Document c =>
      S ((fix sizes (l : list Node) : nat :=
            match l with
            | [] => 0
            | x :: rest => size x + sizes rest
            end) c)
  end.

Definition sizes (l : list Node) : nat := list_sum (map size l).

End Node.

(** A [NodeListOf<ChildNode>]: the children of [parentNode], which is what
    [parentNode] of each of its items answers. *)
Record NodeList : Type := childNodes { parentNode : Node }.

Definition items (nodes : NodeList) : list Node := Node.children (parentNode nodes).

(** ** Platform functions *)

(** A [number], as far as the code looks at one: whether
    [Number.isInteger] holds of it, and which integer it then is. *)
Inductive Number : Type :=
| Integer (z : Z)
| NonInteger.

(** [atob]: the forgiving base64 decoding of the HTML standard. *)
Module Base64.

Definition isAsciiWhitespace (c : ascii) : bool :=
  let n := Text.code c in
  ((n =? 9) || (n =? 10) || (n =? 12) || (n =? 13) || (n =? 32))%nat.

Definition sextet (c : ascii) : option N :=
  let n := N_of_ascii c in
  (if (65 <=? n) && (n <=? 90) then Some (n - 65)
   else if (97 <=? n) && (n <=? 122) then Some (n - 97 + 26)
   else if (48 <=? n) && (n <=? 57) then Some (n - 48 + 52)
   else if n =? 43 then Some 62
   else if n =? 47 then Some 63
   else None)%N.

Fixpoint sextets (l : list ascii) : option (list N) :=
  match l with
  | [] => Some []
  | c :: rest =>
      match sextet c, sextets rest with
      | Some v, Some vs => Some (v :: vs)
      | _, _ => None
      end
  end.

Definition stripPadding (l : list ascii) : list ascii :=
  if (List.length l mod 4 =? 0)%nat then
    match rev l with
    | "="%char :: "="%char :: r => rev r
    | "="%char :: r => rev r
    | _ => l
    end
  else l.

Definition byte (n : N) : ascii := ascii_of_N (n mod 256).

Fixpoint bytes (l : list N) : list ascii :=
  match l with
  | a :: b :: c :: d :: rest =>
      let n := (((a * 64 + b) * 64 + c) * 64 + d)%N in
      byte (n / 65536) :: byte (n / 256) :: byte n :: bytes rest
  | [a; b; c] =>
      let n := (((a * 64 + b) * 64 + c) / 4)%N in
      [byte (n / 256); byte n]
  | [a; b] => [byte ((a * 64 + b) / 16)]
  | _ => []
  end.

Definition atob (data : string) : result string :=
  let l := stripPadding (filter (fun c => negb (isAsciiWhitespace c)) (list_ascii_of_string data)) in
  if (List.length l mod 4 =? 1)%nat then Throw InvalidCharacterError
  else match sextets l with
       | None => Throw InvalidCharacterError
       | Some vs => Return (string_of_list_ascii (bytes vs))
       end.

End Base64.

(** ** Marker payloads *)

Inductive ComponentType : Type := server | webassembly | auto.

(** The object [JSON.parse] gives for a marker, read through the interfaces
    [ComponentComment], [ServerComponentComment] and
    [WebAssemblyComponentComment]: a key that is absent reads [undefined],
    a key that is present holds a value of its declared type.  [type] is
    kept as the string it is, since the code checks it. *)
Module Payload.

Record t : Type := {
  type : option string;
  prerenderId : option string;
  sequence : option Number;
  descriptor : option string;
  typeName : option string;
  assembly : option string;
  parameterDefinitions : option string;
  parameterValues : option string;
  (** how many own keys the object has besides the eight above *)
  otherKeys : nat
}.

Definition present {A : Type} (field : option A) : nat :=
  match field with Some _ => 1 | None => 0 end.

(** [Object.keys(payload).length] *)
Definition keysLength (p : t) : nat :=
  present (type p) + present (prerenderId p) + present (sequence p)
  + present (descriptor p) + present (typeName p) + present (assembly p)
  + present (parameterDefinitions p) + present (parameterValues p) + otherKeys p.

End Payload.

(** ** The iterator over a node list *)

Module ComponentCommentIterator.

Record t : Type := {
  childNodes : NodeList;
  currentIndex : Z;
  length : Z;
  currentElement : option Node
}.

(** [new ComponentCommentIterator(childNodes)] *)
Definition new (childNodes : NodeList) : t :=
  {| childNodes := childNodes;
     currentIndex := -1;
     length := Z.of_nat (List.length (items childNodes));
     currentElement := None |}.

(** [iterator.next()]: the value returned and the iterator after it. *)
Definition next (this : t) : bool * t :=
  let currentIndex' := (currentIndex this + 1)%Z in
  if (currentIndex' <? length this)%Z then
    (true,
     {| childNodes := childNodes this;
        currentIndex := currentIndex';
        length := length this;
        currentElement := nth_error (items (childNodes this)) (Z.to_nat currentIndex') |})
  else
    (false,
     {| childNodes := childNodes this;
        currentIndex := currentIndex';
        length := length this;
        currentElement := None |}).

(** How many calls of [next] can still return [true]. *)
Definition remaining (this : t) : nat :=
  Z.to_nat (length this - (currentIndex this + 1)).

End ComponentCommentIterator.

(** ** Parsed markers *)

Module ServerComponentComment.
(** [type] is ['server'] in every value of the interface. *)
Record t : Type := {
  sequence : Z;
  descriptor : string;
  start : Node;
  end_ : option Node;
  prerenderId : option string
}.
Definition type (_ : t) : ComponentType := server.
End ServerComponentComment.

Module WebAssemblyComponentComment.
(** [type] is ['webassembly'] in every value of the interface. *)
Record t : Type := {
  typeName : string;
  assembly : string;
  parameterDefinitions : option string;
  parameterValues : option string;
  prerenderId : option string;
  start : Node;
  end_ : option Node
}.
Definition type (_ : t) : ComponentType := webassembly.
End WebAssemblyComponentComment.

(** The ['webassembly' | 'server'] argument of the discovery functions. *)
Inductive TargetType : Type := target_webassembly | target_server.

(** What [resolveComponentComments] collects for a target type; the casts
    [as ServerComponentComment[]] and [as WebAssemblyComponentDescriptor[]]
    of its callers read the list at this type. *)
Definition ComponentCommentOf (type : TargetType) : Type :=
  match type with
  | target_webassembly => WebAssemblyComponentComment.t
  | target_server => ServerComponentComment.t
  end.

(** ** The marker scanner *)

Section MarkerScanner.

(** [JSON.parse] on the text of a marker, read as a [Payload.t];
    [None] is its [SyntaxError]. *)
Variable JSON_parse : string -> option Payload.t.

Local Abbreviation Iterator := ComponentCommentIterator.t.

Definition parse (json : string) : result Payload.t :=
  match JSON_parse json with
  | Some payload => Return payload
  | None => Throw SyntaxError
  end.

Definition validateEndComponentPayload (json prerenderedId : string) : result unit :=
  let* payload := parse json in
  if negb (Payload.keysLength payload =? 1)%nat then Throw (InvalidEndComment json)
  else
    let prerenderedEndId := Payload.prerenderId payload in
    match prerenderedEndId with
    | Some endId =>
        if Text.isEmpty endId then Throw (EndCommentWithoutPrerenderId json)
        else if negb (String.eqb endId prerenderedId)
             then Throw (EndCommentMismatch prerenderedId endId)
             else Return tt
    | None => Throw (EndCommentWithoutPrerenderId json)
    end.

(** The [while] loop of [getComponentEndComment]; every [continue] and the
    loop test are one more call of [next]. *)
Fixpoint getComponentEndComment_loop (fuel : nat) (prerenderedId : string)
         (iterator : Iterator) : result (option Node * Iterator) :=
  match fuel with
  | O => OutOfFuel
  | S fuel' =>
      let (more, iterator) := ComponentCommentIterator.next iterator in
      match more, ComponentCommentIterator.currentElement iterator with
      | true, Some node =>
          if negb (Node.isComment node) then
            getComponentEndComment_loop fuel' prerenderedId iterator
          else if Text.isEmpty (Node.textContent node) then
            getComponentEndComment_loop fuel' prerenderedId iterator
          else
            match Text.blazorCommentRegularExpression (Node.textContent node) with
            | None => getComponentEndComment_loop fuel' prerenderedId iterator
            | Some json =>
                if Text.isEmpty json then
                  getComponentEndComment_loop fuel' prerenderedId iterator
                else
                  let* _ := validateEndComponentPayload json prerenderedId in
                  Return (Some node, iterator)
            end
      | _, _ => Return (None, iterator)
      end
  end.

Definition getComponentEndComment (prerenderedId : string) (iterator : Iterator)
  : result (option Node * Iterator) :=
  getComponentEndComment_loop (S (ComponentCommentIterator.remaining iterator))
                              prerenderedId iterator.

Definition parseCommentPayload (json : string) : result Payload.t :=
  let* payload := parse json in
  let type := Payload.type payload in
  if negb (equals type "server") && negb (equals type "webassembly")
  then Throw (InvalidComponentType type)
  else Return payload.

Definition assertNotDirectlyOnDocument (markerParent : Node) : result unit :=
  if Node.isDocument markerParent then Throw RootComponentOnDocument else Return tt.

(** The first two statements of both [create...Comment] functions, which
    are the same: the end marker is looked for when [prerenderId] is
    truthy, and must then be found. *)
Definition endOf (prerenderId : option string) (start : Node) (iterator : Iterator)
  : result (option Node * Iterator) :=
  let* (end_, iterator) :=
    match prerenderId with
    | Some id => if negb (Text.isEmpty id) then getComponentEndComment id iterator
                 else Return (None, iterator)
    | None => Return (None, iterator)
    end in
  match end_ with
  | None => if truthy prerenderId
            then Throw (NoEndComponentComment (Node.textContent start))
            else Return (None, iterator)
  | Some _ => Return (end_, iterator)
  end.

Definition createServerComponentComment (payload : Payload.t) (start : Node)
           (iterator : Iterator)
  : result (option ServerComponentComment.t * Iterator) :=
  let prerenderId := Payload.prerenderId payload in
  let* (end_, iterator) := endOf prerenderId start iterator in
  if negb (equals (Payload.type payload) "server") then Return (None, iterator)
  else
    match Payload.descriptor payload with
    | None => Throw DescriptorUndefined
    | Some descriptor =>
        if Text.isEmpty descriptor then Throw DescriptorUndefined
        else match Payload.sequence payload with
             | None => Throw SequenceUndefined
             | Some NonInteger => Throw SequenceNotInteger
             | Some (Integer sequence) =>
                 Return (Some {| ServerComponentComment.sequence := sequence;
                                 ServerComponentComment.descriptor := descriptor;
                                 ServerComponentComment.start := start;
                                 ServerComponentComment.prerenderId := prerenderId;
                                 ServerComponentComment.end_ := end_ |},
                         iterator)
             end
    end.

(** [value && atob(value)] *)
Definition decoded (value : option string) : result (option string) :=
  match value with
  | Some v => if Text.isEmpty v then Return value
              else let* d := Base64.atob v in Return (Some d)
  | None => Return None
  end.

Definition createWebAssemblyComponentComment (payload : Payload.t) (start : Node)
           (iterator : Iterator)
  : result (option WebAssemblyComponentComment.t * Iterator) :=
  let prerenderId := Payload.prerenderId payload in
  let* (end_, iterator) := endOf prerenderId start iterator in
  if negb (equals (Payload.type payload) "webassembly") then Return (None, iterator)
  else
    match Payload.assembly payload with
    | None => Throw AssemblyUndefined
    | Some assembly =>
        if Text.isEmpty assembly then Throw AssemblyUndefined
        else match Payload.typeName payload with
             | None => Throw TypeNameUndefined
             | Some typeName =>
                 if Text.isEmpty typeName then Throw TypeNameUndefined
                 else
                   let* parameterDefinitions := decoded (Payload.parameterDefinitions payload) in
                   let* parameterValues := decoded (Payload.parameterValues payload) in
                   Return (Some {| WebAssemblyComponentComment.typeName := typeName;
                                   WebAssemblyComponentComment.assembly := assembly;
                                   WebAssemblyComponentComment.parameterDefinitions :=
                                     parameterDefinitions;
                                   WebAssemblyComponentComment.parameterValues := parameterValues;
                                   WebAssemblyComponentComment.start := start;
                                   WebAssemblyComponentComment.prerenderId := prerenderId;
                                   WebAssemblyComponentComment.end_ := end_ |},
                           iterator)
             end
    end.

Definition getComponentComment (commentNodeIterator : Iterator) (type : TargetType)
  : result (option (ComponentCommentOf type) * Iterator) :=
  match ComponentCommentIterator.currentElement commentNodeIterator with
  | None => Return (None, commentNodeIterator)
  | Some candidateStart =>
      if negb (Node.isComment candidateStart) then Return (None, commentNodeIterator)
      else if Text.isEmpty (Node.textContent candidateStart) then
        Return (None, commentNodeIterator)
      else
        match Text.blazorCommentRegularExpression (Node.textContent candidateStart) with
        | None => Return (None, commentNodeIterator)
        | Some json =>
            if Text.isEmpty json then Return (None, commentNodeIterator)
            else
              let* _ := assertNotDirectlyOnDocument
                          (parentNode (ComponentCommentIterator.childNodes commentNodeIterator)) in
              try_catch_rethrow
                (let* componentComment := parseCommentPayload json in
                 match type return result (option (ComponentCommentOf type) * Iterator) with
                 | target_webassembly =>
                     createWebAssemblyComponentComment componentComment candidateStart
                                                       commentNodeIterator
                 | target_server =>
                     createServerComponentComment componentComment candidateStart
                                                  commentNodeIterator
                 end)
                (MalformedComponentComment (Node.textContent candidateStart))
        end
  end.

(** [resolveComponentComments]: the body from the [while] on, with the
    iterator and [result] as they stand.  The recursive call on the
    children of the current element passes no [directChildrenOnly]. *)
Fixpoint resolveComponentComments_loop (fuel : nat) (type : TargetType)
         (directChildrenOnly : bool) (childNodeIterator : Iterator)
         (result_ : list (ComponentCommentOf type))
  : result (list (ComponentCommentOf type)) :=
  match fuel with
  | O => OutOfFuel
  | S fuel' =>
      let (more, childNodeIterator) := ComponentCommentIterator.next childNodeIterator in
      match more, ComponentCommentIterator.currentElement childNodeIterator with
      | true, Some _ =>
          let* (componentComment, childNodeIterator) :=
            getComponentComment childNodeIterator type in
          match componentComment with
          | Some componentComment =>
              resolveComponentComments_loop fuel' type directChildrenOnly childNodeIterator
                                            (result_ ++ [componentComment])
          | None =>
              if directChildrenOnly then
                resolveComponentComments_loop fuel' type directChildrenOnly childNodeIterator
                                              result_
              else
                match ComponentCommentIterator.currentElement childNodeIterator with
                | None => Throw TypeError
                | Some currentElement =>
                    if Node.hasChildNodes currentElement then
                      let* childResults :=
                        resolveComponentComments_loop
                          fuel' type false
                          (ComponentCommentIterator.new (childNodes currentElement)) [] in
                      resolveComponentComments_loop fuel' type directChildrenOnly
                                                    childNodeIterator (result_ ++ childResults)
                    else
                      resolveComponentComments_loop fuel' type directChildrenOnly
                                                    childNodeIterator result_
                end
          end
      | _, _ => Return result_
      end
  end.

Definition resolveComponentComments (nodes : NodeList) (type : TargetType)
           (directChildrenOnly : bool) : result (list (ComponentCommentOf type)) :=
  resolveComponentComments_loop (S (Node.sizes (items nodes))) type directChildrenOnly
                                (ComponentCommentIterator.new nodes) [].

End MarkerScanner.

(** ** Descriptors *)

Module ServerComponentDescriptor.

(** [type] has the literal type ['server']. *)
Record t : Type := {
  start : Node;
  end_ : option Node;
  sequence : Z;
  descriptor : string
}.

Definition type (_ : t) : ComponentType := server.

(** [new ServerComponentDescriptor(type, start, end, sequence, descriptor)] *)
Definition new (start : Node) (end_ : option Node) (sequence : Z) (descriptor : string) : t :=
  {| start := start; end_ := end_; sequence := sequence; descriptor := descriptor |}.

Definition getUniqueId (this : t) : Z := sequence this.

End ServerComponentDescriptor.

Module WebAssemblyComponentDescriptor.

(** [type] has the literal type ['webassembly']. *)
Record t : Type := {
  typeName : string;
  assembly : string;
  parameterDefinitions : option string;
  parameterValues : option string;
  id : Z;
  start : Node;
  end_ : option Node
}.

Definition type (_ : t) : ComponentType := webassembly.

(** The initial value of the static [globalId]. *)
Definition globalId0 : Z := 1.

(** [new WebAssemblyComponentDescriptor(type, start, end, assembly,
    typeName, parameterDefinitions, parameterValues)] with the static
    counter [globalId] passed in and out.  The assignment of [end] is
    commented out in the source, so the field stays [undefined]. *)
Definition new (globalId : Z) (start : Node) (end_ : option Node)
           (assembly typeName : string)
           (parameterDefinitions parameterValues : option string) : t * Z :=
  ({| id := globalId;
      assembly := assembly;
      typeName := typeName;
      parameterDefinitions := parameterDefinitions;
      parameterValues := parameterValues;
      start := start;
      end_ := None |},
   (globalId + 1)%Z).

Definition getUniqueId (this : t) : Z := id this.

End WebAssemblyComponentDescriptor.

Inductive ComponentDescriptor : Type :=
| ServerDescriptor (d : ServerComponentDescriptor.t)
| WebAssemblyDescriptor (d : WebAssemblyComponentDescriptor.t).

Definition ComponentDescriptor_type (d : ComponentDescriptor) : ComponentType :=
  match d with
  | ServerDescriptor d => ServerComponentDescriptor.type d
  | WebAssemblyDescriptor d => WebAssemblyComponentDescriptor.type d
  end.

(** [ServerComponentDescriptor.prototype.merge]: what the call returns or
    throws, and [this] after it. *)
Definition ServerComponentDescriptor_merge
           (this : ServerComponentDescriptor.t) (other : ComponentDescriptor)
  : result unit * ServerComponentDescriptor.t :=
  match other with
  | WebAssemblyDescriptor _ => (Throw MergeDifferingTypes, this)
  | ServerDescriptor other =>
      (Return tt,
       {| ServerComponentDescriptor.start := ServerComponentDescriptor.start this;
          ServerComponentDescriptor.end_ := ServerComponentDescriptor.end_ other;
          ServerComponentDescriptor.sequence := ServerComponentDescriptor.sequence other;
          ServerComponentDescriptor.descriptor := ServerComponentDescriptor.descriptor other |})
  end.

(** [WebAssemblyComponentDescriptor.prototype.merge].  The last assignment,
    of [end], is commented out in the source. *)
Definition WebAssemblyComponentDescriptor_merge
           (this : WebAssemblyComponentDescriptor.t) (other : ComponentDescriptor)
  : result unit * WebAssemblyComponentDescriptor.t :=
  match other with
  | ServerDescriptor _ => (Throw MergeDifferingTypes, this)
  | WebAssemblyDescriptor other =>
      if negb (String.eqb (WebAssemblyComponentDescriptor.typeName this)
                          (WebAssemblyComponentDescriptor.typeName other)) then
        (Throw (MergeDifferentComponentTypes (WebAssemblyComponentDescriptor.typeName this)
                                             (WebAssemblyComponentDescriptor.typeName other)),
         this)
      else if negb (String.eqb (WebAssemblyComponentDescriptor.assembly this)
                               (WebAssemblyComponentDescriptor.assembly other)) then
        (Throw (MergeDifferentAssemblies (WebAssemblyComponentDescriptor.assembly this)
                                         (WebAssemblyComponentDescriptor.assembly other)),
         this)
      else
        (Return tt,
         {| WebAssemblyComponentDescriptor.typeName := WebAssemblyComponentDescriptor.typeName this;
            WebAssemblyComponentDescriptor.assembly := WebAssemblyComponentDescriptor.assembly this;
            WebAssemblyComponentDescriptor.parameterDefinitions :=
              WebAssemblyComponentDescriptor.parameterDefinitions other;
            WebAssemblyComponentDescriptor.parameterValues :=
              WebAssemblyComponentDescriptor.parameterValues other;
            WebAssemblyComponentDescriptor.id := WebAssemblyComponentDescriptor.id other;
            WebAssemblyComponentDescriptor.start := WebAssemblyComponentDescriptor.start this;
            WebAssemblyComponentDescriptor.end_ := WebAssemblyComponentDescriptor.end_ this |})
  end.

(** [existing.merge(incoming)] on the union type: the method of the class
    of [existing]. *)
Definition merge (existing incoming : ComponentDescriptor)
  : result unit * ComponentDescriptor :=
  match existing with
  | ServerDescriptor this =>
      let (outcome, this) := ServerComponentDescriptor_merge this incoming in
      (outcome, ServerDescriptor this)
  | WebAssemblyDescriptor this =>
      let (outcome, this) := WebAssemblyComponentDescriptor_merge this incoming in
      (outcome, WebAssemblyDescriptor this)
  end.

(** The fields of the union that the merge contract names. *)
Definition start_of (d : ComponentDescriptor) : Node :=
  match d with
  | ServerDescriptor d => ServerComponentDescriptor.start d
  | WebAssemblyDescriptor d => WebAssemblyComponentDescriptor.start d
  end.

Definition end_of (d : ComponentDescriptor) : option Node :=
  match d with
  | ServerDescriptor d => ServerComponentDescriptor.end_ d
  | WebAssemblyDescriptor d => WebAssemblyComponentDescriptor.end_ d
  end.

(** [getUniqueId()]: the ordering key. *)
Definition getUniqueId (d : ComponentDescriptor) : Z :=
  match d with
  | ServerDescriptor d => ServerComponentDescriptor.getUniqueId d
  | WebAssemblyDescriptor d => WebAssemblyComponentDescriptor.getUniqueId d
  end.

(** ** Discovery *)

(** [Array.prototype.sort(comparefn)]: a stable sort; for the comparators
    used here, the sign of a difference of two integers. *)
Section ArraySort.
Context {A : Type} (comparefn : A -> A -> Z).

Fixpoint insert (x : A) (sorted : list A) : list A :=
  match sorted with
  | [] => [x]
  | y :: rest => if (comparefn x y <=? 0)%Z then x :: sorted else y :: insert x rest
  end.

Definition Array_sort (array : list A) : list A := fold_right insert [] array.
End ArraySort.

Definition DescriptorOf (type : TargetType) : Type :=
  match type with
  | target_webassembly => WebAssemblyComponentDescriptor.t
  | target_server => ServerComponentDescriptor.t
  end.

Section Discovery.

Variable JSON_parse : string -> option Payload.t.

Definition serverEntry (componentComment : ServerComponentComment.t)
  : ServerComponentDescriptor.t :=
  ServerComponentDescriptor.new
    (ServerComponentComment.start componentComment)
    (ServerComponentComment.end_ componentComment)
    (ServerComponentComment.sequence componentComment)
    (ServerComponentComment.descriptor componentComment).

Definition discoverServerComponents (nodes : NodeList) (directChildrenOnly : bool)
  : result (list ServerComponentDescriptor.t) :=
  let* componentComments :=
    resolveComponentComments JSON_parse nodes target_server directChildrenOnly in
  let discoveredComponents := map serverEntry componentComments in
  Return (Array_sort
            (fun a b => (ServerComponentDescriptor.sequence a
                         - ServerComponentDescriptor.sequence b)%Z)
            discoveredComponents).

Definition webAssemblyEntry (globalId : Z) (componentComment : WebAssemblyComponentComment.t)
  : WebAssemblyComponentDescriptor.t * Z :=
  WebAssemblyComponentDescriptor.new
    globalId
    (WebAssemblyComponentComment.start componentComment)
    (WebAssemblyComponentComment.end_ componentComment)
    (WebAssemblyComponentComment.assembly componentComment)
    (WebAssemblyComponentComment.typeName componentComment)
    (WebAssemblyComponentComment.parameterDefinitions componentComment)
    (WebAssemblyComponentComment.parameterValues componentComment).

(** The [for] loop of [discoverWebAssemblyComponents]: one [new] and one
    [push] per comment, threading [globalId]. *)
Fixpoint webAssemblyEntries (globalId : Z) (componentComments : list WebAssemblyComponentComment.t)
  : list WebAssemblyComponentDescriptor.t * Z :=
  match componentComments with
  | [] => ([], globalId)
  | componentComment :: rest =>
      let (entry, globalId) := webAssemblyEntry globalId componentComment in
      let (entries, globalId) := webAssemblyEntries globalId rest in
      (entry :: entries, globalId)
  end.

(** Takes the static [globalId] and returns it with the descriptors. *)
Definition discoverWebAssemblyComponents (globalId : Z) (nodes : NodeList)
           (directChildrenOnly : bool)
  : result (list WebAssemblyComponentDescriptor.t * Z) :=
  let* componentComments :=
    resolveComponentComments JSON_parse nodes target_webassembly directChildrenOnly in
  let (discoveredComponents, globalId) := webAssemblyEntries globalId componentComments in
  Return (Array_sort
            (fun a b => (WebAssemblyComponentDescriptor.id a
                         - WebAssemblyComponentDescriptor.id b)%Z)
            discoveredComponents,
          globalId).

Definition discoverComponentsFromNodeList (globalId : Z) (nodes : NodeList)
           (type : TargetType) (directChildrenOnly : bool)
  : result (list (DescriptorOf type) * Z) :=
  match type return result (list (DescriptorOf type) * Z) with
  | target_webassembly => discoverWebAssemblyComponents globalId nodes directChildrenOnly
  | target_server =>
      let* discovered := discoverServerComponents nodes directChildrenOnly in
      Return (discovered, globalId)
  end.

Definition discoverComponents (globalId : Z) (root : Node) (type : TargetType)
           (directChildrenOnly : bool)
  : result (list (DescriptorOf type) * Z) :=
  if negb (Node.hasChildNodes root) then Return ([], globalId)
  else discoverComponentsFromNodeList globalId (childNodes root) type directChildrenOnly.

End Discovery.

(** ** The persisted-state search *)

(** What [discoverPersistedState] returns: [string | null | undefined]. *)
Inductive PersistedState : Type :=
| State (value : string)
| Null
| Undefined.

Definition PersistedState_truthy (v : PersistedState) : bool :=
  match v with
  | State value => negb (Text.isEmpty value)
  | Null | Undefined => false
  end.

Definition placed (node : option Node) : list Node :=
  match node with Some n => [n] | None => [] end.

(** [discoverPersistedState(node)], with the DOM passed in and out: the
    second component is what stands in the place of [node] among the
    children of its parent after the call, [None] when [removeChild] took it
    out.  (On a node without a parent [removeChild] is not called and the
    second component has no reader.) *)
Fixpoint discoverPersistedState (node : Node) : PersistedState * option Node :=
  let candidates :=
    fix candidates (nodes : list Node) : PersistedState * list Node :=
      match nodes with
      | [] => (Undefined, [])
      | candidate :: rest =>
          let (result_, candidate') := discoverPersistedState candidate in
          if PersistedState_truthy result_ then (result_, placed candidate' ++ rest)
          else
            let (found, rest') := candidates rest in
            (found, placed candidate' ++ rest')
      end in
  match node with
  | Comment content =>
      let value :=
        match Text.blazorStateCommentRegularExpression content with
        | Some state => State state
        | None => Null
        end in
      if PersistedState_truthy value then (value, None) else (value, Some node)
  | Text _ => (Undefined, Some node)
  | Element tagName nodes =>
      match nodes with
      | [] => (Undefined, Some node)
      | _ :: _ => let (found, nodes') := candidates nodes in
                  (found, Some (Element tagName nodes'))
      end
  | Document nodes =>
      match nodes with
      | [] => (Undefined, Some node)
      | _ :: _ => let (found, nodes') := candidates nodes in
                  (found, Some (Document nodes'))
      end
  end.

(** The [for] loop of [discoverPersistedState] over the children. *)
Fixpoint discoverPersistedState_candidates (nodes : list Node) : PersistedState * list Node :=
  match nodes with
  | [] => (Undefined, [])
  | candidate :: rest =>
      let (result_, candidate') := discoverPersistedState candidate in
      if PersistedState_truthy result_ then (result_, placed candidate' ++ rest)
      else
        let (found, rest') := discoverPersistedState_candidates rest in
        (found, placed candidate' ++ rest')
  end.

(** ** The circuit descriptor *)

(** [HubConnectionState] of the SignalR client. *)
Inductive HubConnectionState : Type :=
| Disconnected | Connecting | Connected | Disconnecting | Reconnecting.

Definition HubConnectionState_eqb (a b : HubConnectionState) : bool :=
  match a, b with
  | Disconnected, Disconnected | Connecting, Connecting | Connected, Connected
  | Disconnecting, Disconnecting | Reconnecting, Reconnecting => true
  | _, _ => false
  end.

(** A call of [connection.invoke]. *)
Inductive Invocation : Type :=
| StartCircuit (baseURI locationHref componentsJson applicationState : string)
| ConnectCircuit (circuitId : string).

(** The connection as the descriptor sees it: its state, and what the hub
    answers to the two invocations (a rejected promise is a [Throw]). *)
Record HubConnection : Type := {
  state : HubConnectionState;
  invokeStartCircuit : string -> string -> string -> string -> result string;
  invokeConnectCircuit : string -> result bool
}.

Section CircuitManager.

(** The class [RootComponentManager], [navigationManagerFunctions], and
    [JSON.stringify] of the [descriptorToMarker] of each component. *)
Variable RootComponentManager : Type.
Variable getBaseURI getLocationHref : string.
Variable componentsToJson : list ServerComponentDescriptor.t -> string.

Record CircuitDescriptor : Type := {
  circuitId : option string;
  components : list ServerComponentDescriptor.t;
  rootComponentManager : option RootComponentManager;
  applicationState : string
}.

(** [new CircuitDescriptor(components, appState)] *)
Definition CircuitDescriptor_new
           (components : list ServerComponentDescriptor.t + RootComponentManager)
           (appState : string) : CircuitDescriptor :=
  match components with
  | inr manager =>
      {| circuitId := None; applicationState := appState;
         rootComponentManager := Some manager; components := [] |}
  | inl components =>
      {| circuitId := None; applicationState := appState;
         rootComponentManager := None; components := components |}
  end.

Definition set_circuitId (this : CircuitDescriptor) (circuitId : option string)
  : CircuitDescriptor :=
  {| circuitId := circuitId;
     components := components this;
     rootComponentManager := rootComponentManager this;
     applicationState := applicationState this |}.

(** Every method returns its outcome, [this] after the call, and the
    invocations it made on the connection, in order. *)
Definition Outcome (A : Type) : Type := result A * CircuitDescriptor * list Invocation.

Definition initialize (this : CircuitDescriptor) (circuitId' : string)
  : result unit * CircuitDescriptor :=
  match circuitId this with
  | Some current =>
      if negb (Text.isEmpty current) then (Throw (CircuitAlreadyInitialized current), this)
      else (Return tt, set_circuitId this (Some circuitId'))
  | None => (Return tt, set_circuitId this (Some circuitId'))
  end.

Definition reconnect (this : CircuitDescriptor) (reconnection : HubConnection)
  : Outcome bool :=
  match circuitId this with
  | Some current =>
      if Text.isEmpty current then (Throw CircuitNotInitialized, this, [])
      else if negb (HubConnectionState_eqb (state reconnection) Connected) then
        (Return false, this, [])
      else (invokeConnectCircuit reconnection current, this, [ConnectCircuit current])
  | None => (Throw CircuitNotInitialized, this, [])
  end.

(** [startCircuit], run to the settlement of its promise with nothing else
    scheduled between the invocation and its answer. *)
Definition startCircuit (this : CircuitDescriptor) (connection : HubConnection)
  : Outcome bool :=
  if negb (HubConnectionState_eqb (state connection) Connected) then
    (Return false, this, [])
  else
    let componentsJson := componentsToJson (components this) in
    let invocation := StartCircuit getBaseURI getLocationHref componentsJson
                                   (applicationState this) in
    match invokeStartCircuit connection getBaseURI getLocationHref componentsJson
                             (applicationState this) with
    | Return result_ =>
        if negb (Text.isEmpty result_) then
          match initialize this result_ with
          | (Return _, this) => (Return true, this, [invocation])
          | (Throw e, this) => (Throw e, this, [invocation])
          | (OutOfFuel, this) => (OutOfFuel, this, [invocation])
          end
        else (Return false, this, [invocation])
    | Throw e => (Throw e, this, [invocation])
    | OutOfFuel => (OutOfFuel, this, [invocation])
    end.

End CircuitManager.

(** ** The boot orchestrator *)

Section Boot.

(** The descriptors the handler is given, of which the orchestrator reads
    [type] only, and the option types of [WebStartOptions]. *)
Variable Descriptor : Type.
Variable Descriptor_type : Descriptor -> ComponentType.
Variables SsrStartOptions CircuitStartOptions WebAssemblyStartOptions : Type.
Variable disableDomPreservation : SsrStartOptions -> option bool.

(** [Partial<WebStartOptions>] *)
Record WebStartOptions : Type := {
  ssr : option SsrStartOptions;
  circuit : option CircuitStartOptions;
  webAssembly : option WebAssemblyStartOptions
}.

(** [options?.field] *)
Definition field {A : Type} (options : option WebStartOptions)
           (get : WebStartOptions -> option A) : option A :=
  match options with Some o => get o | None => None end.

(** The calls the module makes on its collaborators.  They are recorded
    in the order made and taken to return normally. *)
Inductive Call : Type :=
| attachComponentDescriptorHandler
| attachStreamingRenderingListener (ssrOptions : option SsrStartOptions)
| attachAutoModeResolver
| attachProgressivelyEnhancedNavigationListener
| registerAllComponentDescriptors
| rootComponentManager_registerComponentDescriptor (descriptor : Descriptor)
| rootComponentManager_handleUpdatedRootComponents (shouldAddNewRootComponents : bool)
| startCircuit_call (options : option CircuitStartOptions)
| loadWebAssemblyPlatform (options : option WebAssemblyStartOptions)
| startWebAssembly (options : option WebAssemblyStartOptions).

(** The rest of an [async] function after its [await]. *)
Inductive Continuation : Type :=
| after_startCircuit
| after_loadWebAssemblyPlatform
| after_startWebAssembly.

(** The module's variables, the calls made so far (latest last) and the
    continuations waiting for their promise. *)
Record Module_ : Type := {
  started : bool;
  isPerformingEnhancedNavigation : bool;
  webStartOptions : option WebStartOptions;
  hasWebAssemblyLoaded : bool;
  hasCircuitStarted : bool;
  hasStartedLoadingWebAssembly : bool;
  isStartingWebAssembly : bool;
  calls : list Call;
  awaiting : list Continuation
}.

Definition loaded : Module_ :=
  {| started := false;
     isPerformingEnhancedNavigation := false;
     webStartOptions := None;
     hasWebAssemblyLoaded := false;
     hasCircuitStarted := false;
     hasStartedLoadingWebAssembly := false;
     isStartingWebAssembly := false;
     calls := [];
     awaiting := [] |}.

Definition call (c : Call) (m : Module_) : Module_ :=
  {| started := started m;
     isPerformingEnhancedNavigation := isPerformingEnhancedNavigation m;
     webStartOptions := webStartOptions m;
     hasWebAssemblyLoaded := hasWebAssemblyLoaded m;
     hasCircuitStarted := hasCircuitStarted m;
     hasStartedLoadingWebAssembly := hasStartedLoadingWebAssembly m;
     isStartingWebAssembly := isStartingWebAssembly m;
     calls := calls m ++ [c];
     awaiting := awaiting m |}.

Definition await (k : Continuation) (m : Module_) : Module_ :=
  {| started := started m;
     isPerformingEnhancedNavigation := isPerformingEnhancedNavigation m;
     webStartOptions := webStartOptions m;
     hasWebAssemblyLoaded := hasWebAssemblyLoaded m;
     hasCircuitStarted := hasCircuitStarted m;
     hasStartedLoadingWebAssembly := hasStartedLoadingWebAssembly m;
     isStartingWebAssembly := isStartingWebAssembly m;
     calls := calls m;
     awaiting := awaiting m ++ [k] |}.

Definition set_started (v : bool) (options : option WebStartOptions) (m : Module_) : Module_ :=
  {| started := v;
     isPerformingEnhancedNavigation := isPerformingEnhancedNavigation m;
     webStartOptions := options;
     hasWebAssemblyLoaded := hasWebAssemblyLoaded m;
     hasCircuitStarted := hasCircuitStarted m;
     hasStartedLoadingWebAssembly := hasStartedLoadingWebAssembly m;
     isStartingWebAssembly := isStartingWebAssembly m;
     calls := calls m;
     awaiting := awaiting m |}.

Definition set_isPerformingEnhancedNavigation (v : bool) (m : Module_) : Module_ :=
  {| started := started m;
     isPerformingEnhancedNavigation := v;
     webStartOptions := webStartOptions m;
     hasWebAssemblyLoaded := hasWebAssemblyLoaded m;
     hasCircuitStarted := hasCircuitStarted m;
     hasStartedLoadingWebAssembly := hasStartedLoadingWebAssembly m;
     isStartingWebAssembly := isStartingWebAssembly m;
     calls := calls m;
     awaiting := awaiting m |}.

Definition set_hasWebAssemblyLoaded (v : bool) (m : Module_) : Module_ :=
  {| started := started m;
     isPerformingEnhancedNavigation := isPerformingEnhancedNavigation m;
     webStartOptions := webStartOptions m;
     hasWebAssemblyLoaded := v;
     hasCircuitStarted := hasCircuitStarted m;
     hasStartedLoadingWebAssembly := hasStartedLoadingWebAssembly m;
     isStartingWebAssembly := isStartingWebAssembly m;
     calls := calls m;
     awaiting := awaiting m |}.

Definition set_hasCircuitStarted (v : bool) (m : Module_) : Module_ :=
  {| started := started m;
     isPerformingEnhancedNavigation := isPerformingEnhancedNavigation m;
     webStartOptions := webStartOptions m;
     hasWebAssemblyLoaded := hasWebAssemblyLoaded m;
     hasCircuitStarted := v;
     hasStartedLoadingWebAssembly := hasStartedLoadingWebAssembly m;
     isStartingWebAssembly := isStartingWebAssembly m;
     calls := calls m;
     awaiting := awaiting m |}.

Definition set_hasStartedLoadingWebAssembly (v : bool) (m : Module_) : Module_ :=
  {| started := started m;
     isPerformingEnhancedNavigation := isPerformingEnhancedNavigation m;
     webStartOptions := webStartOptions m;
     hasWebAssemblyLoaded := hasWebAssemblyLoaded m;
     hasCircuitStarted := hasCircuitStarted m;
     hasStartedLoadingWebAssembly := v;
     isStartingWebAssembly := isStartingWebAssembly m;
     calls := calls m;
     awaiting := awaiting m |}.

Definition set_isStartingWebAssembly (v : bool) (m : Module_) : Module_ :=
  {| started := started m;
     isPerformingEnhancedNavigation := isPerformingEnhancedNavigation m;
     webStartOptions := webStartOptions m;
     hasWebAssemblyLoaded := hasWebAssemblyLoaded m;
     hasCircuitStarted := hasCircuitStarted m;
     hasStartedLoadingWebAssembly := hasStartedLoadingWebAssembly m;
     isStartingWebAssembly := v;
     calls := calls m;
     awaiting := awaiting m |}.

Definition handleUpdatedDescriptors (m : Module_) : Module_ :=
  let shouldAddNewRootComponents := negb (isPerformingEnhancedNavigation m) in
  call (rootComponentManager_handleUpdatedRootComponents shouldAddNewRootComponents) m.

(** Each [async] function up to its [await] ... *)
Definition startCircuitIfNotStarted (m : Module_) : Module_ :=
  if hasCircuitStarted m then m
  else
    let m := set_hasCircuitStarted true m in
    let m := call (startCircuit_call (field (webStartOptions m) circuit)) m in
    await after_startCircuit m.

Definition startLoadingWebAssembly (m : Module_) : Module_ :=
  if hasStartedLoadingWebAssembly m then m
  else
    let m := set_hasStartedLoadingWebAssembly true m in
    let m := call (loadWebAssemblyPlatform (field (webStartOptions m) webAssembly)) m in
    await after_loadWebAssemblyPlatform m.

Definition startWebAssemblyIfNotStarted (m : Module_) : Module_ :=
  if isStartingWebAssembly m then m
  else
    let m := set_isStartingWebAssembly true m in
    let m := call (startWebAssembly (field (webStartOptions m) webAssembly)) m in
    await after_startWebAssembly m.

(** ... and from it on, when the awaited promise is fulfilled. *)
Definition continue (k : Continuation) (m : Module_) : Module_ :=
  match k with
  | after_startCircuit => handleUpdatedDescriptors m
  | after_loadWebAssemblyPlatform => set_hasWebAssemblyLoaded true m
  | after_startWebAssembly => handleUpdatedDescriptors (set_hasWebAssemblyLoaded true m)
  end.

Definition registerComponentDescriptor (descriptor : Descriptor) (m : Module_) : Module_ :=
  let m := call (rootComponentManager_registerComponentDescriptor descriptor) m in
  match Descriptor_type descriptor with
  | auto => startLoadingWebAssembly m
  | server => startCircuitIfNotStarted m
  | webassembly => startWebAssemblyIfNotStarted m
  end.

Definition beforeEnhancedNavigation (m : Module_) : Module_ :=
  set_isPerformingEnhancedNavigation true m.

Definition afterDocumentUpdated (m : Module_) : Module_ :=
  handleUpdatedDescriptors m.

Definition afterEnhancedNavigation (m : Module_) : Module_ :=
  handleUpdatedDescriptors (set_isPerformingEnhancedNavigation false m).

(** The function given to [attachAutoModeResolver]. *)
Definition autoModeResolver (m : Module_) : ComponentType * Module_ :=
  if hasWebAssemblyLoaded m then (webassembly, startWebAssemblyIfNotStarted m)
  else (server, startCircuitIfNotStarted m).

(** [boot(options)].  [registerAllComponentDescriptors(document)] hands
    each descriptor it finds in the document to the attached handler's
    [registerComponentDescriptor]; [found] is the list of them. *)
Definition boot (options : option WebStartOptions) (found : list Descriptor)
           (m : Module_) : result unit * Module_ :=
  if started m then (Throw AlreadyStarted, m)
  else
    let m := set_started true options m in
    let m := call attachComponentDescriptorHandler m in
    let m := call (attachStreamingRenderingListener (field options ssr)) m in
    let m := call attachAutoModeResolver m in
    let m :=
      match field options ssr with
      | Some ssrOptions =>
          match disableDomPreservation ssrOptions with
          | Some true => m
          | _ => call attachProgressivelyEnhancedNavigationListener m
          end
      | None => call attachProgressivelyEnhancedNavigationListener m
      end in
    let m := call registerAllComponentDescriptors m in
    let m := fold_left (fun m descriptor => registerComponentDescriptor descriptor m) found m in
    (Return tt, m).

(** What the event loop can run next. *)
Inductive Event : Type :=
| call_boot (options : option WebStartOptions) (found : list Descriptor)
| call_registerComponentDescriptor (descriptor : Descriptor)
| call_autoModeResolver
| call_beforeEnhancedNavigation
| call_afterDocumentUpdated
| call_afterEnhancedNavigation
| fulfilled (k : Continuation)
| rejected (k : Continuation).

Definition Continuation_eqb (a b : Continuation) : bool :=
  match a, b with
  | after_startCircuit, after_startCircuit
  | after_loadWebAssemblyPlatform, after_loadWebAssemblyPlatform
  | after_startWebAssembly, after_startWebAssembly => true
  | _, _ => false
  end.

Fixpoint remove_first (k : Continuation) (l : list Continuation) : option (list Continuation) :=
  match l with
  | [] => None
  | k' :: rest =>
      if Continuation_eqb k k' then Some rest
      else match remove_first k rest with
           | Some rest' => Some (k' :: rest')
           | None => None
           end
  end.

Definition set_awaiting (l : list Continuation) (m : Module_) : Module_ :=
  {| started := started m;
     isPerformingEnhancedNavigation := isPerformingEnhancedNavigation m;
     webStartOptions := webStartOptions m;
     hasWebAssemblyLoaded := hasWebAssemblyLoaded m;
     hasCircuitStarted := hasCircuitStarted m;
     hasStartedLoadingWebAssembly := hasStartedLoadingWebAssembly m;
     isStartingWebAssembly := isStartingWebAssembly m;
     calls := calls m;
     awaiting := l |}.

(** One turn of the event loop.  A promise nobody awaits settles without
    effect on the module. *)
Definition step (m : Module_) (e : Event) : Module_ :=
  match e with
  | call_boot options found => snd (boot options found m)
  | call_registerComponentDescriptor descriptor => registerComponentDescriptor descriptor m
  | call_autoModeResolver => snd (autoModeResolver m)
  | call_beforeEnhancedNavigation => beforeEnhancedNavigation m
  | call_afterDocumentUpdated => afterDocumentUpdated m
  | call_afterEnhancedNavigation => afterEnhancedNavigation m
  | fulfilled k =>
      match remove_first k (awaiting m) with
      | Some rest => continue k (set_awaiting rest m)
      | None => m
      end
  | rejected k =>
      match remove_first k (awaiting m) with
      | Some rest => set_awaiting rest m
      | None => m
      end
  end.

Definition run (m : Module_) (events : list Event) : Module_ := fold_left step events m.

End Boot.

(** ** A reader for the marker texts of the examples *)

(** The theorems below hold for whatever [JSON_parse] is.  The examples need
    one to run: this reader accepts one JSON object whose values are
    strings without escapes or integer literals, which is what the markers
    of the examples are, and rejects every other text. *)
Module JsonReader.

Inductive Token : Type :=
| LBrace | RBrace | Colon | Comma
| TString (s : string)
| TInteger (z : Z).

Inductive Lexing : Type :=
| Idle
| InString (reversed : list ascii)
| InInteger (negative : bool) (digits : list nat).

Definition quote : ascii := ascii_of_nat 34.

Definition digit (c : ascii) : option nat :=
  let n := Text.code c in
  if ((48 <=? n) && (n <=? 57))%nat then Some (n - 48)%nat else None.

Definition integer (negative : bool) (digits : list nat) : option Z :=
  match digits with
  | [] => None
  | [d] => Some (if negative then (- Z.of_nat d)%Z else Z.of_nat d)
  | d :: _ :: _ =>
      if (d =? 0)%nat then None
      else
        let v := fold_left (fun acc d => (acc * 10 + Z.of_nat d)%Z) digits 0%Z in
        Some (if negative then (- v)%Z else v)
  end.

(** The white space of JSON: TAB, LF, CR, SPACE. *)
Definition isWhitespace (c : ascii) : bool :=
  let n := Text.code c in
  ((n =? 9) || (n =? 10) || (n =? 13) || (n =? 32))%nat.

Definition punctuation (c : ascii) : option (option Token) :=
  if Ascii.eqb c "{" then Some (Some LBrace)
  else if Ascii.eqb c "}" then Some (Some RBrace)
  else if Ascii.eqb c ":" then Some (Some Colon)
  else if Ascii.eqb c "," then Some (Some Comma)
  else if isWhitespace c then Some None
  else None.

Fixpoint lex (s : string) (st : Lexing) : option (list Token) :=
  match s, st with
  | EmptyString, Idle => Some []
  | EmptyString, InString _ => None
  | EmptyString, InInteger negative digits =>
      match integer negative digits with
      | Some z => Some [TInteger z]
      | None => None
      end
  | String c rest, InString reversed =>
      if Ascii.eqb c quote then
        match lex rest Idle with
        | Some tokens => Some (TString (string_of_list_ascii (rev reversed)) :: tokens)
        | None => None
        end
      else if Ascii.eqb c "\" then None
      else if (Text.code c <? 32)%nat then None
      else lex rest (InString (c :: reversed))
  | String c rest, InInteger negative digits =>
      match digit c with
      | Some d => lex rest (InInteger negative (digits ++ [d]))
      | None =>
          match integer negative digits, punctuation c, lex rest Idle with
          | Some z, Some (Some token), Some tokens => Some (TInteger z :: token :: tokens)
          | Some z, Some None, Some tokens => Some (TInteger z :: tokens)
          | _, _, _ => None
          end
      end
  | String c rest, Idle =>
      if Ascii.eqb c quote then lex rest (InString [])
      else if Ascii.eqb c "-" then lex rest (InInteger true [])
      else match digit c with
           | Some d => lex rest (InInteger false [d])
           | None =>
               match punctuation c, lex rest Idle with
               | Some (Some token), Some tokens => Some (token :: tokens)
               | Some None, Some tokens => Some tokens
               | _, _ => None
               end
           end
  end.

Inductive Value : Type :=
| VString (s : string)
| VInteger (z : Z).

Definition value (t : Token) : option Value :=
  match t with
  | TString s => Some (VString s)
  | TInteger z => Some (VInteger z)
  | _ => None
  end.

(** The members after the opening brace, up to the closing one. *)
Fixpoint members (tokens : list Token) : option (list (string * Value)) :=
  match tokens with
  | [TString key; Colon; v; RBrace] =>
      match value v with
      | Some v => Some [(key, v)]
      | None => None
      end
  | TString key :: Colon :: v :: Comma :: more =>
      match value v, members more with
      | Some v, Some ms => Some ((key, v) :: ms)
      | _, _ => None
      end
  | _ => None
  end.

Definition object (json : string) : option (list (string * Value)) :=
  match lex json Idle with
  | Some [LBrace; RBrace] => Some []
  | Some (LBrace :: tokens) => members tokens
  | _ => None
  end.

Definition empty : Payload.t :=
  {| Payload.type := None; Payload.prerenderId := None; Payload.sequence := None;
     Payload.descriptor := None; Payload.typeName := None; Payload.assembly := None;
     Payload.parameterDefinitions := None; Payload.parameterValues := None;
     Payload.otherKeys := 0 |}.

Definition knownKeys : list string :=
  ["type"; "prerenderId"; "sequence"; "descriptor"; "typeName"; "assembly";
   "parameterDefinitions"; "parameterValues"].

Definition isKnown (key : string) : bool := existsb (String.eqb key) knownKeys.

(** The last member of a key is the one an object keeps. *)
Fixpoint lookup (key : string) (ms : list (string * Value)) : option Value :=
  match ms with
  | [] => None
  | (k, v) :: rest =>
      match lookup key rest with
      | Some later => Some later
      | None => if String.eqb k key then Some v else None
      end
  end.

Definition stringField (key : string) (ms : list (string * Value))
  : option (option string) :=
  match lookup key ms with
  | None => Some None
  | Some (VString s) => Some (Some s)
  | Some (VInteger _) => None
  end.

Definition numberField (key : string) (ms : list (string * Value))
  : option (option Number) :=
  match lookup key ms with
  | None => Some None
  | Some (VInteger z) => Some (Some (Integer z))
  | Some (VString _) => None
  end.

Definition others (ms : list (string * Value)) : nat :=
  List.length (nodup string_dec (filter (fun k => negb (isKnown k)) (map fst ms))).

Definition parse (json : string) : option Payload.t :=
  match object json with
  | None => None
  | Some ms =>
      match stringField "type" ms, stringField "prerenderId" ms,
            numberField "sequence" ms, stringField "descriptor" ms,
            stringField "typeName" ms, stringField "assembly" ms,
            stringField "parameterDefinitions" ms, stringField "parameterValues" ms with
      | Some type, Some prerenderId, Some sequence, Some descriptor,
        Some typeName, Some assembly, Some parameterDefinitions, Some parameterValues =>
          Some {| Payload.type := type; Payload.prerenderId := prerenderId;
                  Payload.sequence := sequence; Payload.descriptor := descriptor;
                  Payload.typeName := typeName; Payload.assembly := assembly;
                  Payload.parameterDefinitions := parameterDefinitions;
                  Payload.parameterValues := parameterValues;
                  Payload.otherKeys := others ms |}
      | _, _, _, _, _, _, _, _ => None
      end
  end.

End JsonReader.


(** The marker texts of the examples are written with an apostrophe where
    the text has a double quote. *)
Fixpoint quoted (s : string) : string :=
  match s with
  | EmptyString => EmptyString
  | String c rest => String (if Ascii.eqb c "'" then JsonReader.quote else c) (quoted rest)
  end.

(** ** Vocabulary of the properties *)

(** The payload of a local-execution descriptor that [merge] compares. *)
Definition sameComponent (a b : WebAssemblyComponentDescriptor.t) : Prop :=
  WebAssemblyComponentDescriptor.assembly a = WebAssemblyComponentDescriptor.assembly b
  /\ WebAssemblyComponentDescriptor.typeName a = WebAssemblyComponentDescriptor.typeName b.

(** The three errors with which a merge refuses its argument. *)
Definition isIncompatibleMerge (e : Error) : Prop :=
  match e with
  | MergeDifferingTypes | MergeDifferentComponentTypes _ _ | MergeDifferentAssemblies _ _ => True
  | _ => False
  end.

(** The precondition of a merge: the same type and, for local-execution
    descriptors, the same assembly and typeName. *)
Definition compatible (existing incoming : ComponentDescriptor) : Prop :=
  match existing, incoming with
  | ServerDescriptor _, ServerDescriptor _ => True
  | WebAssemblyDescriptor e, WebAssemblyDescriptor i => sameComponent e i
  | _, _ => False
  end.

(** A [circuitId] that the tests [if (this.circuitId)] take for set. *)
Definition isSet (circuitId : option string) : Prop := truthy circuitId = true.

Section BootVocabulary.
Context {Descriptor SsrStartOptions CircuitStartOptions WebAssemblyStartOptions : Type}.

Local Abbreviation Call := (Call Descriptor SsrStartOptions CircuitStartOptions WebAssemblyStartOptions).

Definition isLoad (c : Call) : bool :=
  match c with loadWebAssemblyPlatform _ _ _ _ _ => true | _ => false end.

Definition isStartWebAssembly (c : Call) : bool :=
  match c with startWebAssembly _ _ _ _ _ => true | _ => false end.

Definition isStartCircuit (c : Call) : bool :=
  match c with startCircuit_call _ _ _ _ _ => true | _ => false end.

Definition count (p : Call -> bool) (l : list Call) : nat := List.length (filter p l).

Definition once (guard : bool) : nat := if guard then 1 else 0.

(** Each guard tells whether its start has been issued, and how often. *)
Definition guarded (m : Module_ Descriptor SsrStartOptions CircuitStartOptions
                             WebAssemblyStartOptions) : Prop :=
  count isLoad (calls _ _ _ _ m) = once (hasStartedLoadingWebAssembly _ _ _ _ m)
  /\ count isStartWebAssembly (calls _ _ _ _ m) = once (isStartingWebAssembly _ _ _ _ m)
  /\ count isStartCircuit (calls _ _ _ _ m) = once (hasCircuitStarted _ _ _ _ m).

(** From [m] to [m']: no guard is reset and no call is forgotten. *)
Definition advances (m m' : Module_ Descriptor SsrStartOptions CircuitStartOptions
                                    WebAssemblyStartOptions) : Prop :=
  (started _ _ _ _ m = true -> started _ _ _ _ m' = true)
  /\ (hasStartedLoadingWebAssembly _ _ _ _ m = true ->
      hasStartedLoadingWebAssembly _ _ _ _ m' = true)
  /\ (isStartingWebAssembly _ _ _ _ m = true -> isStartingWebAssembly _ _ _ _ m' = true)
  /\ (hasCircuitStarted _ _ _ _ m = true -> hasCircuitStarted _ _ _ _ m' = true)
  /\ exists more, calls _ _ _ _ m' = calls _ _ _ _ m ++ more.
End BootVocabulary.

(** The siblings an iterator has not reached yet. *)
Definition ahead (iterator : ComponentCommentIterator.t) : list Node :=
  skipn (Z.to_nat (ComponentCommentIterator.currentIndex iterator + 1))
        (items (ComponentCommentIterator.childNodes iterator)).

(** An iterator as the constructor and [next] leave it. *)
Definition wellFormed (iterator : ComponentCommentIterator.t) : Prop :=
  ComponentCommentIterator.length iterator
  = Z.of_nat (List.length (items (ComponentCommentIterator.childNodes iterator)))
  /\ (-1 <= ComponentCommentIterator.currentIndex iterator)%Z.

(** The iterator moved to index [i] of its list. *)
Definition moved (iterator : ComponentCommentIterator.t) (i : Z) : ComponentCommentIterator.t :=
  {| ComponentCommentIterator.childNodes := ComponentCommentIterator.childNodes iterator;
     ComponentCommentIterator.currentIndex := i;
     ComponentCommentIterator.length := ComponentCommentIterator.length iterator;
     ComponentCommentIterator.currentElement :=
       nth_error (items (ComponentCommentIterator.childNodes iterator)) (Z.to_nat i) |}.

(** The text after the marker prefix of a node that is a marker comment: a
    comment whose text matches the marker pattern with a non-empty
    [descriptor] group. *)
Definition markerJson (node : Node) : option string :=
  match node with
  | Comment text =>
      match Text.blazorCommentRegularExpression text with
      | Some json => if Text.isEmpty json then None else Some json
      | None => None
      end
  | _ => None
  end.

(** A node that the scan passes without effect: no marker comment and
    without children. *)
Definition inert (node : Node) : Prop :=
  markerJson node = None /\ Node.children node = [].

(** Where a call that was given [iterator] leaves it: either where it was,
    or on one of the siblings that were ahead. *)
Definition lands {A : Type} (iterator : ComponentCommentIterator.t)
           (r : result (A * ComponentCommentIterator.t)) : Prop :=
  match r with
  | OutOfFuel => False
  | Throw _ => True
  | Return (_, iterator') =>
      wellFormed iterator'
      /\ (iterator' = iterator
          \/ exists node passed,
               ComponentCommentIterator.currentElement iterator' = Some node
               /\ ahead iterator = passed ++ node :: ahead iterator')
  end.

(** The key by which the descriptors of a target type are ordered. *)
Definition orderingKey (type : TargetType) : DescriptorOf type -> Z :=
  match type with
  | target_webassembly => WebAssemblyComponentDescriptor.getUniqueId
  | target_server => ServerComponentDescriptor.getUniqueId
  end.

(** The descriptors made of the comments of a scan, in the order of the
    scan, which is the order of the document. *)
Definition entries (globalId : Z) (type : TargetType)
  : list (ComponentCommentOf type) -> list (DescriptorOf type) :=
  match type with
  | target_webassembly => fun comments => fst (webAssemblyEntries globalId comments)
  | target_server => fun comments => map serverEntry comments
  end.

(** A descendant by the indices of the children on the way to it; the
    empty path is the node itself. *)
Definition Path : Type := list nat.

Fixpoint nodeAt (node : Node) (path : Path) : option Node :=
  match path with
  | [] => Some node
  | i :: path' =>
      match nth_error (Node.children node) i with
      | Some child => nodeAt child path'
      | None => None
      end
  end.

Definition withChildren (node : Node) (children : list Node) : Node :=
  match node with
  | Element tagName _ => Element tagName children
  | Document _ => Document children
  | Comment _ | Text _ => node
  end.

(** The subtree with the node at [path] taken out of its parent; [None]
    when that is the root of the subtree itself. *)
Fixpoint removeAt (node : Node) (path : Path) : option Node :=
  match path with
  | [] => None
  | i :: path' =>
      match nth_error (Node.children node) i with
      | Some child =>
          Some (withChildren node (firstn i (Node.children node)
                                   ++ placed (removeAt child path')
                                   ++ skipn (S i) (Node.children node)))
      | None => Some node
      end
  end.

(** [q] comes before [p] in document order. *)
Fixpoint precedes (q p : Path) : Prop :=
  match q, p with
  | [], _ :: _ => True
  | i :: q', j :: p' => i < j \/ (i = j /\ precedes q' p')
  | _, [] => False
  end.

(** No comment of the subtree is a persisted-state comment. *)
Definition withoutState (node : Node) : Prop :=
  forall path content,
    nodeAt node path = Some (Comment content) ->
    Text.blazorStateCommentRegularExpression content = None.

(** The first persisted-state comment of the subtree, in document order,
    is at [path] and its text is white space, the prefix and [state]. *)
Definition firstState (node : Node) (path : Path) (state : string) : Prop :=
  (exists space,
      nodeAt node path = Some (Comment (space ++ "Blazor-Component-State:" ++ state))
      /\ Text.all Text.isWhiteSpace space = true
      /\ Text.blazorStateCommentRegularExpression
           (space ++ "Blazor-Component-State:" ++ state) = Some state)
  /\ forall q content,
      precedes q path ->
      nodeAt node q = Some (Comment content) ->
      Text.blazorStateCommentRegularExpression content = None.

(** What the search does on a subtree: nothing, where no comment is a
    persisted-state comment; else it takes out the first one and returns
    its state. *)
Definition searched (node : Node) : Prop :=
  (withoutState node
   /\ exists notFound, discoverPersistedState node = (notFound, Some node)
                       /\ (notFound = Null \/ notFound = Undefined))
  \/ (exists path state,
         firstState node path state
         /\ discoverPersistedState node = (State state, removeAt node path)).

(** ** The wire records of the descriptors *)

Module ServerComponentMarker.
(** [type] is ['server']; [toRecord] leaves [interactiveComponentId] out. *)
Record t : Type := {
  sequence : Z;
  descriptor : string;
  interactiveComponentId : option Z
}.
End ServerComponentMarker.

Module WebAssemblyComponentMarker.
(** [type] is ['webassembly']. *)
Record t : Type := {
  typeName : string;
  assembly : string;
  parameterDefinitions : option string;
  parameterValues : option string
}.
End WebAssemblyComponentMarker.

Inductive ComponentMarker : Type :=
| ServerMarker (m : ServerComponentMarker.t)
| WebAssemblyMarker (m : WebAssemblyComponentMarker.t).

(** [ServerComponentDescriptor.prototype.toRecord] *)
Definition ServerComponentDescriptor_toRecord (this : ServerComponentDescriptor.t)
  : ServerComponentMarker.t :=
  {| ServerComponentMarker.sequence := ServerComponentDescriptor.sequence this;
     ServerComponentMarker.descriptor := ServerComponentDescriptor.descriptor this;
     ServerComponentMarker.interactiveComponentId := None |}.

(** [WebAssemblyComponentDescriptor.prototype.toRecord] *)
Definition WebAssemblyComponentDescriptor_toRecord (this : WebAssemblyComponentDescriptor.t)
  : WebAssemblyComponentMarker.t :=
  {| WebAssemblyComponentMarker.typeName := WebAssemblyComponentDescriptor.typeName this;
     WebAssemblyComponentMarker.assembly := WebAssemblyComponentDescriptor.assembly this;
     WebAssemblyComponentMarker.parameterDefinitions :=
       WebAssemblyComponentDescriptor.parameterDefinitions this;
     WebAssemblyComponentMarker.parameterValues :=
       WebAssemblyComponentDescriptor.parameterValues this |}.

(** [descriptor.toRecord()] on the union type. *)
Definition toRecord (d : ComponentDescriptor) : ComponentMarker :=
  match d with
  | ServerDescriptor d => ServerMarker (ServerComponentDescriptor_toRecord d)
  | WebAssemblyDescriptor d => WebAssemblyMarker (WebAssemblyComponentDescriptor_toRecord d)
  end.

(** ** What the calls of the boot module carry *)

Section BootCalls.
Context {Descriptor SsrStartOptions CircuitStartOptions WebAssemblyStartOptions : Type}.

Local Abbreviation Call := (Call Descriptor SsrStartOptions CircuitStartOptions WebAssemblyStartOptions).
Local Abbreviation Options :=
  (WebStartOptions SsrStartOptions CircuitStartOptions WebAssemblyStartOptions).

(** The arguments of the calls of [handleUpdatedRootComponents], in order. *)
Fixpoint updates (l : list Call) : list bool :=
  match l with
  | [] => []
  | rootComponentManager_handleUpdatedRootComponents _ _ _ _ b :: rest => b :: updates rest
  | _ :: rest => updates rest
  end.

(** A start of a runtime is given the part of [options] that is its own. *)
Definition startedWith (options : option Options) (c : Call) : Prop :=
  match c with
  | startCircuit_call _ _ _ _ o => o = field _ _ _ options (circuit _ _ _)
  | loadWebAssemblyPlatform _ _ _ _ o => o = field _ _ _ options (webAssembly _ _ _)
  | startWebAssembly _ _ _ _ o => o = field _ _ _ options (webAssembly _ _ _)
  | _ => True
  end.

Definition isAttachNavigation (c : Call) : bool :=
  match c with attachProgressivelyEnhancedNavigationListener _ _ _ _ => true | _ => false end.

(** The continuations whose fulfilment marks WebAssembly as loaded. *)
Definition loadsWebAssembly (k : Continuation) : bool :=
  match k with
  | after_startCircuit => false
  | after_loadWebAssemblyPlatform | after_startWebAssembly => true
  end.

End BootCalls.

(** ** The persisted states of a subtree *)

(** The states of the persisted-state comments of a subtree, in document
    order. *)
Fixpoint states (node : Node) : list string :=
  match node with
  | Comment content =>
      match Text.blazorStateCommentRegularExpression content with
      | Some state => [state]
      | None => []
      end
  | Text _ => []
  | Element _ children | Document children =>
      (fix all (l : list Node) : list string :=
         match l with
         | [] => []
         | child :: rest => states child ++ all rest
         end) children
  end.

Definition statesOf (nodes : list Node) : list string := flat_map states nodes.

(** What one search does to the states of a subtree: it returns the first
    and leaves the others, or finds none and leaves the subtree. *)
Definition consumesFirst (node : Node) : Prop :=
  match states node with
  | [] =>
      exists notFound, discoverPersistedState node = (notFound, Some node)
                       /\ (notFound = Null \/ notFound = Undefined)
  | state :: rest =>
      exists after, discoverPersistedState node = (State state, after)
                    /\ Text.isEmpty state = false
                    /\ statesOf (placed after) = rest
  end.

(** ** What a marker becomes, and the scan without the iterator *)

(** The statements of [createServerComponentComment] from the test of
    [type] on, for the [end] that the first two have settled. *)
Definition serverComment (payload : Payload.t) (start : Node) (end_ : option Node)
  : result (option ServerComponentComment.t) :=
  if negb (equals (Payload.type payload) "server") then Return None
  else
    match Payload.descriptor payload with
    | None => Throw DescriptorUndefined
    | Some descriptor =>
        if Text.isEmpty descriptor then Throw DescriptorUndefined
        else match Payload.sequence payload with
             | None => Throw SequenceUndefined
             | Some NonInteger => Throw SequenceNotInteger
             | Some (Integer sequence) =>
                 Return (Some {| ServerComponentComment.sequence := sequence;
                                 ServerComponentComment.descriptor := descriptor;
                                 ServerComponentComment.start := start;
                                 ServerComponentComment.prerenderId :=
                                   Payload.prerenderId payload;
                                 ServerComponentComment.end_ := end_ |})
             end
    end.

(** The same of [createWebAssemblyComponentComment]. *)
Definition webAssemblyComment (payload : Payload.t) (start : Node) (end_ : option Node)
  : result (option WebAssemblyComponentComment.t) :=
  if negb (equals (Payload.type payload) "webassembly") then Return None
  else
    match Payload.assembly payload with
    | None => Throw AssemblyUndefined
    | Some assembly =>
        if Text.isEmpty assembly then Throw AssemblyUndefined
        else match Payload.typeName payload with
             | None => Throw TypeNameUndefined
             | Some typeName =>
                 if Text.isEmpty typeName then Throw TypeNameUndefined
                 else
                   let* parameterDefinitions := decoded (Payload.parameterDefinitions payload) in
                   let* parameterValues := decoded (Payload.parameterValues payload) in
                   Return (Some {| WebAssemblyComponentComment.typeName := typeName;
                                   WebAssemblyComponentComment.assembly := assembly;
                                   WebAssemblyComponentComment.parameterDefinitions :=
                                     parameterDefinitions;
                                   WebAssemblyComponentComment.parameterValues := parameterValues;
                                   WebAssemblyComponentComment.start := start;
                                   WebAssemblyComponentComment.prerenderId :=
                                     Payload.prerenderId payload;
                                   WebAssemblyComponentComment.end_ := end_ |})
             end
    end.

Definition commentOf (type : TargetType) (payload : Payload.t) (start : Node)
           (end_ : option Node) : result (option (ComponentCommentOf type)) :=
  match type return result (option (ComponentCommentOf type)) with
  | target_webassembly => webAssemblyComment payload start end_
  | target_server => serverComment payload start end_
  end.

(** The value of [type] that a discovery for a target type looks for. *)
Definition typeOf (type : TargetType) : string :=
  match type with
  | target_webassembly => "webassembly"
  | target_server => "server"
  end.

Definition otherType (type : TargetType) : string :=
  match type with
  | target_webassembly => "server"
  | target_server => "webassembly"
  end.

(** A payload without one of the fields its type requires, or with a
    parameter that is no base64 text. *)
Definition lacksRequired (type : TargetType) (payload : Payload.t) : Prop :=
  match type with
  | target_server =>
      truthy (Payload.descriptor payload) = false
      \/ Payload.sequence payload = None
      \/ Payload.sequence payload = Some NonInteger
  | target_webassembly =>
      truthy (Payload.assembly payload) = false
      \/ truthy (Payload.typeName payload) = false
      \/ (exists e, decoded (Payload.parameterDefinitions payload) = Throw e)
      \/ (exists e, decoded (Payload.parameterValues payload) = Throw e)
  end.

Definition listed {A : Type} (a : option A) : list A :=
  match a with Some x => [x] | None => [] end.

Section Scan.
Variable JSON_parse : string -> option Payload.t.
Variable type : TargetType.

(** Whether some marker of the subtree carries a truthy [prerenderId]. *)
Fixpoint hasPrerendered (node : Node) : bool :=
  match node with
  | Comment _ =>
      match markerJson node with
      | Some json =>
          match JSON_parse json with
          | Some payload => truthy (Payload.prerenderId payload)
          | None => false
          end
      | None => false
      end
  | Text _ => false
  | Element _ children | Document children =>
      (fix any (l : list Node) : bool :=
         match l with
         | [] => false
         | child :: rest => hasPrerendered child || any rest
         end) children
  end.

Definition anyPrerendered (nodes : list Node) : bool := existsb hasPrerendered nodes.

(** What the markers of a subtree give when none has an end marker to look
    for: the comments of the markers of the target type, in document order,
    or the first error in that order.  [parent] is the parent of [node]. *)
Fixpoint scanNode (directChildrenOnly : bool) (parent node : Node)
  : result (list (ComponentCommentOf type)) :=
  match markerJson node with
  | Some json =>
      if Node.isDocument parent then Throw RootComponentOnDocument
      else
        try_catch_rethrow
          (let* payload := parseCommentPayload JSON_parse json in
           let* componentComment := commentOf type payload node None in
           Return (listed componentComment))
          (MalformedComponentComment (Node.textContent node))
  | None =>
      if directChildrenOnly then Return []
      else
        match node with
        | Element _ children | Document children =>
            (fix scanAll (l : list Node) : result (list (ComponentCommentOf type)) :=
               match l with
               | [] => Return []
               | child :: rest =>
                   let* found := scanNode false node child in
                   let* others := scanAll rest in
                   Return (found ++ others)
               end) children
        | Comment _ | Text _ => Return []
        end
  end.

Fixpoint scanNodes (directChildrenOnly : bool) (parent : Node) (nodes : list Node)
  : result (list (ComponentCommentOf type)) :=
  match nodes with
  | [] => Return []
  | node :: rest =>
      let* found := scanNode directChildrenOnly parent node in
      let* others := scanNodes directChildrenOnly parent rest in
      Return (found ++ others)
  end.

End Scan.

(** ** The scan, with the search for end markers *)

(** What the scan of a list of siblings is in the middle of: nothing, or
    the search for the end marker of [start], a start marker whose payload
    has the truthy [prerenderId]. *)
Inductive Pending : Type :=
| nothing
| seeking (start : Node) (payload : Payload.t) (prerenderId : string).

Section Reference.
Variable JSON_parse : string -> option Payload.t.
Variable type : TargetType.

(** What the scan does with one sibling, [below] being the scan of the
    children of a node.  While the end marker of [start] is looked for,
    siblings that are no marker comments are passed, their children
    unseen, and the first marker comment must be the end marker: then
    [start] gives its comment, if it is of the target type.  Otherwise a
    marker comment must not be directly on the document and must have a
    payload of one of the two types; with a truthy [prerenderId] its end
    marker is looked for, without one it gives its comment at once; and the
    children of a node that is no marker comment are scanned unless
    [directChildrenOnly] is set.  Every error but that of a marker on the
    document comes out as the malformed-comment error on the start
    marker. *)
Definition scanOne (below : Node -> result (list (ComponentCommentOf type)))
           (directChildrenOnly : bool) (parent : Node) (pending : Pending) (current : Node)
  : result (list (ComponentCommentOf type) * Pending) :=
  match pending with
  | seeking start payload id =>
      match markerJson current with
      | None => Return ([], pending)
      | Some json =>
          try_catch_rethrow
            (let* _ := validateEndComponentPayload JSON_parse json id in
             let* componentComment := commentOf type payload start (Some current) in
             Return (listed componentComment, nothing))
            (MalformedComponentComment (Node.textContent start))
      end
  | nothing =>
      match markerJson current with
      | Some json =>
          if Node.isDocument parent then Throw RootComponentOnDocument
          else
            try_catch_rethrow
              (let* payload := parseCommentPayload JSON_parse json in
               let unpaired :=
                 let* componentComment := commentOf type payload current None in
                 Return (listed componentComment, nothing) in
               match Payload.prerenderId payload with
               | Some id =>
                   if Text.isEmpty id then unpaired
                   else Return ([], seeking current payload id)
               | None => unpaired
               end)
              (MalformedComponentComment (Node.textContent current))
      | None =>
          if directChildrenOnly then Return ([], nothing)
          else let* found := below current in Return (found, nothing)
      end
  end.

(** The end of a list of siblings: a start marker whose end marker is
    still looked for has none. *)
Definition settled (r : result (list (ComponentCommentOf type) * Pending))
  : result (list (ComponentCommentOf type)) :=
  let* (found, pending) := r in
  match pending with
  | nothing => Return found
  | seeking start _ _ => Throw (MalformedComponentComment (Node.textContent start))
  end.

(** The scan of the children of [node], and of theirs. *)
Fixpoint scanBelow (node : Node) : result (list (ComponentCommentOf type)) :=
  match node with
  | Element _ children | Document children =>
      settled
        ((fix siblings (l : list Node) (pending : Pending) {struct l}
            : result (list (ComponentCommentOf type) * Pending) :=
            match l with
            | [] => Return ([], pending)
            | current :: rest =>
                let* (found, pending) := scanOne scanBelow false node pending current in
                let* (others, pending) := siblings rest pending in
                Return (found ++ others, pending)
            end) children nothing)
  | Comment _ | Text _ => Return []
  end.

(** The scan of some siblings, children of [parent], from left to right:
    the comments found and what the scan is in the middle of after them. *)
Fixpoint scanSiblings (directChildrenOnly : bool) (parent : Node) (pending : Pending)
         (nodes : list Node) : result (list (ComponentCommentOf type) * Pending) :=
  match nodes with
  | [] => Return ([], pending)
  | current :: rest =>
      let* (found, pending) := scanOne scanBelow directChildrenOnly parent pending current in
      let* (others, pending) := scanSiblings directChildrenOnly parent pending rest in
      Return (found ++ others, pending)
  end.

(** The scan of the subtree of [root]: the comments of the markers of the
    target type in document order, or the first error in that order. *)
Definition scan (directChildrenOnly : bool) (root : Node)
  : result (list (ComponentCommentOf type)) :=
  settled (scanSiblings directChildrenOnly root nothing (Node.children root)).

(** The scan of [root] comes to [current], the child of [parent] that
    [after] follow, while no end marker is looked for: the siblings before
    it, and before each of its ancestors below [root], have been scanned
    without error, and the ancestors are no marker comments. *)
Inductive arrives : bool -> Node -> Node -> Node -> list Node -> Prop :=
| arrives_child (directChildrenOnly : bool) (root : Node) (before : list Node)
                (current : Node) (after : list Node)
                (found : list (ComponentCommentOf type)) :
    Node.children root = before ++ current :: after ->
    scanSiblings directChildrenOnly root nothing before = Return (found, nothing) ->
    arrives directChildrenOnly root root current after
| arrives_below (root : Node) (before : list Node) (child : Node) (rest : list Node)
                (found : list (ComponentCommentOf type))
                (parent current : Node) (after : list Node) :
    Node.children root = before ++ child :: rest ->
    scanSiblings false root nothing before = Return (found, nothing) ->
    markerJson child = None ->
    arrives false child parent current after ->
    arrives false root parent current after.

End Reference.

(** A descriptor made of a comment: the anchors and the payload are those
    of the comment, but for the [end] of a local-execution descriptor,
    which is not kept. *)
Definition describes (type : TargetType) : DescriptorOf type -> ComponentCommentOf type -> Prop :=
  match type with
  | target_server =>
      fun descriptor componentComment =>
        ServerComponentDescriptor.start descriptor
        = ServerComponentComment.start componentComment
        /\ ServerComponentDescriptor.end_ descriptor
           = ServerComponentComment.end_ componentComment
        /\ ServerComponentDescriptor.sequence descriptor
           = ServerComponentComment.sequence componentComment
        /\ ServerComponentDescriptor.descriptor descriptor
           = ServerComponentComment.descriptor componentComment
  | target_webassembly =>
      fun descriptor componentComment =>
        WebAssemblyComponentDescriptor.start descriptor
        = WebAssemblyComponentComment.start componentComment
        /\ WebAssemblyComponentDescriptor.end_ descriptor = None
        /\ WebAssemblyComponentDescriptor.assembly descriptor
           = WebAssemblyComponentComment.assembly componentComment
        /\ WebAssemblyComponentDescriptor.typeName descriptor
           = WebAssemblyComponentComment.typeName componentComment
        /\ WebAssemblyComponentDescriptor.parameterDefinitions descriptor
           = WebAssemblyComponentComment.parameterDefinitions componentComment
        /\ WebAssemblyComponentDescriptor.parameterValues descriptor
           = WebAssemblyComponentComment.parameterValues componentComment
  end.

(** [n] consecutive identities from [from] on. *)
Fixpoint consecutive (from : Z) (n : nat) : list Z :=
  match n with
  | O => []
  | S n' => from :: consecutive (from + 1) n'
  end.

(** The static counter of local-execution identities after a discovery
    that found [n] markers: only a discovery for local execution creates
    identities. *)
Definition globalIdAfter (type : TargetType) (globalId : Z) (n : nat) : Z :=
  match type with
  | target_webassembly => (globalId + Z.of_nat n)%Z
  | target_server => globalId
  end.

(** The descriptors of a discovery that found [comments], as it returns
    them. *)
Definition discovered (globalId : Z) (type : TargetType)
           (comments : list (ComponentCommentOf type)) : list (DescriptorOf type) * Z :=
  (Array_sort (fun a b => (orderingKey type a - orderingKey type b)%Z)
              (entries globalId type comments),
   globalIdAfter type globalId (List.length comments)).

(** ** Inputs of the examples *)

(** A hub that answers every [StartCircuit] with the same identity. *)
Definition hub (state : HubConnectionState) : HubConnection :=
  {| state := state;
     invokeStartCircuit := fun _ _ _ _ => Return "circuit-1";
     invokeConnectCircuit := fun _ => Return true |}.

(** Markers of the examples. *)
Definition startA : Node :=
  Comment (quoted "Blazor:{'type':'server','sequence':0,'descriptor':'AAA','prerenderId':'A'}").
Definition endA : Node := Comment (quoted "Blazor:{'prerenderId':'A'}").
Definition endB : Node := Comment (quoted "Blazor:{'prerenderId':'B'}").
Definition server2 : Node :=
  Comment (quoted "Blazor:{'type':'server','sequence':2,'descriptor':'BBB'}").
Definition server1 : Node :=
  Comment (quoted "Blazor:{'type':'server','sequence':1,'descriptor':'CCC'}").
Definition counter : Node :=
  Comment (quoted "Blazor:{'type':'webassembly','assembly':'App','typeName':'Counter','parameterValues':'QUJD'}").
Definition clock : Node :=
  Comment (quoted "Blazor:{'type':'webassembly','assembly':'App','typeName':'Clock'}").

(** A document part with two persisted-state comments. *)
Definition withStates : Node :=
  Element "div" [Text "body";
                 Element "p" [Comment "plain"; Comment "Blazor-Component-State:QUJD"];
                 Comment " Blazor-Component-State:REVG"].

(** Three descriptors of one local-execution component. *)
Definition counterDescriptor (id : Z) (start : string) (end_ : option Node)
           (parameterValues : option string) : ComponentDescriptor :=
  WebAssemblyDescriptor
    {| WebAssemblyComponentDescriptor.typeName := "Counter";
       WebAssemblyComponentDescriptor.assembly := "App";
       WebAssemblyComponentDescriptor.parameterDefinitions := None;
       WebAssemblyComponentDescriptor.parameterValues := parameterValues;
       WebAssemblyComponentDescriptor.id := id;
       WebAssemblyComponentDescriptor.start := Comment start;
       WebAssemblyComponentDescriptor.end_ := end_ |}.

(** Markers that fail, and a marker of a prerendered component. *)
Definition noDescriptor : Node := Comment (quoted "Blazor:{'type':'server','sequence':3}").
Definition noType : Node := Comment (quoted "Blazor:{'sequence':3,'descriptor':'DDD'}").
Definition notBase64 : Node :=
  Comment (quoted "Blazor:{'type':'webassembly','assembly':'App','typeName':'Counter','parameterValues':'Q'}").

(** The start marker of a prerendered local-execution component. *)
Definition counterA : Node :=
  Comment (quoted "Blazor:{'type':'webassembly','assembly':'App','typeName':'Counter','prerenderId':'A'}").

(** A second prerendered server component, and the payloads and comments
    of some of the markers. *)
Definition startB : Node :=
  Comment (quoted "Blazor:{'type':'server','sequence':4,'descriptor':'EEE','prerenderId':'B'}").

Definition payloadA : Payload.t :=
  {| Payload.type := Some "server"; Payload.prerenderId := Some "A";
     Payload.sequence := Some (Integer 0); Payload.descriptor := Some "AAA";
     Payload.typeName := None; Payload.assembly := None;
     Payload.parameterDefinitions := None;
     Payload.parameterValues := None; Payload.otherKeys := 0 |}.

Definition payloadB : Payload.t :=
  {| Payload.type := Some "server"; Payload.prerenderId := Some "B";
     Payload.sequence := Some (Integer 4); Payload.descriptor := Some "EEE";
     Payload.typeName := None; Payload.assembly := None;
     Payload.parameterDefinitions := None;
     Payload.parameterValues := None; Payload.otherKeys := 0 |}.

Definition endPayload (id : string) : Payload.t :=
  {| Payload.type := None; Payload.prerenderId := Some id;
     Payload.sequence := None; Payload.descriptor := None;
     Payload.typeName := None; Payload.assembly := None;
     Payload.parameterDefinitions := None;
     Payload.parameterValues := None; Payload.otherKeys := 0 |}.

Definition serverCommentOf (start : Node) (end_ : option Node) (sequence : Z)
           (descriptor : string) (prerenderId : option string) : ServerComponentComment.t :=
  {| ServerComponentComment.sequence := sequence;
     ServerComponentComment.descriptor := descriptor;
     ServerComponentComment.start := start;
     ServerComponentComment.prerenderId := prerenderId;
     ServerComponentComment.end_ := end_ |}.

(** * Properties *)

(** ** Descriptor merge *)

Lemma String_eqb_refl_true (s : string) : String.eqb s s = true.
Proof. apply String.eqb_refl. Qed.

Lemma merge_server_server (e i : ServerComponentDescriptor.t) :
  merge (ServerDescriptor e) (ServerDescriptor i)
  = (Return tt,
     ServerDescriptor
       {| ServerComponentDescriptor.start := ServerComponentDescriptor.start e;
          ServerComponentDescriptor.end_ := ServerComponentDescriptor.end_ i;
          ServerComponentDescriptor.sequence := ServerComponentDescriptor.sequence i;
          ServerComponentDescriptor.descriptor := ServerComponentDescriptor.descriptor i |}).
Proof. reflexivity. Qed.

Lemma merge_webassembly_webassembly (e i : WebAssemblyComponentDescriptor.t) :
  sameComponent e i ->
  merge (WebAssemblyDescriptor e) (WebAssemblyDescriptor i)
  = (Return tt,
     WebAssemblyDescriptor
       {| WebAssemblyComponentDescriptor.typeName := WebAssemblyComponentDescriptor.typeName e;
          WebAssemblyComponentDescriptor.assembly := WebAssemblyComponentDescriptor.assembly e;
          WebAssemblyComponentDescriptor.parameterDefinitions :=
            WebAssemblyComponentDescriptor.parameterDefinitions i;
          WebAssemblyComponentDescriptor.parameterValues :=
            WebAssemblyComponentDescriptor.parameterValues i;
          WebAssemblyComponentDescriptor.id := WebAssemblyComponentDescriptor.id i;
          WebAssemblyComponentDescriptor.start := WebAssemblyComponentDescriptor.start e;
          WebAssemblyComponentDescriptor.end_ := WebAssemblyComponentDescriptor.end_ e |}).
Proof.
  intros [Hassembly HtypeName].
  unfold merge, WebAssemblyComponentDescriptor_merge.
  rewrite HtypeName, Hassembly, !String_eqb_refl_true. reflexivity.
Qed.

(** C1, as the specification states it, fails: merging two local-execution
    descriptors of one component leaves [end] of the existing one as it was,
    here [undefined], where the incoming one has an end marker. *)
Lemma merge_webassembly_keeps_end_counterexample :
  let existing :=
    {| WebAssemblyComponentDescriptor.typeName := "Counter";
       WebAssemblyComponentDescriptor.assembly := "App";
       WebAssemblyComponentDescriptor.parameterDefinitions := None;
       WebAssemblyComponentDescriptor.parameterValues := None;
       WebAssemblyComponentDescriptor.id := 1;
       WebAssemblyComponentDescriptor.start := Comment "start";
       WebAssemblyComponentDescriptor.end_ := None |} in
  let incoming :=
    {| WebAssemblyComponentDescriptor.typeName := "Counter";
       WebAssemblyComponentDescriptor.assembly := "App";
       WebAssemblyComponentDescriptor.parameterDefinitions := None;
       WebAssemblyComponentDescriptor.parameterValues := None;
       WebAssemblyComponentDescriptor.id := 2;
       WebAssemblyComponentDescriptor.start := Comment "start again";
       WebAssemblyComponentDescriptor.end_ := Some (Comment "end") |} in
  ComponentDescriptor_type (WebAssemblyDescriptor existing)
  = ComponentDescriptor_type (WebAssemblyDescriptor incoming)
  /\ compatible (WebAssemblyDescriptor existing) (WebAssemblyDescriptor incoming)
  /\ fst (merge (WebAssemblyDescriptor existing) (WebAssemblyDescriptor incoming)) = Return tt
  /\ end_of (snd (merge (WebAssemblyDescriptor existing) (WebAssemblyDescriptor incoming)))
     <> end_of (WebAssemblyDescriptor incoming).
Proof.
  cbv zeta. repeat split; discriminate.
Qed.

(** C1, amended.  Merging an incoming descriptor into an existing one of the
    same type (and, for local-execution descriptors, of the same assembly and
    typeName) succeeds and mutates the existing one: a server descriptor
    takes [end], [sequence] and [descriptor] of the incoming one; a
    local-execution descriptor takes [id], [parameterDefinitions] and
    [parameterValues] of the incoming one and keeps its own [end]; in both
    cases [start] (and, for local execution, [assembly] and [typeName]) stay
    those of the existing one. *)
Theorem merge_adopts_payload_and_keeps_start (existing incoming : ComponentDescriptor) :
  compatible existing incoming ->
  let merged := snd (merge existing incoming) in
  fst (merge existing incoming) = Return tt
  /\ start_of merged = start_of existing
  /\ getUniqueId merged = getUniqueId incoming
  /\ match existing, incoming, merged with
     | ServerDescriptor _, ServerDescriptor i, ServerDescriptor m =>
         ServerComponentDescriptor.end_ m = ServerComponentDescriptor.end_ i
         /\ ServerComponentDescriptor.sequence m = ServerComponentDescriptor.sequence i
         /\ ServerComponentDescriptor.descriptor m = ServerComponentDescriptor.descriptor i
     | WebAssemblyDescriptor e, WebAssemblyDescriptor i, WebAssemblyDescriptor m =>
         WebAssemblyComponentDescriptor.end_ m = WebAssemblyComponentDescriptor.end_ e
         /\ WebAssemblyComponentDescriptor.id m = WebAssemblyComponentDescriptor.id i
         /\ WebAssemblyComponentDescriptor.parameterDefinitions m
            = WebAssemblyComponentDescriptor.parameterDefinitions i
         /\ WebAssemblyComponentDescriptor.parameterValues m
            = WebAssemblyComponentDescriptor.parameterValues i
         /\ WebAssemblyComponentDescriptor.assembly m = WebAssemblyComponentDescriptor.assembly e
         /\ WebAssemblyComponentDescriptor.typeName m = WebAssemblyComponentDescriptor.typeName e
     | _, _, _ => False
     end.
Proof.
  destruct existing as [e | e], incoming as [i | i]; intros Hcompatible;
    try contradiction.
  - rewrite merge_server_server. simpl. repeat split.
  - rewrite (merge_webassembly_webassembly e i Hcompatible). simpl. repeat split.
Qed.

Lemma merge_adopts_payload_and_keeps_start_witness :
  let existing :=
    WebAssemblyDescriptor
      {| WebAssemblyComponentDescriptor.typeName := "Counter";
         WebAssemblyComponentDescriptor.assembly := "App";
         WebAssemblyComponentDescriptor.parameterDefinitions := None;
         WebAssemblyComponentDescriptor.parameterValues := Some "old";
         WebAssemblyComponentDescriptor.id := 1;
         WebAssemblyComponentDescriptor.start := Comment "start";
         WebAssemblyComponentDescriptor.end_ := None |} in
  let incoming :=
    WebAssemblyDescriptor
      {| WebAssemblyComponentDescriptor.typeName := "Counter";
         WebAssemblyComponentDescriptor.assembly := "App";
         WebAssemblyComponentDescriptor.parameterDefinitions := Some "defs";
         WebAssemblyComponentDescriptor.parameterValues := Some "new";
         WebAssemblyComponentDescriptor.id := 7;
         WebAssemblyComponentDescriptor.start := Comment "start again";
         WebAssemblyComponentDescriptor.end_ := Some (Comment "end") |} in
  fst (merge existing incoming) = Return tt
  /\ start_of (snd (merge existing incoming)) = Comment "start"
  /\ getUniqueId (snd (merge existing incoming)) = 7%Z.
Proof.
  cbv zeta.
  match goal with
  | |- fst (merge ?e ?i) = _ /\ _ =>
      assert (Hcompatible : compatible e i) by (split; reflexivity);
      destruct (merge_adopts_payload_and_keeps_start e i Hcompatible)
        as (Hok & Hstart & Hid & _)
  end.
  split; [exact Hok | split; [exact Hstart | exact Hid]].
Defined.

(** The types of two descriptors differ exactly when they are of different
    classes. *)
Lemma compatible_iff (existing incoming : ComponentDescriptor) :
  compatible existing incoming
  <-> ComponentDescriptor_type existing = ComponentDescriptor_type incoming
      /\ (forall e i, existing = WebAssemblyDescriptor e -> incoming = WebAssemblyDescriptor i ->
                      WebAssemblyComponentDescriptor.assembly e
                      = WebAssemblyComponentDescriptor.assembly i
                      /\ WebAssemblyComponentDescriptor.typeName e
                         = WebAssemblyComponentDescriptor.typeName i).
Proof.
  destruct existing as [e | e], incoming as [i | i]; simpl; split.
  - intros _. split; [reflexivity | intros ? ? H; discriminate H].
  - intros _. exact I.
  - intros [].
  - intros [H _]. discriminate H.
  - intros [].
  - intros [H _]. discriminate H.
  - intros Hsame. split; [reflexivity |].
    intros e' i' He Hi. injection He as <-. injection Hi as <-. exact Hsame.
  - intros [_ H]. exact (H e i eq_refl eq_refl).
Qed.

(** C7.  Merging descriptors of different types, or local-execution
    descriptors that differ in assembly or typeName, throws one of the three
    incompatible-merge errors, and the existing descriptor is as it was. *)
Theorem merge_incompatible_throws (existing incoming : ComponentDescriptor) :
  ~ compatible existing incoming ->
  exists e, merge existing incoming = (Throw e, existing) /\ isIncompatibleMerge e.
Proof.
  destruct existing as [e | e], incoming as [i | i]; simpl; intros Hincompatible.
  - exfalso. apply Hincompatible. exact I.
  - exists MergeDifferingTypes. split; [reflexivity | exact I].
  - exists MergeDifferingTypes. split; [reflexivity | exact I].
  - unfold WebAssemblyComponentDescriptor_merge.
    destruct (String.eqb_spec (WebAssemblyComponentDescriptor.typeName e)
                              (WebAssemblyComponentDescriptor.typeName i)) as [HtypeName | HtypeName];
      simpl.
    + destruct (String.eqb_spec (WebAssemblyComponentDescriptor.assembly e)
                                (WebAssemblyComponentDescriptor.assembly i)) as [Hassembly | Hassembly];
        simpl.
      * exfalso. apply Hincompatible. split; assumption.
      * eexists. split; [reflexivity | exact I].
    + eexists. split; [reflexivity | exact I].
Qed.

Lemma merge_incompatible_throws_witness :
  let existing :=
    WebAssemblyDescriptor
      {| WebAssemblyComponentDescriptor.typeName := "Counter";
         WebAssemblyComponentDescriptor.assembly := "App";
         WebAssemblyComponentDescriptor.parameterDefinitions := None;
         WebAssemblyComponentDescriptor.parameterValues := None;
         WebAssemblyComponentDescriptor.id := 1;
         WebAssemblyComponentDescriptor.start := Comment "start";
         WebAssemblyComponentDescriptor.end_ := None |} in
  let incoming :=
    WebAssemblyDescriptor
      {| WebAssemblyComponentDescriptor.typeName := "Clock";
         WebAssemblyComponentDescriptor.assembly := "App";
         WebAssemblyComponentDescriptor.parameterDefinitions := None;
         WebAssemblyComponentDescriptor.parameterValues := None;
         WebAssemblyComponentDescriptor.id := 2;
         WebAssemblyComponentDescriptor.start := Comment "other";
         WebAssemblyComponentDescriptor.end_ := None |} in
  exists e, merge existing incoming = (Throw e, existing) /\ isIncompatibleMerge e.
Proof.
  cbv zeta.
  apply merge_incompatible_throws.
  simpl. intros [_ HtypeName]. simpl in HtypeName. discriminate HtypeName.
Defined.

(** A descriptor made by the constructor of the local-execution class has no
    end marker, whatever [end] it was given. *)
Lemma WebAssemblyComponentDescriptor_new_end globalId start end_ assembly typeName
      parameterDefinitions parameterValues :
  WebAssemblyComponentDescriptor.end_
    (fst (WebAssemblyComponentDescriptor.new globalId start end_ assembly typeName
                                             parameterDefinitions parameterValues))
  = None.
Proof. reflexivity. Qed.

(** ** The circuit descriptor *)

Section CircuitProperties.
Variable RootComponentManager : Type.
Variable getBaseURI getLocationHref : string.
Variable componentsToJson : list ServerComponentDescriptor.t -> string.

Local Abbreviation Circuit := (CircuitDescriptor RootComponentManager).
Local Abbreviation init := (@initialize RootComponentManager).
Local Abbreviation start :=
  (startCircuit RootComponentManager getBaseURI getLocationHref componentsToJson).

Lemma initialize_unset (this : Circuit) (id : string) :
  ~ isSet (circuitId _ this) ->
  init this id = (Return tt, set_circuitId _ this (Some id)).
Proof.
  unfold isSet, truthy, initialize. intros Hunset.
  destruct (circuitId _ this) as [current |]; [| reflexivity].
  destruct (Text.isEmpty current); [reflexivity |].
  exfalso. apply Hunset. reflexivity.
Qed.

Lemma initialize_set (this : Circuit) (id : string) :
  isSet (circuitId _ this) ->
  exists current, circuitId _ this = Some current
                  /\ init this id = (Throw (CircuitAlreadyInitialized current), this).
Proof.
  unfold isSet, truthy, initialize. intros Hset.
  destruct (circuitId _ this) as [current |]; [| discriminate Hset].
  exists current. split; [reflexivity |].
  destruct (Text.isEmpty current); [discriminate Hset | reflexivity].
Qed.

(** C3, amended.  [initialize(id)] succeeds when [circuitId] is unset
    (undefined or empty) and then sets it to [id].  Once [circuitId] holds a
    non-empty identity, every call of [initialize] throws and leaves the
    descriptor as it is; so after a first call with a non-empty [id], every
    second call fails and the identity is the one first assigned. *)
Theorem initialize_succeeds_once (this : Circuit) (id id' : string) :
  ~ isSet (circuitId _ this) ->
  id <> EmptyString ->
  let once := snd (init this id) in
  fst (init this id) = Return tt
  /\ circuitId _ once = Some id
  /\ init once id' = (Throw (CircuitAlreadyInitialized id), once).
Proof.
  intros Hunset Hid. cbv zeta.
  rewrite (initialize_unset this id Hunset). simpl.
  split; [reflexivity | split; [reflexivity |]].
  destruct (initialize_set (set_circuitId _ this (Some id)) id') as (current & Hcurrent & Hthrow).
  - unfold isSet. simpl. destruct id; [contradiction | reflexivity].
  - simpl in Hcurrent. injection Hcurrent as <-. exact Hthrow.
Qed.

(** C6.  On a connection whose state is not [Connected], [startCircuit]
    resolves to [false], leaves the descriptor as it is (so an unset
    [circuitId] stays unset) and invokes nothing on the connection. *)
Theorem startCircuit_not_connected (this : Circuit) (connection : HubConnection) :
  state connection <> Connected ->
  start this connection = (Return false, this, [])
  /\ (circuitId _ this = None -> circuitId _ (snd (fst (start this connection))) = None).
Proof.
  intros Hstate.
  assert (Hreturn : start this connection = (Return false, this, [])).
  { unfold startCircuit.
    destruct (state connection); try reflexivity. contradiction. }
  split; [exact Hreturn |].
  rewrite Hreturn. simpl. intros Hunset. exact Hunset.
Qed.

End CircuitProperties.

(** C3, as the specification states it, fails: a first [initialize] with
    the empty string succeeds and leaves the descriptor one that the test
    of [initialize] takes for uninitialized, so a second call succeeds as
    well and assigns the identity again. *)
Lemma initialize_twice_counterexample :
  let fresh := CircuitDescriptor_new unit (inl []) "state" in
  let once := snd (initialize unit fresh EmptyString) in
  let twice := snd (initialize unit once "circuit-2") in
  fst (initialize unit fresh EmptyString) = Return tt
  /\ circuitId _ once = Some EmptyString
  /\ fst (initialize unit once "circuit-2") = Return tt
  /\ circuitId _ twice = Some "circuit-2".
Proof. cbv zeta. repeat split. Qed.

Lemma initialize_succeeds_once_witness :
  let this := CircuitDescriptor_new unit (inl []) "state" in
  fst (initialize unit this "circuit-1") = Return tt
  /\ circuitId _ (snd (initialize unit this "circuit-1")) = Some "circuit-1"
  /\ initialize unit (snd (initialize unit this "circuit-1")) "circuit-2"
     = (Throw (CircuitAlreadyInitialized "circuit-1"), snd (initialize unit this "circuit-1")).
Proof.
  cbv zeta.
  apply (initialize_succeeds_once unit (CircuitDescriptor_new unit (inl []) "state")
                                  "circuit-1" "circuit-2").
  - unfold isSet. simpl. discriminate.
  - discriminate.
Defined.

Lemma startCircuit_not_connected_witness :
  let this := CircuitDescriptor_new unit (inl []) "state" in
  startCircuit unit "https://host/" "https://host/page" (fun _ => "[]") this (hub Reconnecting)
  = (Return false, this, [])
  /\ (circuitId _ this = None ->
      circuitId _ (snd (fst (startCircuit unit "https://host/" "https://host/page"
                                          (fun _ => "[]") this (hub Reconnecting)))) = None).
Proof.
  cbv zeta.
  apply (startCircuit_not_connected unit "https://host/" "https://host/page" (fun _ => "[]")
                                    (CircuitDescriptor_new unit (inl []) "state")
                                    (hub Reconnecting)).
  simpl. discriminate.
Defined.

(** On a connected hub the same call invokes [StartCircuit] once and
    initializes the descriptor with the answer. *)
Example startCircuit_connected :
  let this := CircuitDescriptor_new unit (inl []) "state" in
  startCircuit unit "https://host/" "https://host/page" (fun _ => "[]") this (hub Connected)
  = (Return true, set_circuitId _ this (Some "circuit-1"),
     [StartCircuit "https://host/" "https://host/page" "[]" "state"]).
Proof. reflexivity. Qed.

(** ** The boot orchestrator *)

Section BootProperties.
Variable Descriptor : Type.
Variable Descriptor_type : Descriptor -> ComponentType.
Variables SsrStartOptions CircuitStartOptions WebAssemblyStartOptions : Type.
Variable disableDomPreservation : SsrStartOptions -> option bool.

Local Abbreviation Module_ :=
  (Module_ Descriptor SsrStartOptions CircuitStartOptions WebAssemblyStartOptions).
Local Abbreviation Event :=
  (Event Descriptor SsrStartOptions CircuitStartOptions WebAssemblyStartOptions).
Local Abbreviation Options :=
  (WebStartOptions SsrStartOptions CircuitStartOptions WebAssemblyStartOptions).
Local Abbreviation register := (registerComponentDescriptor Descriptor Descriptor_type
                                  SsrStartOptions CircuitStartOptions WebAssemblyStartOptions).
Local Abbreviation boot' := (boot Descriptor Descriptor_type SsrStartOptions CircuitStartOptions
                                  WebAssemblyStartOptions disableDomPreservation).
Local Abbreviation step' := (step Descriptor Descriptor_type SsrStartOptions CircuitStartOptions
                                  WebAssemblyStartOptions disableDomPreservation).
Local Abbreviation run' := (run Descriptor Descriptor_type SsrStartOptions CircuitStartOptions
                                WebAssemblyStartOptions disableDomPreservation).
Local Abbreviation loaded' :=
  (loaded Descriptor SsrStartOptions CircuitStartOptions WebAssemblyStartOptions).
Local Abbreviation Call :=
  (Call Descriptor SsrStartOptions CircuitStartOptions WebAssemblyStartOptions).

Lemma count_snoc (p : Call -> bool) (l : list Call) (c : Call) :
  count p (l ++ [c]) = count p l + (if p c then 1 else 0).
Proof.
  unfold count. rewrite filter_app, length_app. simpl.
  destruct (p c); reflexivity.
Qed.

Ltac unfold_boot :=
  unfold startCircuitIfNotStarted, startLoadingWebAssembly, startWebAssemblyIfNotStarted,
    handleUpdatedDescriptors, continue, beforeEnhancedNavigation, afterDocumentUpdated,
    afterEnhancedNavigation, autoModeResolver, await, call, set_hasCircuitStarted,
    set_hasStartedLoadingWebAssembly, set_isStartingWebAssembly, set_hasWebAssemblyLoaded,
    set_isPerformingEnhancedNavigation, set_awaiting, set_started in *.

Lemma guarded_loaded : guarded loaded'.
Proof. repeat split. Qed.

Lemma guarded_call (m : Module_) (c : Call) :
  isLoad c = false -> isStartWebAssembly c = false -> isStartCircuit c = false ->
  guarded m -> guarded (call _ _ _ _ c m).
Proof.
  intros Hload Hwasm Hcircuit (H1 & H2 & H3). unfold guarded. simpl.
  rewrite !count_snoc, Hload, Hwasm, Hcircuit. lia.
Qed.

Lemma guarded_startCircuitIfNotStarted (m : Module_) :
  guarded m -> guarded (startCircuitIfNotStarted _ _ _ _ m).
Proof.
  intros (H1 & H2 & H3). unfold_boot.
  destruct (hasCircuitStarted _ _ _ _ m) eqn:Hflag.
  - unfold guarded. rewrite Hflag. auto.
  - unfold guarded, once in *. simpl. rewrite !count_snoc. simpl. lia.
Qed.

Lemma guarded_startLoadingWebAssembly (m : Module_) :
  guarded m -> guarded (startLoadingWebAssembly _ _ _ _ m).
Proof.
  intros (H1 & H2 & H3). unfold_boot.
  destruct (hasStartedLoadingWebAssembly _ _ _ _ m) eqn:Hflag.
  - unfold guarded. rewrite Hflag. auto.
  - unfold guarded, once in *. simpl. rewrite !count_snoc. simpl. lia.
Qed.

Lemma guarded_startWebAssemblyIfNotStarted (m : Module_) :
  guarded m -> guarded (startWebAssemblyIfNotStarted _ _ _ _ m).
Proof.
  intros (H1 & H2 & H3). unfold_boot.
  destruct (isStartingWebAssembly _ _ _ _ m) eqn:Hflag.
  - unfold guarded. rewrite Hflag. auto.
  - unfold guarded, once in *. simpl. rewrite !count_snoc. simpl. lia.
Qed.

Lemma guarded_handleUpdatedDescriptors (m : Module_) :
  guarded m -> guarded (handleUpdatedDescriptors _ _ _ _ m).
Proof. intros H. apply guarded_call; auto. Qed.

Lemma guarded_register (d : Descriptor) (m : Module_) :
  guarded m -> guarded (register d m).
Proof.
  intros H. unfold registerComponentDescriptor.
  assert (H' : guarded (call _ _ _ _ (rootComponentManager_registerComponentDescriptor _ _ _ _ d) m))
    by (apply guarded_call; auto).
  destruct (Descriptor_type d).
  - apply guarded_startCircuitIfNotStarted, H'.
  - apply guarded_startWebAssemblyIfNotStarted, H'.
  - apply guarded_startLoadingWebAssembly, H'.
Qed.

Lemma guarded_registers (found : list Descriptor) (m : Module_) :
  guarded m -> guarded (fold_left (fun m d => register d m) found m).
Proof.
  revert m. induction found as [| d found IH]; intros m H; simpl.
  - exact H.
  - apply IH, guarded_register, H.
Qed.

Lemma guarded_boot (options : option Options) (found : list Descriptor) (m : Module_) :
  guarded m -> guarded (snd (boot' options found m)).
Proof.
  intros H. unfold boot.
  destruct (started _ _ _ _ m); [exact H |].
  simpl. apply guarded_registers.
  apply guarded_call; auto.
  assert (H0 : guarded (set_started _ _ _ _ true options m)) by exact H.
  assert (H1 : guarded (call _ _ _ _ (attachAutoModeResolver _ _ _ _)
                          (call _ _ _ _ (attachStreamingRenderingListener _ _ _ _ (field _ _ _ options (ssr _ _ _)))
                             (call _ _ _ _ (attachComponentDescriptorHandler _ _ _ _)
                                (set_started _ _ _ _ true options m)))))
    by (repeat (apply guarded_call; auto)).
  destruct (field _ _ _ options (ssr _ _ _)) as [ssrOptions |].
  - destruct (disableDomPreservation ssrOptions) as [[|] |].
    + exact H1.
    + apply guarded_call; auto.
    + apply guarded_call; auto.
  - apply guarded_call; auto.
Qed.

Lemma guarded_step (m : Module_) (e : Event) : guarded m -> guarded (step' m e).
Proof.
  intros H. destruct e as [options found | d | | | | | k | k]; simpl.
  - apply guarded_boot, H.
  - apply guarded_register, H.
  - unfold autoModeResolver. destruct (hasWebAssemblyLoaded _ _ _ _ m); simpl.
    + apply guarded_startWebAssemblyIfNotStarted, H.
    + apply guarded_startCircuitIfNotStarted, H.
  - exact H.
  - apply guarded_handleUpdatedDescriptors, H.
  - apply guarded_handleUpdatedDescriptors. exact H.
  - destruct (remove_first k (awaiting _ _ _ _ m)) as [rest |]; [| exact H].
    assert (H' : guarded (set_awaiting _ _ _ _ rest m)) by exact H.
    destruct k; simpl.
    + apply guarded_handleUpdatedDescriptors, H'.
    + exact H'.
    + apply guarded_handleUpdatedDescriptors. exact H'.
  - destruct (remove_first k (awaiting _ _ _ _ m)) as [rest |]; exact H.
Qed.

Lemma guarded_run (events : list Event) (m : Module_) : guarded m -> guarded (run' m events).
Proof.
  revert m. induction events as [| e events IH]; intros m H; simpl.
  - exact H.
  - apply IH, guarded_step, H.
Qed.

Lemma advances_refl (m : Module_) : advances m m.
Proof. repeat split; auto. exists []. rewrite app_nil_r. reflexivity. Qed.

Lemma advances_trans (m1 m2 m3 : Module_) : advances m1 m2 -> advances m2 m3 -> advances m1 m3.
Proof.
  intros (A1 & A2 & A3 & A4 & more & A5) (B1 & B2 & B3 & B4 & more' & B5).
  repeat split; auto.
  exists (more ++ more'). rewrite B5, A5, app_assoc. reflexivity.
Qed.

Ltac advance :=
  unfold advances; simpl;
  repeat split; auto; try discriminate;
  try (eexists; rewrite <- ?app_assoc; reflexivity);
  try (exists []; rewrite app_nil_r; reflexivity).

Lemma advances_call (m : Module_) (c : Call) : advances m (call _ _ _ _ c m).
Proof. advance. Qed.

Lemma advances_startCircuitIfNotStarted (m : Module_) :
  advances m (startCircuitIfNotStarted _ _ _ _ m)
  /\ hasCircuitStarted _ _ _ _ (startCircuitIfNotStarted _ _ _ _ m) = true.
Proof.
  unfold startCircuitIfNotStarted.
  destruct (hasCircuitStarted _ _ _ _ m) eqn:Hflag.
  - split; [apply advances_refl | exact Hflag].
  - split; [advance | reflexivity].
Qed.

Lemma advances_startLoadingWebAssembly (m : Module_) :
  advances m (startLoadingWebAssembly _ _ _ _ m)
  /\ hasStartedLoadingWebAssembly _ _ _ _ (startLoadingWebAssembly _ _ _ _ m) = true.
Proof.
  unfold startLoadingWebAssembly.
  destruct (hasStartedLoadingWebAssembly _ _ _ _ m) eqn:Hflag.
  - split; [apply advances_refl | exact Hflag].
  - split; [advance | reflexivity].
Qed.

Lemma advances_startWebAssemblyIfNotStarted (m : Module_) :
  advances m (startWebAssemblyIfNotStarted _ _ _ _ m)
  /\ isStartingWebAssembly _ _ _ _ (startWebAssemblyIfNotStarted _ _ _ _ m) = true.
Proof.
  unfold startWebAssemblyIfNotStarted.
  destruct (isStartingWebAssembly _ _ _ _ m) eqn:Hflag.
  - split; [apply advances_refl | exact Hflag].
  - split; [advance | reflexivity].
Qed.

Lemma advances_register (d : Descriptor) (m : Module_) : advances m (register d m).
Proof.
  unfold registerComponentDescriptor.
  eapply advances_trans; [apply advances_call |].
  destruct (Descriptor_type d).
  - apply advances_startCircuitIfNotStarted.
  - apply advances_startWebAssemblyIfNotStarted.
  - apply advances_startLoadingWebAssembly.
Qed.

Lemma advances_registers (found : list Descriptor) (m : Module_) :
  advances m (fold_left (fun m d => register d m) found m).
Proof.
  revert m. induction found as [| d found IH]; intros m; simpl.
  - apply advances_refl.
  - eapply advances_trans; [apply advances_register | apply IH].
Qed.

(** What [boot] has done when it reaches [registerAllComponentDescriptors]. *)
Lemma boot_not_started (options : option Options) (found : list Descriptor) (m : Module_) :
  started _ _ _ _ m = false ->
  exists attached,
    boot' options found m
    = (Return tt,
       fold_left (fun m d => register d m) found
                 (call _ _ _ _ (registerAllComponentDescriptors _ _ _ _) attached))
    /\ started _ _ _ _ attached = true
    /\ webStartOptions _ _ _ _ attached = options
    /\ advances m attached
    /\ exists more,
        calls _ _ _ _ attached
        = calls _ _ _ _ m
          ++ attachComponentDescriptorHandler _ _ _ _
             :: attachStreamingRenderingListener _ _ _ _ (field _ _ _ options (ssr _ _ _))
             :: attachAutoModeResolver _ _ _ _ :: more.
Proof.
  intros Hstarted. unfold boot. rewrite Hstarted.
  eexists. split; [reflexivity |].
  destruct (field _ _ _ options (ssr _ _ _)) as [ssrOptions |];
    [destruct (disableDomPreservation ssrOptions) as [[|] |] |];
    simpl; (split; [reflexivity |]); (split; [reflexivity |]);
    (split; [advance |]); eexists; rewrite <- !app_assoc; simpl; reflexivity.
Qed.

Lemma boot_started (options : option Options) (found : list Descriptor) (m : Module_) :
  started _ _ _ _ m = true -> boot' options found m = (Throw AlreadyStarted, m).
Proof. intros Hstarted. unfold boot. rewrite Hstarted. reflexivity. Qed.

Lemma advances_boot (options : option Options) (found : list Descriptor) (m : Module_) :
  advances m (snd (boot' options found m)).
Proof.
  destruct (started _ _ _ _ m) eqn:Hstarted.
  - rewrite (boot_started options found m Hstarted). apply advances_refl.
  - destruct (boot_not_started options found m Hstarted) as (attached & -> & _ & _ & Hadv & _).
    simpl. eapply advances_trans; [exact Hadv |].
    eapply advances_trans; [apply advances_call | apply advances_registers].
Qed.

Lemma advances_step (m : Module_) (e : Event) : advances m (step' m e).
Proof.
  destruct e as [options found | d | | | | | k | k]; simpl.
  - apply advances_boot.
  - apply advances_register.
  - unfold autoModeResolver. destruct (hasWebAssemblyLoaded _ _ _ _ m); simpl.
    + apply advances_startWebAssemblyIfNotStarted.
    + apply advances_startCircuitIfNotStarted.
  - advance.
  - apply advances_call.
  - unfold afterEnhancedNavigation. advance.
  - destruct (remove_first k (awaiting _ _ _ _ m)) as [rest |]; [| apply advances_refl].
    destruct k; advance.
  - destruct (remove_first k (awaiting _ _ _ _ m)) as [rest |]; [| apply advances_refl].
    advance.
Qed.

Lemma advances_run (events : list Event) (m : Module_) : advances m (run' m events).
Proof.
  revert m. induction events as [| e events IH]; intros m; simpl.
  - apply advances_refl.
  - eapply advances_trans; [apply advances_step | apply IH].
Qed.

Lemma run_app (events events' : list Event) (m : Module_) :
  run' m (events ++ events') = run' (run' m events) events'.
Proof. unfold run. apply fold_left_app. Qed.

(** C9.  Whatever the event loop runs from the loading of the module on,
    each of the three underlying starts is issued at most once; and once a
    local-execution descriptor has been registered, however many follow and
    whatever happens in between, the start of its kind has been issued
    exactly once: [loadWebAssemblyPlatform] for an [auto] descriptor,
    [startWebAssembly] for a [webassembly] one. *)
Theorem runtime_started_at_most_once (events : list Event) (d : Descriptor) :
  In (call_registerComponentDescriptor _ _ _ _ d) events ->
  Descriptor_type d = auto \/ Descriptor_type d = webassembly ->
  let m := run' loaded' events in
  count isLoad (calls _ _ _ _ m) <= 1
  /\ count isStartWebAssembly (calls _ _ _ _ m) <= 1
  /\ count isStartCircuit (calls _ _ _ _ m) <= 1
  /\ (Descriptor_type d = auto -> count isLoad (calls _ _ _ _ m) = 1)
  /\ (Descriptor_type d = webassembly -> count isStartWebAssembly (calls _ _ _ _ m) = 1).
Proof.
  intros Hin _. cbv zeta.
  destruct (guarded_run events loaded' guarded_loaded) as (Hload & Hwasm & Hcircuit).
  rewrite Hload, Hwasm, Hcircuit.
  repeat split.
  - destruct (hasStartedLoadingWebAssembly _ _ _ _ (run' loaded' events)); simpl; lia.
  - destruct (isStartingWebAssembly _ _ _ _ (run' loaded' events)); simpl; lia.
  - destruct (hasCircuitStarted _ _ _ _ (run' loaded' events)); simpl; lia.
  - intros Hauto.
    apply in_split in Hin. destruct Hin as (before & after & ->).
    rewrite run_app. simpl.
    set (m1 := run' loaded' before).
    destruct (advances_run after (register d m1)) as (_ & Hkeep & _).
    unfold registerComponentDescriptor in *. rewrite Hauto in *.
    rewrite Hkeep; [reflexivity | apply advances_startLoadingWebAssembly].
  - intros Hwebassembly.
    apply in_split in Hin. destruct Hin as (before & after & ->).
    rewrite run_app. simpl.
    set (m1 := run' loaded' before).
    destruct (advances_run after (register d m1)) as (_ & _ & Hkeep & _).
    unfold registerComponentDescriptor in *. rewrite Hwebassembly in *.
    rewrite Hkeep; [reflexivity | apply advances_startWebAssemblyIfNotStarted].
Qed.

(** C10.  A call of [boot] on a module that has not started returns, sets
    [started] and runs the initialization (the handlers are attached and the
    descriptors of the document registered); whatever the event loop runs
    afterwards, every later call of [boot] throws and changes nothing, so
    the initialization is not run again. *)
Theorem boot_starts_at_most_once (options options' : option Options)
        (found found' : list Descriptor) (events : list Event) (m : Module_) :
  started _ _ _ _ m = false ->
  let first := boot' options found m in
  let later := run' (snd first) events in
  fst first = Return tt
  /\ started _ _ _ _ (snd first) = true
  /\ (exists between after,
        calls _ _ _ _ (snd first)
        = calls _ _ _ _ m
          ++ attachComponentDescriptorHandler _ _ _ _
             :: attachStreamingRenderingListener _ _ _ _ (field _ _ _ options (ssr _ _ _))
             :: attachAutoModeResolver _ _ _ _
             :: between ++ registerAllComponentDescriptors _ _ _ _ :: after)
  /\ boot' options' found' later = (Throw AlreadyStarted, later).
Proof.
  intros Hstarted. cbv zeta.
  destruct (boot_not_started options found m Hstarted)
    as (attached & Hboot & Hattached & _ & _ & more & Hcalls).
  rewrite Hboot. simpl.
  set (registered := fold_left (fun m d => register d m) found
                               (call _ _ _ _ (registerAllComponentDescriptors _ _ _ _) attached)).
  assert (Hadv : advances (call _ _ _ _ (registerAllComponentDescriptors _ _ _ _) attached)
                          registered) by apply advances_registers.
  assert (Hregistered : started _ _ _ _ registered = true).
  { destruct Hadv as (Hkeep & _). apply Hkeep. exact Hattached. }
  split; [reflexivity | split; [exact Hregistered | split]].
  - destruct Hadv as (_ & _ & _ & _ & after & Hafter).
    exists more, after. rewrite Hafter. simpl. rewrite Hcalls.
    rewrite <- !app_assoc. simpl. reflexivity.
  - apply boot_started.
    destruct (advances_run events registered) as (Hkeep & _). apply Hkeep, Hregistered.
Qed.

End BootProperties.

Lemma runtime_started_at_most_once_witness :
  let register := call_registerComponentDescriptor ComponentType unit unit unit in
  let m := run ComponentType (fun type => type) unit unit unit (fun _ => None)
               (loaded ComponentType unit unit unit)
               [register auto; register auto; register auto] in
  count isLoad (calls _ _ _ _ m) <= 1
  /\ count isStartWebAssembly (calls _ _ _ _ m) <= 1
  /\ count isStartCircuit (calls _ _ _ _ m) <= 1
  /\ (auto = auto -> count isLoad (calls _ _ _ _ m) = 1)
  /\ (auto = webassembly -> count isStartWebAssembly (calls _ _ _ _ m) = 1).
Proof.
  cbv zeta.
  apply (runtime_started_at_most_once
           ComponentType (fun type => type) unit unit unit (fun _ => None)
           [call_registerComponentDescriptor ComponentType unit unit unit auto;
            call_registerComponentDescriptor ComponentType unit unit unit auto;
            call_registerComponentDescriptor ComponentType unit unit unit auto]
           auto).
  - simpl. left. reflexivity.
  - left. reflexivity.
Defined.

(** Three [auto] descriptors and two [webassembly] ones, registered before
    any promise settles: one load and one start. *)
Example five_registrations :
  let register := call_registerComponentDescriptor ComponentType unit unit unit in
  calls _ _ _ _
        (run ComponentType (fun type => type) unit unit unit (fun _ => None)
             (loaded ComponentType unit unit unit)
             [register auto; register webassembly; register auto; register webassembly;
              register auto])
  = [rootComponentManager_registerComponentDescriptor _ _ _ _ auto;
     loadWebAssemblyPlatform _ _ _ _ None;
     rootComponentManager_registerComponentDescriptor _ _ _ _ webassembly;
     startWebAssembly _ _ _ _ None;
     rootComponentManager_registerComponentDescriptor _ _ _ _ auto;
     rootComponentManager_registerComponentDescriptor _ _ _ _ webassembly;
     rootComponentManager_registerComponentDescriptor _ _ _ _ auto].
Proof. reflexivity. Qed.

Lemma boot_starts_at_most_once_witness :
  let boot_ := boot ComponentType (fun type => type) unit unit unit (fun _ => None) in
  let first := boot_ None [server] (loaded ComponentType unit unit unit) in
  let later := run ComponentType (fun type => type) unit unit unit (fun _ => None)
                   (snd first) [fulfilled _ _ _ _ after_startCircuit] in
  fst first = Return tt
  /\ started _ _ _ _ (snd first) = true
  /\ boot_ None [] later = (Throw AlreadyStarted, later).
Proof.
  cbv zeta.
  destruct (boot_starts_at_most_once
              ComponentType (fun type => type) unit unit unit (fun _ => None)
              None None [server] [] [fulfilled _ _ _ _ after_startCircuit]
              (loaded ComponentType unit unit unit) eq_refl)
    as (Hreturn & Hstarted & _ & Hlater).
  split; [exact Hreturn | split; [exact Hstarted | exact Hlater]].
Defined.

(** ** The iterator *)

Lemma skipn_cons {A : Type} (n : nat) (l : list A) (x : A) (rest : list A) :
  skipn n l = x :: rest ->
  nth_error l n = Some x /\ skipn (S n) l = rest /\ n < List.length l.
Proof.
  revert l. induction n as [| n IH]; intros [| y l] H; simpl in *; try discriminate.
  - injection H as -> ->. split; [reflexivity | split; [reflexivity | lia]].
  - destruct (IH l H) as (Hnth & Hskip & Hlt). split; [exact Hnth | split; [exact Hskip | lia]].
Qed.

Lemma skipn_nil {A : Type} (n : nat) (l : list A) :
  skipn n l = [] -> List.length l <= n.
Proof.
  revert l. induction n as [| n IH]; intros [| y l] H; simpl in *;
    try discriminate; try lia.
  specialize (IH l H). lia.
Qed.

Lemma next_cons (iterator : ComponentCommentIterator.t) (x : Node) (rest : list Node) :
  wellFormed iterator ->
  ahead iterator = x :: rest ->
  let iterator' := moved iterator (ComponentCommentIterator.currentIndex iterator + 1) in
  ComponentCommentIterator.next iterator = (true, iterator')
  /\ ComponentCommentIterator.currentElement iterator' = Some x
  /\ ahead iterator' = rest
  /\ wellFormed iterator'.
Proof.
  intros [Hlength Hindex] Hahead. cbv zeta. unfold ahead in Hahead.
  apply skipn_cons in Hahead. destruct Hahead as (Hnth & Hskip & Hlt).
  unfold ComponentCommentIterator.next.
  replace (ComponentCommentIterator.currentIndex iterator + 1
           <? ComponentCommentIterator.length iterator)%Z with true
    by (symmetry; apply Z.ltb_lt; lia).
  repeat split.
  - exact Hnth.
  - unfold ahead, moved. simpl.
    replace (Z.to_nat (ComponentCommentIterator.currentIndex iterator + 1 + 1))
      with (S (Z.to_nat (ComponentCommentIterator.currentIndex iterator + 1))) by lia.
    exact Hskip.
  - exact Hlength.
  - simpl. lia.
Qed.

Lemma next_nil (iterator : ComponentCommentIterator.t) :
  wellFormed iterator ->
  ahead iterator = [] ->
  exists iterator',
    ComponentCommentIterator.next iterator = (false, iterator')
    /\ ComponentCommentIterator.currentElement iterator' = None.
Proof.
  intros [Hlength Hindex] Hahead. unfold ahead in Hahead.
  apply skipn_nil in Hahead.
  unfold ComponentCommentIterator.next.
  replace (ComponentCommentIterator.currentIndex iterator + 1
           <? ComponentCommentIterator.length iterator)%Z with false
    by (symmetry; apply Z.ltb_ge; lia).
  eexists. split; reflexivity.
Qed.

Lemma wellFormed_new (nodes : NodeList) :
  wellFormed (ComponentCommentIterator.new nodes)
  /\ ahead (ComponentCommentIterator.new nodes) = items nodes.
Proof. repeat split. simpl. lia. Qed.

Lemma remaining_ahead (iterator : ComponentCommentIterator.t) :
  wellFormed iterator ->
  ComponentCommentIterator.remaining iterator = List.length (ahead iterator).
Proof.
  intros [Hlength Hindex]. unfold ComponentCommentIterator.remaining, ahead.
  rewrite length_skipn, Hlength. lia.
Qed.

(** ** The search for the end marker *)

Section EndComment.
Variable JSON_parse : string -> option Payload.t.

Local Abbreviation endLoop := (getComponentEndComment_loop JSON_parse).
Local Abbreviation validate := (validateEndComponentPayload JSON_parse).

Lemma isEmpty_spec (s : string) : Text.isEmpty s = true <-> s = EmptyString.
Proof. destruct s; simpl; split; intros H; try reflexivity; discriminate H. Qed.

(** One turn of the loop, on the next sibling. *)
Lemma getComponentEndComment_loop_cons (fuel : nat) (prerenderedId : string)
      (iterator : ComponentCommentIterator.t) (node : Node) (rest : list Node) :
  wellFormed iterator ->
  ahead iterator = node :: rest ->
  let iterator' := moved iterator (ComponentCommentIterator.currentIndex iterator + 1) in
  endLoop (S fuel) prerenderedId iterator
  = match markerJson node with
    | None => endLoop fuel prerenderedId iterator'
    | Some json => let* _ := validate json prerenderedId in Return (Some node, iterator')
    end.
Proof.
  intros Hwf Hahead. cbv zeta.
  destruct (next_cons iterator node rest Hwf Hahead) as (Hnext & Hcurrent & _ & _).
  simpl. rewrite Hnext, Hcurrent.
  destruct node as [text | data | tagName children | children]; simpl; try reflexivity.
  destruct (Text.isEmpty text) eqn:Hempty.
  - apply isEmpty_spec in Hempty. subst text. reflexivity.
  - destruct (Text.blazorCommentRegularExpression text) as [json |]; [| reflexivity].
    destruct (Text.isEmpty json); reflexivity.
Qed.

Lemma getComponentEndComment_loop_nil (fuel : nat) (prerenderedId : string)
      (iterator : ComponentCommentIterator.t) :
  wellFormed iterator ->
  ahead iterator = [] ->
  exists iterator', endLoop (S fuel) prerenderedId iterator = Return (None, iterator').
Proof.
  intros Hwf Hahead.
  destruct (next_nil iterator Hwf Hahead) as (iterator' & Hnext & Hcurrent).
  exists iterator'. simpl. rewrite Hnext. reflexivity.
Qed.

(** The loop passes the siblings that are no marker comments. *)
Lemma getComponentEndComment_loop_skips (skipped : list Node) :
  forall (fuel : nat) (prerenderedId : string) (iterator : ComponentCommentIterator.t)
         (rest : list Node),
    wellFormed iterator ->
    ahead iterator = skipped ++ rest ->
    Forall (fun node => markerJson node = None) skipped ->
    exists iterator',
      endLoop (List.length skipped + fuel) prerenderedId iterator
      = endLoop fuel prerenderedId iterator'
      /\ wellFormed iterator'
      /\ ahead iterator' = rest
      /\ ComponentCommentIterator.childNodes iterator'
         = ComponentCommentIterator.childNodes iterator.
Proof.
  induction skipped as [| node skipped IH];
    intros fuel prerenderedId iterator rest Hwf Hahead Hskipped.
  - exists iterator. simpl. auto.
  - inversion Hskipped as [| ? ? Hnode Hskipped']; subst.
    simpl in Hahead.
    destruct (next_cons iterator node (skipped ++ rest) Hwf Hahead) as (_ & _ & Hahead' & Hwf').
    change (List.length (node :: skipped) + fuel) with (S (List.length skipped + fuel)).
    rewrite (getComponentEndComment_loop_cons _ _ _ _ _ Hwf Hahead), Hnode.
    destruct (IH fuel prerenderedId _ rest Hwf' Hahead' Hskipped')
      as (iterator' & IHloop & IHwf & IHahead & IHnodes).
    exists iterator'. rewrite IHloop. auto.
Qed.

(** With no marker comment among the siblings ahead, the search returns
    [undefined]. *)
Lemma getComponentEndComment_exhausted (prerenderedId : string)
      (iterator : ComponentCommentIterator.t) :
  wellFormed iterator ->
  Forall (fun node => markerJson node = None) (ahead iterator) ->
  exists iterator',
    getComponentEndComment JSON_parse prerenderedId iterator = Return (None, iterator').
Proof.
  intros Hwf Hnone. unfold getComponentEndComment.
  rewrite (remaining_ahead iterator Hwf).
  destruct (getComponentEndComment_loop_skips (ahead iterator) 1 prerenderedId iterator []
                                              Hwf (eq_sym (app_nil_r _)) Hnone)
    as (iterator' & Hloop & Hwf' & Hahead' & _).
  replace (S (List.length (ahead iterator))) with (List.length (ahead iterator) + 1) by lia.
  rewrite Hloop.
  apply getComponentEndComment_loop_nil; assumption.
Qed.

(** At the first marker comment among the siblings ahead, the search ends:
    with that comment if its payload is the end payload of [prerenderedId],
    with what the validation throws otherwise. *)
Lemma getComponentEndComment_first_marker (prerenderedId : string)
      (iterator : ComponentCommentIterator.t) (skipped : list Node) (node : Node)
      (json : string) (rest : list Node) :
  wellFormed iterator ->
  ahead iterator = skipped ++ node :: rest ->
  Forall (fun node => markerJson node = None) skipped ->
  markerJson node = Some json ->
  exists iterator',
    getComponentEndComment JSON_parse prerenderedId iterator
    = (let* _ := validate json prerenderedId in Return (Some node, iterator'))
    /\ wellFormed iterator'
    /\ ahead iterator' = rest
    /\ ComponentCommentIterator.currentElement iterator' = Some node
    /\ ComponentCommentIterator.childNodes iterator'
       = ComponentCommentIterator.childNodes iterator.
Proof.
  intros Hwf Hahead Hskipped Hnode. unfold getComponentEndComment.
  rewrite (remaining_ahead iterator Hwf), Hahead, length_app. simpl List.length.
  destruct (getComponentEndComment_loop_skips
              skipped (S (S (List.length rest))) prerenderedId iterator (node :: rest)
              Hwf Hahead Hskipped)
    as (iterator1 & Hloop & Hwf1 & Hahead1 & Hnodes1).
  replace (S (List.length skipped + S (List.length rest)))
    with (List.length skipped + S (S (List.length rest))) by lia.
  rewrite Hloop, (getComponentEndComment_loop_cons _ _ _ _ _ Hwf1 Hahead1), Hnode.
  destruct (next_cons iterator1 node rest Hwf1 Hahead1) as (_ & Hcurrent & Hahead2 & Hwf2).
  eexists. split; [reflexivity |]. repeat split; try assumption; apply Hwf2.
Qed.

End EndComment.

(** ** Markers and their end markers *)

Section Markers.
Variable JSON_parse : string -> option Payload.t.

Local Abbreviation validate := (validateEndComponentPayload JSON_parse).
Local Abbreviation resolveLoop := (resolveComponentComments_loop JSON_parse).

Lemma markerJson_comment (text json : string) :
  markerJson (Comment text) = Some json ->
  Text.isEmpty text = false
  /\ Text.blazorCommentRegularExpression text = Some json
  /\ Text.isEmpty json = false.
Proof.
  simpl. intros H.
  destruct (Text.isEmpty text) eqn:Htext.
  - apply isEmpty_spec in Htext. subst text. discriminate H.
  - destruct (Text.blazorCommentRegularExpression text) as [json' |]; [| discriminate H].
    destruct (Text.isEmpty json') eqn:Hjson; [discriminate H |].
    injection H as ->. auto.
Qed.

Lemma validate_other_id (json prerenderedId : string) (payload : Payload.t) (endId : string) :
  JSON_parse json = Some payload ->
  Payload.prerenderId payload = Some endId ->
  endId <> prerenderedId ->
  exists e, validate json prerenderedId = Throw e
            /\ (Payload.keysLength payload = 1 -> endId <> EmptyString ->
                e = EndCommentMismatch prerenderedId endId).
Proof.
  intros Hparse HendId Hother.
  unfold validateEndComponentPayload, parse. rewrite Hparse. simpl.
  destruct (Nat.eqb_spec (Payload.keysLength payload) 1) as [Hkeys | Hkeys]; simpl.
  - rewrite HendId.
    destruct (Text.isEmpty endId) eqn:Hempty.
    + eexists. split; [reflexivity |]. intros _ Hne. apply isEmpty_spec in Hempty. contradiction.
    + destruct (String.eqb_spec endId prerenderedId) as [Heq | Hneq]; [contradiction |].
      simpl. eexists. split; reflexivity.
  - eexists. split; [reflexivity |]. intros Hone. contradiction.
Qed.

Lemma validate_same_id (json prerenderedId : string) (payload : Payload.t) :
  JSON_parse json = Some payload ->
  Payload.keysLength payload = 1 ->
  Payload.prerenderId payload = Some prerenderedId ->
  prerenderedId <> EmptyString ->
  validate json prerenderedId = Return tt.
Proof.
  intros Hparse Hkeys Hid Hne.
  unfold validateEndComponentPayload, parse. rewrite Hparse. simpl.
  assert (Hempty : Text.isEmpty prerenderedId = false)
    by (destruct prerenderedId; [contradiction | reflexivity]).
  rewrite Hkeys, Hid. cbn [Nat.eqb negb]. rewrite Hempty, String_eqb_refl_true. reflexivity.
Qed.

Lemma getComponentComment_no_marker (iterator : ComponentCommentIterator.t)
      (type : TargetType) (node : Node) :
  ComponentCommentIterator.currentElement iterator = Some node ->
  markerJson node = None ->
  getComponentComment JSON_parse iterator type = Return (None, iterator).
Proof.
  intros Hcurrent Hnode. unfold getComponentComment. rewrite Hcurrent.
  destruct node as [text | data | tagName children | children]; simpl; try reflexivity.
  simpl in Hnode.
  destruct (Text.isEmpty text); [reflexivity |].
  destruct (Text.blazorCommentRegularExpression text) as [json |]; [| reflexivity].
  destruct (Text.isEmpty json); [reflexivity | discriminate Hnode].
Qed.

Lemma getComponentComment_marker (iterator : ComponentCommentIterator.t)
      (type : TargetType) (text json : string) :
  ComponentCommentIterator.currentElement iterator = Some (Comment text) ->
  markerJson (Comment text) = Some json ->
  Node.isDocument (parentNode (ComponentCommentIterator.childNodes iterator)) = false ->
  getComponentComment JSON_parse iterator type
  = try_catch_rethrow
      (let* componentComment := parseCommentPayload JSON_parse json in
       match type return result (option (ComponentCommentOf type) * ComponentCommentIterator.t) with
       | target_webassembly =>
           createWebAssemblyComponentComment JSON_parse componentComment (Comment text) iterator
       | target_server =>
           createServerComponentComment JSON_parse componentComment (Comment text) iterator
       end)
      (MalformedComponentComment text).
Proof.
  intros Hcurrent Hmarker Hparent.
  destruct (markerJson_comment text json Hmarker) as (Htext & Hregex & Hjson).
  unfold getComponentComment. rewrite Hcurrent. simpl.
  rewrite Htext, Hregex, Hjson.
  unfold assertNotDirectlyOnDocument. rewrite Hparent. reflexivity.
Qed.

Lemma parseCommentPayload_valid (json : string) (payload : Payload.t) :
  JSON_parse json = Some payload ->
  Payload.type payload = Some "server" \/ Payload.type payload = Some "webassembly" ->
  parseCommentPayload JSON_parse json = Return payload.
Proof.
  intros Hparse Htype. unfold parseCommentPayload, parse. rewrite Hparse. simpl.
  destruct Htype as [-> | ->]; reflexivity.
Qed.

(** Both [create...Comment] functions throw what the search for the end
    marker throws, and the unterminated-marker error if the search returns
    [undefined]. *)
Lemma create_without_end (payload : Payload.t) (start : Node)
      (iterator : ComponentCommentIterator.t) (id : string) :
  Payload.prerenderId payload = Some id ->
  id <> EmptyString ->
  (forall e, getComponentEndComment JSON_parse id iterator = Throw e ->
             createServerComponentComment JSON_parse payload start iterator = Throw e
             /\ createWebAssemblyComponentComment JSON_parse payload start iterator = Throw e)
  /\ (forall iterator', getComponentEndComment JSON_parse id iterator = Return (None, iterator') ->
             createServerComponentComment JSON_parse payload start iterator
             = Throw (NoEndComponentComment (Node.textContent start))
             /\ createWebAssemblyComponentComment JSON_parse payload start iterator
                = Throw (NoEndComponentComment (Node.textContent start))).
Proof.
  intros Hid Hne.
  assert (Hempty : Text.isEmpty id = false) by (destruct id; [contradiction | reflexivity]).
  unfold createServerComponentComment, createWebAssemblyComponentComment, endOf.
  rewrite Hid. simpl. rewrite Hempty. simpl.
  split.
  - intros e ->. split; reflexivity.
  - intros iterator' ->. simpl. split; reflexivity.
Qed.

(** The scan passes an inert node. *)
Lemma resolveComponentComments_loop_inert (fuel : nat) (type : TargetType)
      (directChildrenOnly : bool) (iterator : ComponentCommentIterator.t)
      (result_ : list (ComponentCommentOf type)) (node : Node) (rest : list Node) :
  wellFormed iterator ->
  ahead iterator = node :: rest ->
  inert node ->
  resolveLoop (S fuel) type directChildrenOnly iterator result_
  = resolveLoop fuel type directChildrenOnly
                (moved iterator (ComponentCommentIterator.currentIndex iterator + 1)) result_.
Proof.
  intros Hwf Hahead [Hnomarker Hchildless].
  destruct (next_cons iterator node rest Hwf Hahead) as (Hnext & Hcurrent & _ & _).
  cbn [resolveComponentComments_loop]. rewrite Hnext, Hcurrent.
  rewrite (getComponentComment_no_marker _ type node Hcurrent Hnomarker).
  cbn [bind]. rewrite Hcurrent. unfold Node.hasChildNodes. rewrite Hchildless.
  destruct directChildrenOnly; reflexivity.
Qed.

Lemma resolveComponentComments_loop_inerts (before : list Node) :
  forall (fuel : nat) (type : TargetType) (directChildrenOnly : bool)
         (iterator : ComponentCommentIterator.t) (result_ : list (ComponentCommentOf type))
         (rest : list Node),
    wellFormed iterator ->
    ahead iterator = before ++ rest ->
    Forall inert before ->
    exists iterator',
      resolveLoop (List.length before + fuel) type directChildrenOnly iterator result_
      = resolveLoop fuel type directChildrenOnly iterator' result_
      /\ wellFormed iterator'
      /\ ahead iterator' = rest
      /\ ComponentCommentIterator.childNodes iterator'
         = ComponentCommentIterator.childNodes iterator.
Proof.
  induction before as [| node before IH];
    intros fuel type directChildrenOnly iterator result_ rest Hwf Hahead Hinert.
  - exists iterator. simpl. auto.
  - inversion Hinert as [| ? ? Hnode Hinert']; subst.
    simpl in Hahead.
    destruct (next_cons iterator node (before ++ rest) Hwf Hahead) as (_ & _ & Hahead' & Hwf').
    change (List.length (node :: before) + fuel) with (S (List.length before + fuel)).
    rewrite (resolveComponentComments_loop_inert _ _ _ _ _ _ _ Hwf Hahead Hnode).
    destruct (IH fuel type directChildrenOnly _ result_ rest Hwf' Hahead' Hinert')
      as (iterator' & IHloop & IHwf & IHahead & IHnodes).
    exists iterator'. rewrite IHloop. auto.
Qed.

(** Where the scan arrives at a marker comment on which
    [getComponentComment] throws, it ends with that error. *)
Lemma resolveComponentComments_loop_throws (fuel : nat) (type : TargetType)
      (directChildrenOnly : bool) (iterator : ComponentCommentIterator.t)
      (result_ : list (ComponentCommentOf type)) (node : Node) (rest : list Node) (e : Error) :
  wellFormed iterator ->
  ahead iterator = node :: rest ->
  getComponentComment JSON_parse
                      (moved iterator (ComponentCommentIterator.currentIndex iterator + 1)) type
  = Throw e ->
  resolveLoop (S fuel) type directChildrenOnly iterator result_ = Throw e.
Proof.
  intros Hwf Hahead Hthrow.
  destruct (next_cons iterator node rest Hwf Hahead) as (Hnext & Hcurrent & _ & _).
  cbn [resolveComponentComments_loop]. rewrite Hnext, Hcurrent, Hthrow. reflexivity.
Qed.

End Markers.

Lemma size_positive (node : Node) : 1 <= Node.size node.
Proof. destruct node; simpl; lia. Qed.

Lemma sizes_length (nodes : list Node) : List.length nodes <= Node.sizes nodes.
Proof.
  unfold Node.sizes. induction nodes as [| node nodes IH]; simpl.
  - lia.
  - pose proof (size_positive node). lia.
Qed.

Section MarkerFailure.
Variable JSON_parse : string -> option Payload.t.

(** Where the scan arrives at a start marker with a [prerenderId], it ends
    with the malformed-comment error as soon as the search for the end
    marker throws or returns [undefined]. *)
Lemma resolveComponentComments_loop_fails_at_marker (fuel : nat) (type : TargetType)
      (directChildrenOnly : bool) (iterator : ComponentCommentIterator.t)
      (result_ : list (ComponentCommentOf type)) (after : list Node)
      (text json : string) (payload : Payload.t) (id : string) :
  wellFormed iterator ->
  ahead iterator = Comment text :: after ->
  Node.isDocument (parentNode (ComponentCommentIterator.childNodes iterator)) = false ->
  markerJson (Comment text) = Some json ->
  JSON_parse json = Some payload ->
  Payload.type payload = Some "server" \/ Payload.type payload = Some "webassembly" ->
  Payload.prerenderId payload = Some id ->
  id <> EmptyString ->
  (forall iterator', wellFormed iterator' -> ahead iterator' = after ->
                     (exists e, getComponentEndComment JSON_parse id iterator' = Throw e)
                     \/ (exists iterator'',
                            getComponentEndComment JSON_parse id iterator'
                            = Return (None, iterator''))) ->
  resolveComponentComments_loop JSON_parse (S fuel) type directChildrenOnly iterator result_
  = Throw (MalformedComponentComment text).
Proof.
  intros Hwf Hahead Hparent Hmarker Hparse Htype Hid Hne Hsearch.
  apply (resolveComponentComments_loop_throws JSON_parse _ _ _ _ _ _ _ _ Hwf Hahead).
  destruct (next_cons iterator (Comment text) after Hwf Hahead)
    as (_ & Hcurrent & Hahead' & Hwf').
  rewrite (getComponentComment_marker JSON_parse _ type text json Hcurrent Hmarker)
    by exact Hparent.
  rewrite (parseCommentPayload_valid JSON_parse json payload Hparse Htype).
  cbn [bind].
  destruct (create_without_end
              JSON_parse payload (Comment text)
              (moved iterator (ComponentCommentIterator.currentIndex iterator + 1))
              id Hid Hne)
    as [Hthrows Hundefined].
  destruct (Hsearch _ Hwf' Hahead') as [[e He] | [iterator' He]].
  - destruct (Hthrows e He) as [Hserver Hwasm].
    destruct type; [rewrite Hwasm | rewrite Hserver]; reflexivity.
  - destruct (Hundefined iterator' He) as [Hserver Hwasm].
    destruct type; [rewrite Hwasm | rewrite Hserver]; reflexivity.
Qed.

(** So does the discovery under an element in which inert siblings come
    before the start marker. *)
Lemma discoverComponents_fails_at_marker (globalId : Z) (type : TargetType)
      (directChildrenOnly : bool) (tagName : string) (before after : list Node)
      (text json : string) (payload : Payload.t) (id : string) :
  Forall inert before ->
  markerJson (Comment text) = Some json ->
  JSON_parse json = Some payload ->
  Payload.type payload = Some "server" \/ Payload.type payload = Some "webassembly" ->
  Payload.prerenderId payload = Some id ->
  id <> EmptyString ->
  (forall iterator, wellFormed iterator -> ahead iterator = after ->
                    (exists e, getComponentEndComment JSON_parse id iterator = Throw e)
                    \/ (exists iterator',
                           getComponentEndComment JSON_parse id iterator
                           = Return (None, iterator'))) ->
  discoverComponents JSON_parse globalId (Element tagName (before ++ Comment text :: after))
                     type directChildrenOnly
  = Throw (MalformedComponentComment text).
Proof.
  intros Hinert Hmarker Hparse Htype Hid Hne Hsearch.
  set (root := Element tagName (before ++ Comment text :: after)).
  assert (Hresolve : resolveComponentComments JSON_parse (childNodes root) type directChildrenOnly
                     = Throw (MalformedComponentComment text)).
  { unfold resolveComponentComments.
    destruct (wellFormed_new (childNodes root)) as [Hwf Hahead].
    change (items (childNodes root)) with (before ++ Comment text :: after) in *.
    pose proof (sizes_length (before ++ Comment text :: after)) as Hsize.
    rewrite length_app in Hsize. simpl in Hsize.
    replace (S (Node.sizes (before ++ Comment text :: after)))
      with (List.length before
            + S (Node.sizes (before ++ Comment text :: after) - List.length before)) by lia.
    destruct (resolveComponentComments_loop_inerts
                JSON_parse before
                (S (Node.sizes (before ++ Comment text :: after) - List.length before))
                type directChildrenOnly _ [] (Comment text :: after) Hwf Hahead Hinert)
      as (iterator & -> & Hwf' & Hahead' & Hnodes).
    apply (resolveComponentComments_loop_fails_at_marker
             _ type directChildrenOnly iterator [] after text json payload id);
      try assumption.
    rewrite Hnodes. reflexivity. }
  unfold discoverComponents.
  replace (Node.hasChildNodes root) with true
    by (unfold Node.hasChildNodes; simpl; destruct before; reflexivity).
  simpl negb. cbv iota.
  unfold discoverComponentsFromNodeList, discoverWebAssemblyComponents, discoverServerComponents.
  destruct type; rewrite Hresolve; reflexivity.
Qed.

(** C2, amended.  During the search for the end marker of a start marker
    with [prerenderId] [id], the first sibling that is a marker comment ends
    the search.  If its payload carries another [prerenderId], the search
    throws -- the mismatch error when the payload is the one key with a
    non-empty value -- no later sibling is looked at, and the discovery
    fails with the malformed-comment error on the start marker, wherever
    the scan arrives at it.  Only siblings that are no marker comments are
    passed. *)
Theorem mismatched_end_marker_fails (globalId : Z) (type : TargetType)
        (directChildrenOnly : bool) (tagName : string) (before skipped later : list Node)
        (text json : string) (payload : Payload.t) (id : string)
        (endText endJson : string) (endPayload : Payload.t) (endId : string) :
  Forall inert before ->
  markerJson (Comment text) = Some json ->
  JSON_parse json = Some payload ->
  Payload.type payload = Some "server" \/ Payload.type payload = Some "webassembly" ->
  Payload.prerenderId payload = Some id ->
  id <> EmptyString ->
  Forall (fun node => markerJson node = None) skipped ->
  markerJson (Comment endText) = Some endJson ->
  JSON_parse endJson = Some endPayload ->
  Payload.prerenderId endPayload = Some endId ->
  endId <> id ->
  (forall iterator,
      wellFormed iterator -> ahead iterator = skipped ++ Comment endText :: later ->
      exists e, getComponentEndComment JSON_parse id iterator = Throw e
                /\ (Payload.keysLength endPayload = 1 -> endId <> EmptyString ->
                    e = EndCommentMismatch id endId))
  /\ (forall fuel iterator result_,
        wellFormed iterator ->
        ahead iterator = Comment text :: skipped ++ Comment endText :: later ->
        Node.isDocument (parentNode (ComponentCommentIterator.childNodes iterator)) = false ->
        resolveComponentComments_loop JSON_parse (S fuel) type directChildrenOnly
                                      iterator result_
        = Throw (MalformedComponentComment text))
  /\ discoverComponents JSON_parse globalId
                        (Element tagName
                                 (before ++ Comment text :: skipped ++ Comment endText :: later))
                        type directChildrenOnly
     = Throw (MalformedComponentComment text).
Proof.
  intros Hinert Hmarker Hparse Htype Hid Hne Hskipped HendMarker HendParse HendId Hother.
  assert (Hsearch : forall iterator,
             wellFormed iterator -> ahead iterator = skipped ++ Comment endText :: later ->
             exists e, getComponentEndComment JSON_parse id iterator = Throw e
                       /\ (Payload.keysLength endPayload = 1 -> endId <> EmptyString ->
                           e = EndCommentMismatch id endId)).
  { intros iterator Hwf Hahead.
    destruct (getComponentEndComment_first_marker
                JSON_parse id iterator skipped (Comment endText) endJson later
                Hwf Hahead Hskipped HendMarker) as (iterator' & -> & _).
    destruct (validate_other_id JSON_parse endJson id endPayload endId HendParse HendId Hother)
      as (e & -> & He).
    exists e. split; [reflexivity | exact He]. }
  split; [exact Hsearch | split].
  - intros fuel iterator result_ Hwf Hahead Hparent.
    apply (resolveComponentComments_loop_fails_at_marker
             fuel type directChildrenOnly iterator result_ _ text json payload id Hwf Hahead);
      try assumption.
    intros iterator' Hwf' Hahead'. left.
    destruct (Hsearch iterator' Hwf' Hahead') as (e & He & _). exists e. exact He.
  - apply (discoverComponents_fails_at_marker globalId type directChildrenOnly tagName
                                              before _ text json payload id);
      try assumption.
    intros iterator Hwf Hahead. left.
    destruct (Hsearch iterator Hwf Hahead) as (e & He & _). exists e. exact He.
Qed.

End MarkerFailure.

(** C2, as the specification states it, fails.  After the start marker with
    [prerenderId] A come a marker comment with [prerenderId] B and one with
    [prerenderId] A.  Were the first of them ignored, the search would find
    the second, as it does when the first is not there; but the search
    throws at the first, and the discovery fails. *)
Lemma mismatched_end_marker_counterexample :
  getComponentEndComment JsonReader.parse "A"
                         (ComponentCommentIterator.new (childNodes (Element "div" [endB; endA])))
  = Throw (EndCommentMismatch "A" "B")
  /\ discoverComponents JsonReader.parse 1 (Element "div" [startA; endB; endA])
                        target_server false
     = Throw (MalformedComponentComment (Node.textContent startA))
  /\ discoverComponents JsonReader.parse 1 (Element "div" [startA; endA]) target_server false
     = Return ([ServerComponentDescriptor.new startA (Some endA) 0 "AAA"], 1%Z).
Proof. repeat split; vm_compute; reflexivity. Qed.

Lemma mismatched_end_marker_fails_witness :
  discoverComponents JsonReader.parse 1
                     (Element "div" ([Text "head"] ++ startA :: [Text "body"] ++ endB :: [endA]))
                     target_server false
  = Throw (MalformedComponentComment (Node.textContent startA)).
Proof.
  refine (proj2 (proj2 (mismatched_end_marker_fails
           JsonReader.parse 1 target_server false "div" [Text "head"] [Text "body"] [endA]
           (Node.textContent startA)
           (quoted "{'type':'server','sequence':0,'descriptor':'AAA','prerenderId':'A'}")
           {| Payload.type := Some "server"; Payload.prerenderId := Some "A";
              Payload.sequence := Some (Integer 0); Payload.descriptor := Some "AAA";
              Payload.typeName := None; Payload.assembly := None;
              Payload.parameterDefinitions := None;
              Payload.parameterValues := None; Payload.otherKeys := 0 |}
           "A"
           (Node.textContent endB)
           (quoted "{'prerenderId':'B'}")
           {| Payload.type := None; Payload.prerenderId := Some "B";
              Payload.sequence := None; Payload.descriptor := None;
              Payload.typeName := None; Payload.assembly := None;
              Payload.parameterDefinitions := None;
              Payload.parameterValues := None; Payload.otherKeys := 0 |}
           "B" _ _ _ _ _ _ _ _ _ _ _))).
  - repeat constructor.
  - reflexivity.
  - reflexivity.
  - left. reflexivity.
  - reflexivity.
  - discriminate.
  - repeat constructor.
  - reflexivity.
  - reflexivity.
  - reflexivity.
  - discriminate.
Defined.

(** ** The scan never runs out of fuel *)

Lemma size_children (node : Node) : Node.size node = S (Node.sizes (Node.children node)).
Proof.
  assert (Hsizes : forall (children : list Node),
             (fix sizes (l : list Node) : nat :=
                match l with
                | [] => 0
                | x :: rest => Node.size x + sizes rest
                end) children = Node.sizes children).
  { induction children as [| child children IH]; [reflexivity |].
    unfold Node.sizes in *. simpl. rewrite IH. reflexivity. }
  destruct node as [text | data | tagName children | children]; simpl;
    try reflexivity; rewrite Hsizes; reflexivity.
Qed.

Lemma sizes_app (a b : list Node) : Node.sizes (a ++ b) = Node.sizes a + Node.sizes b.
Proof. unfold Node.sizes. rewrite map_app, list_sum_app. reflexivity. Qed.

Lemma sizes_cons (node : Node) (rest : list Node) :
  Node.sizes (node :: rest) = Node.size node + Node.sizes rest.
Proof. reflexivity. Qed.

Lemma first_marker (nodes : list Node) :
  Forall (fun node => markerJson node = None) nodes
  \/ exists skipped node json rest,
      nodes = skipped ++ node :: rest
      /\ Forall (fun node => markerJson node = None) skipped
      /\ markerJson node = Some json.
Proof.
  induction nodes as [| node nodes IH].
  - left. constructor.
  - destruct (markerJson node) as [json |] eqn:Hnode.
    + right. exists [], node, json, nodes. repeat split; [constructor | exact Hnode].
    + destruct IH as [Hnone | (skipped & node' & json & rest & -> & Hskipped & Hnode')].
      * left. constructor; assumption.
      * right. exists (node :: skipped), node', json, rest.
        repeat split; [constructor; assumption | exact Hnode'].
Qed.

Section FuelEnough.
Variable JSON_parse : string -> option Payload.t.

Lemma lands_getComponentEndComment (prerenderedId : string)
      (iterator : ComponentCommentIterator.t) :
  wellFormed iterator ->
  match getComponentEndComment JSON_parse prerenderedId iterator with
  | OutOfFuel => False
  | Throw _ => True
  | Return (None, _) => True
  | Return (Some node, iterator') =>
      wellFormed iterator'
      /\ exists passed,
          ComponentCommentIterator.currentElement iterator' = Some node
          /\ ahead iterator = passed ++ node :: ahead iterator'
  end.
Proof.
  intros Hwf.
  destruct (first_marker (ahead iterator))
    as [Hnone | (skipped & node & json & rest & Hahead & Hskipped & Hnode)].
  - destruct (getComponentEndComment_exhausted JSON_parse prerenderedId iterator Hwf Hnone)
      as [iterator' ->]. exact I.
  - destruct (getComponentEndComment_first_marker
                JSON_parse prerenderedId iterator skipped node json rest
                Hwf Hahead Hskipped Hnode)
      as (iterator' & -> & Hwf' & Hahead' & Hcurrent & _).
    unfold validateEndComponentPayload, parse.
    destruct (JSON_parse json) as [payload |]; simpl; [| exact I].
    destruct (negb (Payload.keysLength payload =? 1)%nat); [exact I |].
    destruct (Payload.prerenderId payload) as [endId |]; [| exact I].
    destruct (Text.isEmpty endId); [exact I |].
    destruct (negb (endId =? prerenderedId)%string); [exact I |].
    simpl. split; [exact Hwf' |].
    exists skipped. rewrite Hahead'. auto.
Qed.

Lemma lands_endOf (prerenderId : option string) (start : Node)
      (iterator : ComponentCommentIterator.t) :
  wellFormed iterator -> lands iterator (endOf JSON_parse prerenderId start iterator).
Proof.
  intros Hwf. unfold endOf.
  destruct prerenderId as [id |]; [| simpl; auto].
  destruct (Text.isEmpty id) eqn:Hempty; simpl; [rewrite Hempty; simpl; auto |].
  pose proof (lands_getComponentEndComment id iterator Hwf) as Hend.
  destruct (getComponentEndComment JSON_parse id iterator) as [[[node |] iterator'] | e |];
    simpl; try rewrite Hempty; simpl; auto.
  destruct Hend as (Hwf' & passed & Hcurrent & Hahead).
  split; [exact Hwf' |]. right. exists node, passed. auto.
Qed.

Lemma lands_bind {A B : Type} (iterator : ComponentCommentIterator.t)
      (r : result (A * ComponentCommentIterator.t))
      (k : A * ComponentCommentIterator.t -> result (B * ComponentCommentIterator.t)) :
  lands iterator r ->
  (forall a iterator', match k (a, iterator') with
                       | OutOfFuel => False
                       | Throw _ => True
                       | Return (_, iterator'') => iterator'' = iterator'
                       end) ->
  lands iterator (bind r k).
Proof.
  intros Hr Hk. destruct r as [[a iterator'] | e |]; simpl in *; auto.
  specialize (Hk a iterator').
  destruct (k (a, iterator')) as [[b iterator''] | e |]; auto.
  subst iterator''. exact Hr.
Qed.

Lemma lands_createServerComponentComment (payload : Payload.t) (start : Node)
      (iterator : ComponentCommentIterator.t) :
  wellFormed iterator ->
  lands iterator (createServerComponentComment JSON_parse payload start iterator).
Proof.
  intros Hwf. unfold createServerComponentComment.
  apply lands_bind; [apply lands_endOf, Hwf |].
  intros end_ iterator'.
  destruct (negb (equals (Payload.type payload) "server")); [reflexivity |].
  destruct (Payload.descriptor payload) as [descriptor |]; [| exact I].
  destruct (Text.isEmpty descriptor); [exact I |].
  destruct (Payload.sequence payload) as [[sequence |] |]; try exact I. reflexivity.
Qed.

Lemma decoded_total (value : option string) : decoded value <> OutOfFuel.
Proof.
  unfold decoded. destruct value as [v |]; [| discriminate].
  destruct (Text.isEmpty v); [discriminate |].
  unfold Base64.atob.
  destruct (_ =? 1)%nat; [discriminate |].
  destruct (Base64.sextets _); discriminate.
Qed.

Lemma lands_createWebAssemblyComponentComment (payload : Payload.t) (start : Node)
      (iterator : ComponentCommentIterator.t) :
  wellFormed iterator ->
  lands iterator (createWebAssemblyComponentComment JSON_parse payload start iterator).
Proof.
  intros Hwf. unfold createWebAssemblyComponentComment.
  apply lands_bind; [apply lands_endOf, Hwf |].
  intros end_ iterator'.
  destruct (negb (equals (Payload.type payload) "webassembly")); [reflexivity |].
  destruct (Payload.assembly payload) as [assembly |]; [| exact I].
  destruct (Text.isEmpty assembly); [exact I |].
  destruct (Payload.typeName payload) as [typeName |]; [| exact I].
  destruct (Text.isEmpty typeName); [exact I |].
  pose proof (decoded_total (Payload.parameterDefinitions payload)) as Hdefinitions.
  pose proof (decoded_total (Payload.parameterValues payload)) as Hvalues.
  destruct (decoded (Payload.parameterDefinitions payload)); simpl; try exact I;
    try contradiction.
  destruct (decoded (Payload.parameterValues payload)); simpl; try exact I;
    try contradiction.
  reflexivity.
Qed.

Lemma lands_getComponentComment (iterator : ComponentCommentIterator.t) (type : TargetType) :
  wellFormed iterator -> lands iterator (getComponentComment JSON_parse iterator type).
Proof.
  intros Hwf.
  assert (Hstay : forall A (a : A), lands iterator (Return (a, iterator)))
    by (intros A a; simpl; auto).
  unfold getComponentComment.
  destruct (ComponentCommentIterator.currentElement iterator) as [candidateStart |];
    [| apply Hstay].
  destruct (negb (Node.isComment candidateStart)); [apply Hstay |].
  destruct (Text.isEmpty (Node.textContent candidateStart)); [apply Hstay |].
  destruct (Text.blazorCommentRegularExpression (Node.textContent candidateStart))
    as [json |]; [| apply Hstay].
  destruct (Text.isEmpty json); [apply Hstay |].
  unfold assertNotDirectlyOnDocument.
  destruct (Node.isDocument _); [exact I |]. cbn [bind].
  unfold parseCommentPayload, parse.
  destruct (JSON_parse json) as [payload |]; [| exact I]. cbn [bind].
  destruct (negb (equals (Payload.type payload) "server")
            && negb (equals (Payload.type payload) "webassembly")); [exact I |].
  cbn [bind].
  destruct type.
  - pose proof (lands_createWebAssemblyComponentComment payload candidateStart iterator Hwf)
      as Hcreate.
    destruct (createWebAssemblyComponentComment JSON_parse payload candidateStart iterator)
      as [[c iterator'] | e |]; simpl in *; auto.
  - pose proof (lands_createServerComponentComment payload candidateStart iterator Hwf)
      as Hcreate.
    destruct (createServerComponentComment JSON_parse payload candidateStart iterator)
      as [[c iterator'] | e |]; simpl in *; auto.
Qed.

(** The sizes of what is ahead of where a call has landed. *)
Lemma lands_sizes {A : Type} (iterator : ComponentCommentIterator.t) (a : A)
      (iterator' : ComponentCommentIterator.t) (current : Node) :
  ComponentCommentIterator.currentElement iterator = Some current ->
  lands iterator (Return (a, iterator')) ->
  wellFormed iterator'
  /\ Node.sizes (ahead iterator') <= Node.sizes (ahead iterator)
  /\ forall node, ComponentCommentIterator.currentElement iterator' = Some node ->
                  Node.size node <= Node.size current + Node.sizes (ahead iterator).
Proof.
  intros Hcurrent [Hwf [-> | (node & passed & Hnode & Hahead)]].
  - split; [exact Hwf | split; [lia |]].
    intros node Hnode. rewrite Hcurrent in Hnode. injection Hnode as ->. lia.
  - split; [exact Hwf |]. rewrite Hahead, sizes_app, sizes_cons.
    split; [lia |].
    intros node' Hnode'. rewrite Hnode in Hnode'. injection Hnode' as ->. lia.
Qed.

Lemma resolveComponentComments_loop_total (fuel : nat) :
  forall (type : TargetType) (directChildrenOnly : bool)
         (iterator : ComponentCommentIterator.t) (result_ : list (ComponentCommentOf type)),
    wellFormed iterator ->
    Node.sizes (ahead iterator) < fuel ->
    resolveComponentComments_loop JSON_parse fuel type directChildrenOnly iterator result_
    <> OutOfFuel.
Proof.
  induction fuel as [| fuel IH]; intros type directChildrenOnly iterator result_ Hwf Hfuel.
  - lia.
  - cbn [resolveComponentComments_loop].
    destruct (ahead iterator) as [| current rest] eqn:Hahead.
    + destruct (next_nil iterator Hwf Hahead) as (iterator' & -> & Hcurrent).
      discriminate.
    + destruct (next_cons iterator current rest Hwf Hahead)
        as (-> & Hcurrent & Hahead1 & Hwf1).
      rewrite Hcurrent.
      set (iterator1 := moved iterator (ComponentCommentIterator.currentIndex iterator + 1)) in *.
      pose proof (lands_getComponentComment iterator1 type Hwf1) as Hlands.
      destruct (getComponentComment JSON_parse iterator1 type)
        as [[componentComment iterator2] | e |]; cbn [bind];
        [| discriminate | contradiction].
      destruct (lands_sizes iterator1 componentComment iterator2 current Hcurrent Hlands)
        as (Hwf2 & Hsizes & Hnode).
      rewrite Hahead1 in Hsizes, Hnode. rewrite sizes_cons in Hfuel.
      pose proof (size_positive current) as Hpositive.
      destruct componentComment as [componentComment |].
      * apply IH; [exact Hwf2 | lia].
      * destruct directChildrenOnly; [apply IH; [exact Hwf2 | lia] |].
        destruct (ComponentCommentIterator.currentElement iterator2) as [currentElement |];
          [| discriminate].
        specialize (Hnode currentElement eq_refl).
        destruct (Node.hasChildNodes currentElement); [| apply IH; [exact Hwf2 | lia]].
        destruct (wellFormed_new (childNodes currentElement)) as [Hwf3 Hahead3].
        assert (Hchildren : resolveComponentComments_loop
                              JSON_parse fuel type false
                              (ComponentCommentIterator.new (childNodes currentElement)) []
                            <> OutOfFuel).
        { apply IH; [exact Hwf3 |]. rewrite Hahead3.
          pose proof (size_children currentElement) as Hsize.
          change (items (childNodes currentElement)) with (Node.children currentElement).
          lia. }
        destruct (resolveComponentComments_loop
                    JSON_parse fuel type false
                    (ComponentCommentIterator.new (childNodes currentElement)) [])
          as [childResults | e |]; cbn [bind]; [| discriminate | contradiction].
        apply IH; [exact Hwf2 | lia].
Qed.

(** The fuel that [resolveComponentComments] gives its loop is enough. *)
Lemma resolveComponentComments_fuel_enough (nodes : NodeList) (type : TargetType)
      (directChildrenOnly : bool) :
  resolveComponentComments JSON_parse nodes type directChildrenOnly <> OutOfFuel.
Proof.
  unfold resolveComponentComments.
  destruct (wellFormed_new nodes) as [Hwf Hahead].
  apply resolveComponentComments_loop_total; [exact Hwf |]. rewrite Hahead. lia.
Qed.

Lemma discoverComponents_fuel_enough (globalId : Z) (root : Node) (type : TargetType)
      (directChildrenOnly : bool) :
  discoverComponents JSON_parse globalId root type directChildrenOnly <> OutOfFuel.
Proof.
  unfold discoverComponents.
  destruct (negb (Node.hasChildNodes root)); [discriminate |].
  unfold discoverComponentsFromNodeList, discoverWebAssemblyComponents, discoverServerComponents.
  pose proof (resolveComponentComments_fuel_enough (childNodes root) type directChildrenOnly)
    as Henough.
  destruct type;
    destruct (resolveComponentComments JSON_parse (childNodes root) _ directChildrenOnly)
      as [componentComments | e |]; cbn [bind]; try discriminate; try contradiction.
  destruct (webAssemblyEntries globalId componentComments). discriminate.
Qed.

End FuelEnough.

(** ** The order of the discovered descriptors *)

Section SortByKey.
Context {A : Type} (key : A -> Z).

Local Abbreviation comparefn := (fun a b : A => (key a - key b)%Z).
Local Abbreviation ascending := (fun a b : A => (key a <= key b)%Z).

Lemma insert_permutation (x : A) (sorted : list A) :
  Permutation (insert comparefn x sorted) (x :: sorted).
Proof.
  induction sorted as [| y sorted IH]; simpl.
  - apply Permutation_refl.
  - destruct (key x - key y <=? 0)%Z.
    + apply Permutation_refl.
    + eapply Permutation_trans; [apply perm_skip, IH | apply perm_swap].
Qed.

Lemma Array_sort_permutation (array : list A) : Permutation (Array_sort comparefn array) array.
Proof.
  induction array as [| x array IH]; simpl.
  - apply Permutation_refl.
  - eapply Permutation_trans; [apply insert_permutation | apply perm_skip, IH].
Qed.

Lemma insert_ascending (x : A) (sorted : list A) :
  StronglySorted ascending sorted -> StronglySorted ascending (insert comparefn x sorted).
Proof.
  induction sorted as [| y sorted IH]; intros Hsorted; simpl.
  - constructor; constructor.
  - inversion Hsorted as [| ? ? Htail Hhead]; subst.
    destruct (Z.leb_spec (key x - key y) 0) as [Hle | Hgt].
    + constructor; [exact Hsorted |].
      constructor; [lia |].
      eapply Forall_impl; [| exact Hhead]. cbv beta. intros z Hz. lia.
    + constructor; [apply IH, Htail |].
      eapply Permutation_Forall; [apply Permutation_sym, insert_permutation |].
      constructor; [lia | exact Hhead].
Qed.

Lemma Array_sort_ascending (array : list A) :
  StronglySorted ascending (Array_sort comparefn array).
Proof.
  induction array as [| x array IH]; simpl.
  - constructor.
  - apply insert_ascending, IH.
Qed.

(** An array that is in ascending order already is left as it is. *)
Lemma Array_sort_of_ascending (array : list A) :
  StronglySorted ascending array -> Array_sort comparefn array = array.
Proof.
  induction array as [| x array IH]; intros Hsorted; simpl.
  - reflexivity.
  - inversion Hsorted as [| ? ? Htail Hhead]; subst.
    rewrite (IH Htail).
    destruct array as [| y array]; simpl; [reflexivity |].
    inversion Hhead as [| ? ? Hxy _]; subst.
    destruct (Z.leb_spec (key x - key y) 0); [reflexivity | lia].
Qed.

End SortByKey.

(** The identities of the descriptors made in one pass are consecutive,
    from the value of the counter on. *)
Lemma webAssemblyEntries_ids (componentComments : list WebAssemblyComponentComment.t) :
  forall globalId : Z,
    snd (webAssemblyEntries globalId componentComments)
    = (globalId + Z.of_nat (List.length componentComments))%Z
    /\ Forall (fun entry => (globalId <= WebAssemblyComponentDescriptor.id entry)%Z)
              (fst (webAssemblyEntries globalId componentComments))
    /\ StronglySorted (fun a b => (WebAssemblyComponentDescriptor.id a
                                   <= WebAssemblyComponentDescriptor.id b)%Z)
                      (fst (webAssemblyEntries globalId componentComments)).
Proof.
  induction componentComments as [| componentComment rest IH]; intros globalId.
  - simpl. repeat split; [lia | constructor | constructor].
  - cbn [webAssemblyEntries]. unfold webAssemblyEntry, WebAssemblyComponentDescriptor.new.
    destruct (IH (globalId + 1)%Z) as (Hnext & Hfrom & Hsorted).
    destruct (webAssemblyEntries (globalId + 1) rest) as [entries_ globalId'].
    simpl in *. repeat split.
    + lia.
    + constructor; [simpl; lia |].
      eapply Forall_impl; [| exact Hfrom]. cbv beta. intros entry Hentry. lia.
    + constructor; [exact Hsorted |].
      eapply Forall_impl; [| exact Hfrom]. cbv beta. simpl. intros entry Hentry. lia.
Qed.

Section DiscoveryOrder.
Variable JSON_parse : string -> option Payload.t.

Lemma resolveComponentComments_childless (root : Node) (type : TargetType)
      (directChildrenOnly : bool) :
  Node.hasChildNodes root = false ->
  resolveComponentComments JSON_parse (childNodes root) type directChildrenOnly = Return [].
Proof.
  unfold Node.hasChildNodes, resolveComponentComments, items. simpl parentNode.
  destruct (Node.children root) eqn:Hchildren; [| discriminate]. intros _.
  destruct (next_nil (ComponentCommentIterator.new (childNodes root))) as (iterator & Hnext & Hcurrent).
  - apply wellFormed_new.
  - unfold ahead, items. simpl. rewrite Hchildren. reflexivity.
  - cbn [Node.sizes map list_sum resolveComponentComments_loop].
    rewrite Hnext. reflexivity.
Qed.

End DiscoveryOrder.

(** Two server markers in descending order of [sequence] come out in
    ascending order; two local-execution markers come out in the order of
    the document, with consecutive identities. *)
Example discovery_server :
  discoverComponents JsonReader.parse 1
                     (Element "div" [server2; Element "p" [Text "body"; server1]])
                     target_server false
  = Return ([ServerComponentDescriptor.new server1 None 1 "CCC";
             ServerComponentDescriptor.new server2 None 2 "BBB"], 1%Z).
Proof. vm_compute. reflexivity. Qed.

Example discovery_webassembly :
  discoverComponents JsonReader.parse 5 (Element "div" [counter; server1; clock])
                     target_webassembly false
  = Return ([fst (WebAssemblyComponentDescriptor.new 5 counter None "App" "Counter"
                                                     None (Some "ABC"));
             fst (WebAssemblyComponentDescriptor.new 6 clock None "App" "Clock" None None)],
            7%Z).
Proof. vm_compute. reflexivity. Qed.

(** ** The persisted-state search *)

Lemma Node_induction (P : Node -> Prop) :
  (forall content, P (Comment content)) ->
  (forall data, P (Text data)) ->
  (forall tagName children, Forall P children -> P (Element tagName children)) ->
  (forall children, Forall P children -> P (Document children)) ->
  forall node, P node.
Proof.
  intros Hcomment Htext Helement Hdocument.
  fix IH 1. intros [content | data | tagName children | children].
  - apply Hcomment.
  - apply Htext.
  - apply Helement. induction children as [| child children IHchildren]; constructor.
    + apply IH.
    + apply IHchildren.
  - apply Hdocument. induction children as [| child children IHchildren]; constructor.
    + apply IH.
    + apply IHchildren.
Qed.

Lemma dropWhile_split (p : ascii -> bool) (s : string) :
  exists lead, s = (lead ++ Text.dropWhile p s)%string /\ Text.all p lead = true.
Proof.
  induction s as [| c s IH]; simpl.
  - exists EmptyString. split; reflexivity.
  - destruct (p c) eqn:Hc.
    + destruct IH as (lead & Hs & Hlead).
      exists (String c lead). simpl. rewrite <- Hs, Hc, Hlead. split; reflexivity.
    + exists EmptyString. split; reflexivity.
Qed.

Lemma stripPrefix_split (prefix s rest : string) :
  Text.stripPrefix prefix s = Some rest -> s = (prefix ++ rest)%string.
Proof.
  revert s. induction prefix as [| a prefix IH]; intros s H; simpl in *.
  - injection H as ->. reflexivity.
  - destruct s as [| b s]; [discriminate H |].
    destruct (Ascii.eqb_spec a b) as [-> | Hab]; [| discriminate H].
    rewrite (IH s H). reflexivity.
Qed.

(** What the pattern captures is the text after the prefix, as it is
    written, and is not empty. *)
Lemma blazorStateCommentRegularExpression_state (content state : string) :
  Text.blazorStateCommentRegularExpression content = Some state ->
  Text.isEmpty state = false
  /\ exists space, content = (space ++ "Blazor-Component-State:" ++ state)%string
                   /\ Text.all Text.isWhiteSpace space = true.
Proof.
  unfold Text.blazorStateCommentRegularExpression. intros H.
  destruct (dropWhile_split Text.isWhiteSpace content) as (space & Hcontent & Hspace).
  destruct (Text.stripPrefix "Blazor-Component-State:" (Text.dropWhile Text.isWhiteSpace content))
    as [rest |] eqn:Hrest; [| discriminate H].
  apply stripPrefix_split in Hrest.
  destruct (Text.isEmpty rest) eqn:Hempty; simpl in H; [discriminate H |].
  destruct (Text.all Text.isStateChar rest); [| discriminate H].
  injection H as <-. split; [exact Hempty |].
  exists space. rewrite <- Hrest. split; assumption.
Qed.

Lemma discoverPersistedState_children (node : Node) :
  discoverPersistedState node
  = match node with
    | Comment content =>
        match Text.blazorStateCommentRegularExpression content with
        | Some state => if negb (Text.isEmpty state) then (State state, None)
                        else (State state, Some node)
        | None => (Null, Some node)
        end
    | Text _ => (Undefined, Some node)
    | Element _ [] | Document [] => (Undefined, Some node)
    | Element _ nodes | Document nodes =>
        let (found, nodes') := discoverPersistedState_candidates nodes in
        (found, Some (withChildren node nodes'))
    end.
Proof.
  destruct node as [content | data | tagName [| child children] | [| child children]];
    try reflexivity.
  simpl. destruct (Text.blazorStateCommentRegularExpression content); reflexivity.
Qed.

Lemma withoutState_leaf (node : Node) :
  Node.children node = [] ->
  (forall content, node = Comment content ->
                   Text.blazorStateCommentRegularExpression content = None) ->
  withoutState node.
Proof.
  intros Hchildren Hnode [| i path] content Hat; simpl in Hat.
  - injection Hat as ->. apply Hnode. reflexivity.
  - rewrite Hchildren in Hat. destruct i; discriminate Hat.
Qed.

Lemma withoutState_parent (node : Node) :
  Node.isComment node = false ->
  Forall withoutState (Node.children node) ->
  withoutState node.
Proof.
  intros Hnode Hchildren [| i path] content Hat; simpl in Hat.
  - injection Hat as ->. discriminate Hnode.
  - destruct (nth_error (Node.children node) i) as [child |] eqn:Hchild; [| discriminate Hat].
    apply nth_error_In in Hchild.
    rewrite Forall_forall in Hchildren.
    exact (Hchildren child Hchild path content Hat).
Qed.

Lemma nth_error_firstn_lt {A : Type} (l : list A) (i j : nat) :
  j < i -> nth_error (firstn i l) j = nth_error l j.
Proof.
  revert i j. induction l as [| x l IH]; intros [| i] [| j] H; simpl; try reflexivity; try lia.
  apply IH. lia.
Qed.

(** The loop over the children. *)
Lemma discoverPersistedState_candidates_searched (nodes : list Node) :
  Forall searched nodes ->
  (Forall withoutState nodes
   /\ discoverPersistedState_candidates nodes = (Undefined, nodes))
  \/ (exists i child path state,
         nth_error nodes i = Some child
         /\ Forall withoutState (firstn i nodes)
         /\ firstState child path state
         /\ discoverPersistedState_candidates nodes
            = (State state,
               firstn i nodes ++ placed (removeAt child path) ++ skipn (S i) nodes)).
Proof.
  induction nodes as [| candidate rest IH]; intros Hsearched.
  - left. split; [constructor | reflexivity].
  - inversion Hsearched as [| ? ? Hcandidate Hrest]; subst.
    specialize (IH Hrest). cbn [discoverPersistedState_candidates].
    destruct Hcandidate
      as [(Hwithout & notFound & -> & HnotFound) | (path & state & Hfirst & ->)].
    + assert (Hfalsy : PersistedState_truthy notFound = false)
        by (destruct HnotFound as [-> | ->]; reflexivity).
      rewrite Hfalsy.
      destruct IH as [(Hall & ->) | (i & child & path & state & Hchild & Hbefore & Hfirst & ->)].
      * left. split; [constructor; assumption | reflexivity].
      * right. exists (S i), child, path, state.
        split; [exact Hchild |].
        split; [simpl; constructor; assumption |].
        split; [exact Hfirst | reflexivity].
    + destruct Hfirst as ((space & Hat & Hspace & Hregex) & Hearlier).
      destruct (blazorStateCommentRegularExpression_state _ _ Hregex) as (Hempty & _).
      cbn [PersistedState_truthy]. rewrite Hempty. cbn [negb].
      right. exists 0, candidate, path, state.
      split; [reflexivity |].
      split; [constructor |].
      split; [| reflexivity].
      split; [exists space; auto | exact Hearlier].
Qed.

Lemma searched_parent (node : Node) :
  Node.isComment node = false ->
  discoverPersistedState node
  = match Node.children node with
    | [] => (Undefined, Some node)
    | nodes => let (found, nodes') := discoverPersistedState_candidates nodes in
               (found, Some (withChildren node nodes'))
    end ->
  withChildren node (Node.children node) = node ->
  Forall searched (Node.children node) ->
  searched node.
Proof.
  intros Hnode Hsearch Hsame Hchildren. unfold searched. rewrite Hsearch.
  destruct (discoverPersistedState_candidates_searched (Node.children node) Hchildren)
    as [(Hall & Hloop) | (i & child & path & state & Hchild & Hbefore & Hfirst & Hloop)].
  - left. split; [apply withoutState_parent; assumption |].
    exists Undefined. split; [| right; reflexivity].
    destruct (Node.children node) as [| c cs] eqn:Hnodes; [reflexivity |].
    rewrite Hloop, Hsame. reflexivity.
  - right. exists (i :: path), state.
    destruct Hfirst as ((space & Hat & Hspace & Hregex) & Hearlier).
    split; [split |].
    + exists space. simpl. rewrite Hchild. auto.
    + intros [| j q] content Hprecedes Hq; simpl in Hq.
      * injection Hq as ->. discriminate Hnode.
      * simpl in Hprecedes. destruct Hprecedes as [Hlt | [-> Hprecedes]].
        -- destruct (nth_error (Node.children node) j) as [earlier |] eqn:Hj;
             [| discriminate Hq].
           rewrite <- (nth_error_firstn_lt _ i j Hlt) in Hj.
           apply nth_error_In in Hj. rewrite Forall_forall in Hbefore.
           exact (Hbefore earlier Hj q content Hq).
        -- rewrite Hchild in Hq. exact (Hearlier q content Hprecedes Hq).
    + destruct (Node.children node) as [| c cs] eqn:Hnodes;
        [destruct i; discriminate Hchild |].
      rewrite Hloop. simpl. rewrite Hnodes, Hchild. reflexivity.
Qed.

Lemma searched_all (node : Node) : searched node.
Proof.
  induction node as [content | data | tagName children IH | children IH] using Node_induction.
  - unfold searched. rewrite discoverPersistedState_children.
    destruct (Text.blazorStateCommentRegularExpression content) as [state |] eqn:Hregex.
    + destruct (blazorStateCommentRegularExpression_state _ _ Hregex)
        as (Hempty & space & Hcontent & Hspace).
      rewrite Hempty. cbn [negb].
      right. exists [], state. split; [split |].
      * exists space. rewrite <- Hcontent. auto.
      * intros q c Hprecedes. destruct q; contradiction.
      * reflexivity.
    + left. split.
      * apply withoutState_leaf; [reflexivity |].
        intros c Hc. injection Hc as <-. exact Hregex.
      * exists Null. split; [reflexivity | left; reflexivity].
  - left. split.
    + apply withoutState_leaf; [reflexivity | intros c Hc; discriminate Hc].
    + exists Undefined. split; [reflexivity | right; reflexivity].
  - apply searched_parent; try reflexivity; [| exact IH].
    rewrite discoverPersistedState_children. destruct children; reflexivity.
  - apply searched_parent; try reflexivity; [| exact IH].
    rewrite discoverPersistedState_children. destruct children; reflexivity.
Qed.

(** C4, as the specification states it, fails: what the search returns is
    the text captured from the comment, not that text decoded.  The first
    persisted-state comment of this subtree carries QUJD, the encoding of
    ABC; the search returns QUJD. *)
Lemma persisted_state_not_decoded_counterexample :
  fst (discoverPersistedState withStates) = State "QUJD"
  /\ Base64.atob "QUJD" = Return "ABC"
  /\ fst (discoverPersistedState withStates) <> State "ABC".
Proof. repeat split; try reflexivity. vm_compute. discriminate. Qed.

(** C4, amended.  The search is depth first and ends at the first match.
    If some comment of the subtree matches the persisted-state pattern,
    the first of them in document order is taken out of its parent, nothing
    else changes, and the search returns the text that follows the prefix
    in that comment, as it is written there (encoded).  If no comment of
    the subtree matches, the search returns [null] or [undefined] and the
    subtree is as it was. *)
Theorem persisted_state_search (node : Node) :
  ((exists path content,
       nodeAt node path = Some (Comment content)
       /\ Text.blazorStateCommentRegularExpression content <> None) ->
   exists path state,
     firstState node path state
     /\ discoverPersistedState node = (State state, removeAt node path))
  /\ (withoutState node ->
      exists notFound,
        discoverPersistedState node = (notFound, Some node)
        /\ (notFound = Null \/ notFound = Undefined)).
Proof.
  destruct (searched_all node)
    as [(Hwithout & HnotFound) | (path & state & Hfirst & Hsearch)]; split.
  - intros (path & content & Hat & Hmatch). exfalso. exact (Hmatch (Hwithout path content Hat)).
  - intros _. exact HnotFound.
  - intros _. exists path, state. split; assumption.
  - intros Hwithout. exfalso.
    destruct Hfirst as ((space & Hat & _ & Hregex) & _).
    rewrite (Hwithout path _ Hat) in Hregex. discriminate Hregex.
Qed.

Lemma persisted_state_search_witness :
  exists path state,
    firstState withStates path state
    /\ discoverPersistedState withStates = (State state, removeAt withStates path).
Proof.
  apply (proj1 (persisted_state_search withStates)).
  exists [1; 1], "Blazor-Component-State:QUJD". split; [reflexivity | discriminate].
Defined.

(** The search on the example: the comment of the paragraph is taken out,
    the later one stays. *)
Example persisted_state_found :
  discoverPersistedState withStates
  = (State "QUJD",
     Some (Element "div" [Text "body";
                          Element "p" [Comment "plain"];
                          Comment " Blazor-Component-State:REVG"])).
Proof. reflexivity. Qed.

Example persisted_state_not_found :
  discoverPersistedState (Element "div" [Text "body"; Element "p" [Comment "plain"]])
  = (Undefined, Some (Element "div" [Text "body"; Element "p" [Comment "plain"]])).
Proof. reflexivity. Qed.

(** * Further properties of the three files *)

(** ** Merge and the wire record *)

(** X1.  After a merge that succeeds, the existing descriptor goes on the
    wire as the incoming one would: [toRecord] of the one equals [toRecord]
    of the other.  (The anchors, and the [id] of a local-execution
    descriptor, are not part of the record.) *)
Theorem merge_then_toRecord (existing incoming : ComponentDescriptor) :
  compatible existing incoming ->
  toRecord (snd (merge existing incoming)) = toRecord incoming.
Proof.
  destruct existing as [e | e], incoming as [i | i]; intros Hcompatible;
    try contradiction.
  - rewrite merge_server_server. reflexivity.
  - rewrite (merge_webassembly_webassembly e i Hcompatible).
    destruct Hcompatible as [Hassembly HtypeName].
    simpl. unfold WebAssemblyComponentDescriptor_toRecord. simpl.
    rewrite Hassembly, HtypeName. reflexivity.
Qed.

Lemma merge_then_toRecord_witness :
  toRecord (snd (merge (counterDescriptor 1 "first" None (Some "old"))
                       (counterDescriptor 7 "second" (Some (Comment "end")) (Some "new"))))
  = toRecord (counterDescriptor 7 "second" (Some (Comment "end")) (Some "new")).
Proof.
  apply (merge_then_toRecord (counterDescriptor 1 "first" None (Some "old"))
                             (counterDescriptor 7 "second" (Some (Comment "end")) (Some "new"))).
  split; reflexivity.
Defined.

Lemma compatible_merged (a b c : ComponentDescriptor) :
  compatible a b -> compatible b c ->
  compatible a c /\ compatible (snd (merge a b)) c.
Proof.
  destruct a as [a | a], b as [b | b], c as [c | c]; intros Hab Hbc;
    try contradiction.
  - split; exact I.
  - rewrite (merge_webassembly_webassembly a b Hab).
    destruct Hab as [Hab1 Hab2], Hbc as [Hbc1 Hbc2].
    split; split; simpl; congruence.
Qed.

(** X2.  Merges compose: merging [b] and then [c] into a descriptor leaves
    it as merging [c] alone does.  What a descriptor holds after a series of
    re-renders is its own start anchor (and, for local execution, its own
    [end]) with the payload of the last one. *)
Theorem merge_twice (a b c : ComponentDescriptor) :
  compatible a b -> compatible b c ->
  merge (snd (merge a b)) c = merge a c.
Proof.
  destruct a as [a | a], b as [b | b], c as [c | c]; intros Hab Hbc;
    try contradiction.
  - rewrite !merge_server_server. reflexivity.
  - destruct (compatible_merged (WebAssemblyDescriptor a) (WebAssemblyDescriptor b)
                                (WebAssemblyDescriptor c) Hab Hbc) as [Hac Habc].
    rewrite (merge_webassembly_webassembly a b Hab) in *.
    simpl snd in *.
    rewrite (merge_webassembly_webassembly _ c Habc), (merge_webassembly_webassembly a c Hac).
    reflexivity.
Qed.

Lemma merge_twice_witness :
  merge (snd (merge (counterDescriptor 1 "first" None None)
                    (counterDescriptor 2 "second" None (Some "b"))))
        (counterDescriptor 3 "third" (Some (Comment "end")) (Some "c"))
  = merge (counterDescriptor 1 "first" None None)
          (counterDescriptor 3 "third" (Some (Comment "end")) (Some "c")).
Proof.
  apply (merge_twice (counterDescriptor 1 "first" None None)
                     (counterDescriptor 2 "second" None (Some "b"))
                     (counterDescriptor 3 "third" (Some (Comment "end")) (Some "c")));
    split; reflexivity.
Defined.

(** ** The handshake and the reconnection *)

Section CircuitHandshake.
Variable RootComponentManager : Type.
Variable getBaseURI getLocationHref : string.
Variable componentsToJson : list ServerComponentDescriptor.t -> string.

Local Abbreviation Circuit := (CircuitDescriptor RootComponentManager).
Local Abbreviation start :=
  (startCircuit RootComponentManager getBaseURI getLocationHref componentsToJson).
Local Abbreviation reconnect' := (@reconnect RootComponentManager).
Local Abbreviation answer :=
  (fun (this : Circuit) (connection : HubConnection) =>
     invokeStartCircuit connection getBaseURI getLocationHref
                        (componentsToJson (components _ this)) (applicationState _ this)).
Local Abbreviation invocation :=
  (fun (this : Circuit) =>
     StartCircuit getBaseURI getLocationHref
                  (componentsToJson (components _ this)) (applicationState _ this)).

Lemma isEmpty_false (s : string) : s <> EmptyString -> Text.isEmpty s = false.
Proof. destruct s; [contradiction | reflexivity]. Qed.

Lemma state_eqb_Connected (connection : HubConnection) :
  HubConnectionState_eqb (state connection) Connected = true <-> state connection = Connected.
Proof. destruct (state connection); simpl; split; intros H; try reflexivity; discriminate H. Qed.

Lemma startCircuit_connected_unset (this : Circuit) (connection : HubConnection) (id : string) :
  ~ isSet (circuitId _ this) ->
  state connection = Connected ->
  answer this connection = Return id ->
  id <> EmptyString ->
  start this connection = (Return true, set_circuitId _ this (Some id), [invocation this]).
Proof.
  intros Hunset Hstate Hanswer Hid. unfold startCircuit.
  rewrite Hstate. simpl. rewrite Hanswer, (isEmpty_false id Hid). simpl.
  rewrite (initialize_unset _ this id Hunset). reflexivity.
Qed.

(** X3.  A handshake on a connected hub that answers a non-empty identity
    makes exactly one [StartCircuit] invocation, carrying the base URI, the
    location, the serialized components and the application state, and
    resolves to [true]; from then on [reconnect] invokes [ConnectCircuit]
    with the identity the hub gave, on a connected hub, and resolves to
    [false] without invoking anything on one that is not connected. *)
Theorem handshake_then_reconnect (this : Circuit) (connection reconnection : HubConnection)
        (id : string) :
  ~ isSet (circuitId _ this) ->
  state connection = Connected ->
  answer this connection = Return id ->
  id <> EmptyString ->
  let this' := snd (fst (start this connection)) in
  start this connection = (Return true, this', [invocation this])
  /\ circuitId _ this' = Some id
  /\ (state reconnection = Connected ->
      reconnect' this' reconnection
      = (invokeConnectCircuit reconnection id, this', [ConnectCircuit id]))
  /\ (state reconnection <> Connected ->
      reconnect' this' reconnection = (Return false, this', [])).
Proof.
  intros Hunset Hstate Hanswer Hid. cbv zeta.
  rewrite (startCircuit_connected_unset this connection id Hunset Hstate Hanswer Hid).
  simpl. unfold reconnect. simpl. rewrite (isEmpty_false id Hid).
  repeat split.
  - intros ->. reflexivity.
  - intros Hnot. destruct (state reconnection); try reflexivity. contradiction.
Qed.

Lemma startCircuit_failed_unchanged (this : Circuit) (connection : HubConnection) :
  fst (fst (start this connection)) <> Return true ->
  snd (fst (start this connection)) = this.
Proof.
  unfold startCircuit.
  destruct (negb (HubConnectionState_eqb (state connection) Connected)); simpl;
    [reflexivity |].
  destruct (answer this connection) as [id | e |]; simpl; try reflexivity.
  destruct (Text.isEmpty id); simpl; [reflexivity |].
  unfold initialize.
  destruct (circuitId _ this) as [current |].
  - destruct (Text.isEmpty current); simpl; [intros H; contradiction | reflexivity].
  - simpl. intros H. contradiction.
Qed.

(** X4.  [startCircuit] changes the descriptor only when it resolves to
    [true], and then only by setting a [circuitId] that was unset to the
    non-empty identity the hub answered.  In every other outcome (hub not
    connected, empty answer, rejected invocation, descriptor initialized
    already) the descriptor is as it was. *)
Theorem startCircuit_sets_identity_only_on_success (this : Circuit)
        (connection : HubConnection) :
  let outcome := fst (fst (start this connection)) in
  let this' := snd (fst (start this connection)) in
  (outcome = Return true ->
   exists id, id <> EmptyString
              /\ ~ isSet (circuitId _ this)
              /\ answer this connection = Return id
              /\ this' = set_circuitId _ this (Some id))
  /\ (outcome <> Return true -> this' = this).
Proof.
  cbv zeta. unfold startCircuit.
  destruct (negb (HubConnectionState_eqb (state connection) Connected)); simpl.
  - split; [intros H; discriminate H | reflexivity].
  - destruct (answer this connection) as [id | e |]; simpl;
      try (split; [intros H; discriminate H | reflexivity]).
    destruct (Text.isEmpty id) eqn:Hempty; simpl;
      [split; [intros H; discriminate H | reflexivity] |].
    unfold initialize, isSet, truthy.
    destruct (circuitId _ this) as [current |] eqn:Hcurrent.
    + destruct (Text.isEmpty current) eqn:Hcur; simpl.
      * split; [| intros H; contradiction].
        intros _. exists id. repeat split; try reflexivity.
        -- intros ->. discriminate Hempty.
        -- discriminate.
      * split; [intros H; discriminate H | reflexivity].
    + simpl. split; [| intros H; contradiction].
      intros _. exists id. repeat split; try reflexivity.
      -- intros ->. discriminate Hempty.
      -- discriminate.
Qed.

(** X5.  A second handshake on an initialized descriptor still invokes
    [StartCircuit] on a connected hub, and when the hub answers an identity
    it throws, the identity of the descriptor being the first one. *)
Theorem second_handshake_throws (this : Circuit) (connection : HubConnection)
        (current id : string) :
  circuitId _ this = Some current ->
  current <> EmptyString ->
  state connection = Connected ->
  answer this connection = Return id ->
  id <> EmptyString ->
  start this connection = (Throw (CircuitAlreadyInitialized current), this, [invocation this]).
Proof.
  intros Hcurrent Hne Hstate Hanswer Hid. unfold startCircuit.
  rewrite Hstate. simpl. rewrite Hanswer, (isEmpty_false id Hid). simpl.
  unfold initialize. rewrite Hcurrent, (isEmpty_false current Hne). reflexivity.
Qed.

(** X6.  Without a handshake that resolved to [true] there is no
    reconnection: on a descriptor whose [circuitId] is unset, after a
    [startCircuit] that did not resolve to [true], [reconnect] throws
    before it looks at the connection, and invokes nothing. *)
Theorem reconnect_requires_handshake (this : Circuit) (connection reconnection : HubConnection) :
  ~ isSet (circuitId _ this) ->
  fst (fst (start this connection)) <> Return true ->
  let this' := snd (fst (start this connection)) in
  reconnect' this' reconnection = (Throw CircuitNotInitialized, this', []).
Proof.
  intros Hunset Hfailed. cbv zeta.
  rewrite (startCircuit_failed_unchanged this connection Hfailed).
  unfold reconnect. unfold isSet, truthy in Hunset.
  destruct (circuitId _ this) as [current |]; [| reflexivity].
  destruct (Text.isEmpty current); [reflexivity |].
  exfalso. apply Hunset. reflexivity.
Qed.

End CircuitHandshake.

Lemma handshake_then_reconnect_witness :
  let this := CircuitDescriptor_new unit (inl []) "state" in
  let this' := snd (fst (startCircuit unit "https://host/" "https://host/page" (fun _ => "[]")
                                      this (hub Connected))) in
  circuitId _ this' = Some "circuit-1"
  /\ reconnect unit this' (hub Disconnected) = (Return false, this', []).
Proof.
  cbv zeta.
  destruct (handshake_then_reconnect
              unit "https://host/" "https://host/page" (fun _ => "[]")
              (CircuitDescriptor_new unit (inl []) "state") (hub Connected) (hub Disconnected)
              "circuit-1")
    as (_ & Hid & _ & Hdisconnected).
  - unfold isSet. simpl. discriminate.
  - reflexivity.
  - reflexivity.
  - discriminate.
  - split; [exact Hid | apply Hdisconnected; discriminate].
Defined.

Lemma second_handshake_throws_witness :
  let this := set_circuitId unit (CircuitDescriptor_new unit (inl []) "state")
                            (Some "circuit-0") in
  startCircuit unit "https://host/" "https://host/page" (fun _ => "[]") this (hub Connected)
  = (Throw (CircuitAlreadyInitialized "circuit-0"), this,
     [StartCircuit "https://host/" "https://host/page" "[]" "state"]).
Proof.
  cbv zeta.
  apply (second_handshake_throws
           unit "https://host/" "https://host/page" (fun _ => "[]")
           (set_circuitId unit (CircuitDescriptor_new unit (inl []) "state") (Some "circuit-0"))
           (hub Connected) "circuit-0" "circuit-1").
  - reflexivity.
  - discriminate.
  - reflexivity.
  - reflexivity.
  - discriminate.
Defined.

Lemma reconnect_requires_handshake_witness :
  let this := CircuitDescriptor_new unit (inl []) "state" in
  let this' := snd (fst (startCircuit unit "https://host/" "https://host/page" (fun _ => "[]")
                                      this (hub Reconnecting))) in
  reconnect unit this' (hub Connected) = (Throw CircuitNotInitialized, this', []).
Proof.
  cbv zeta.
  apply (reconnect_requires_handshake
           unit "https://host/" "https://host/page" (fun _ => "[]")
           (CircuitDescriptor_new unit (inl []) "state") (hub Reconnecting) (hub Connected)).
  - unfold isSet. simpl. discriminate.
  - simpl. discriminate.
Defined.

(** ** The boot module: mode, options, navigation *)

Section BootMore.
Variable Descriptor : Type.
Variable Descriptor_type : Descriptor -> ComponentType.
Variables SsrStartOptions CircuitStartOptions WebAssemblyStartOptions : Type.
Variable disableDomPreservation : SsrStartOptions -> option bool.

Local Abbreviation Module_ :=
  (Module_ Descriptor SsrStartOptions CircuitStartOptions WebAssemblyStartOptions).
Local Abbreviation Event :=
  (Event Descriptor SsrStartOptions CircuitStartOptions WebAssemblyStartOptions).
Local Abbreviation Options :=
  (WebStartOptions SsrStartOptions CircuitStartOptions WebAssemblyStartOptions).
Local Abbreviation Call :=
  (Call Descriptor SsrStartOptions CircuitStartOptions WebAssemblyStartOptions).
Local Abbreviation register := (registerComponentDescriptor Descriptor Descriptor_type
                                  SsrStartOptions CircuitStartOptions WebAssemblyStartOptions).
Local Abbreviation boot' := (boot Descriptor Descriptor_type SsrStartOptions CircuitStartOptions
                                  WebAssemblyStartOptions disableDomPreservation).
Local Abbreviation step' := (step Descriptor Descriptor_type SsrStartOptions CircuitStartOptions
                                  WebAssemblyStartOptions disableDomPreservation).
Local Abbreviation run' := (run Descriptor Descriptor_type SsrStartOptions CircuitStartOptions
                                WebAssemblyStartOptions disableDomPreservation).
Local Abbreviation loaded' :=
  (loaded Descriptor SsrStartOptions CircuitStartOptions WebAssemblyStartOptions).
Local Abbreviation resolver :=
  (autoModeResolver Descriptor SsrStartOptions CircuitStartOptions WebAssemblyStartOptions).

(** What a module variable or a reading of the calls keeps through the
    functions that neither assign the one nor make a call of the other. *)
Section Kept.
Variable A : Type.
Variable reading : Module_ -> A.
Hypothesis reading_call_start :
  forall m (c : Call),
    (isStartCircuit c || isLoad c || isStartWebAssembly c = true) ->
    reading (call _ _ _ _ c m) = reading m.
Hypothesis reading_await : forall m k, reading (await _ _ _ _ k m) = reading m.
Hypothesis reading_hasCircuitStarted :
  forall m v, reading (set_hasCircuitStarted _ _ _ _ v m) = reading m.
Hypothesis reading_hasStartedLoadingWebAssembly :
  forall m v, reading (set_hasStartedLoadingWebAssembly _ _ _ _ v m) = reading m.
Hypothesis reading_isStartingWebAssembly :
  forall m v, reading (set_isStartingWebAssembly _ _ _ _ v m) = reading m.

Lemma kept_startCircuitIfNotStarted (m : Module_) :
  reading (startCircuitIfNotStarted _ _ _ _ m) = reading m.
Proof.
  unfold startCircuitIfNotStarted. destruct (hasCircuitStarted _ _ _ _ m); [reflexivity |].
  rewrite reading_await, reading_call_start, reading_hasCircuitStarted; reflexivity.
Qed.

Lemma kept_startLoadingWebAssembly (m : Module_) :
  reading (startLoadingWebAssembly _ _ _ _ m) = reading m.
Proof.
  unfold startLoadingWebAssembly.
  destruct (hasStartedLoadingWebAssembly _ _ _ _ m); [reflexivity |].
  rewrite reading_await, reading_call_start, reading_hasStartedLoadingWebAssembly; reflexivity.
Qed.

Lemma kept_startWebAssemblyIfNotStarted (m : Module_) :
  reading (startWebAssemblyIfNotStarted _ _ _ _ m) = reading m.
Proof.
  unfold startWebAssemblyIfNotStarted.
  destruct (isStartingWebAssembly _ _ _ _ m); [reflexivity |].
  rewrite reading_await, reading_call_start, reading_isStartingWebAssembly; reflexivity.
Qed.

Lemma kept_starts (m : Module_) (type : ComponentType) :
  reading (match type with
           | auto => startLoadingWebAssembly _ _ _ _ m
           | server => startCircuitIfNotStarted _ _ _ _ m
           | webassembly => startWebAssemblyIfNotStarted _ _ _ _ m
           end) = reading m.
Proof.
  destruct type.
  - apply kept_startCircuitIfNotStarted.
  - apply kept_startWebAssemblyIfNotStarted.
  - apply kept_startLoadingWebAssembly.
Qed.

Lemma kept_register (d : Descriptor) (m : Module_) :
  (forall m, reading (call _ _ _ _ (rootComponentManager_registerComponentDescriptor _ _ _ _ d) m)
             = reading m) ->
  reading (register d m) = reading m.
Proof.
  intros Hcall. unfold registerComponentDescriptor. rewrite kept_starts. apply Hcall.
Qed.

Lemma kept_registers (found : list Descriptor) (m : Module_) :
  (forall d m, reading (call _ _ _ _ (rootComponentManager_registerComponentDescriptor _ _ _ _ d) m)
               = reading m) ->
  reading (fold_left (fun m d => register d m) found m) = reading m.
Proof.
  intros Hcall. revert m. induction found as [| d found IH]; intros m; simpl.
  - reflexivity.
  - rewrite IH. apply kept_register. apply Hcall.
Qed.

End Kept.

Lemma loaded_boot (options : option Options) (found : list Descriptor) (m : Module_) :
  hasWebAssemblyLoaded _ _ _ _ (snd (boot' options found m)) = hasWebAssemblyLoaded _ _ _ _ m.
Proof.
  unfold boot. destruct (started _ _ _ _ m); [reflexivity |]. simpl.
  rewrite (kept_registers bool (hasWebAssemblyLoaded _ _ _ _)); try reflexivity.
  destruct (field _ _ _ options (ssr _ _ _)) as [ssrOptions |];
    [destruct (disableDomPreservation ssrOptions) as [[|] |] |]; reflexivity.
Qed.

Lemma loaded_step (m : Module_) (e : Event) :
  (forall k, e = fulfilled _ _ _ _ k -> loadsWebAssembly k = false) ->
  hasWebAssemblyLoaded _ _ _ _ (step' m e) = hasWebAssemblyLoaded _ _ _ _ m.
Proof.
  intros Hevent. destruct e as [options found | d | | | | | k | k]; simpl.
  - apply loaded_boot.
  - apply (kept_register bool (hasWebAssemblyLoaded _ _ _ _)); reflexivity.
  - unfold autoModeResolver. destruct (hasWebAssemblyLoaded _ _ _ _ m) eqn:Hloaded; simpl.
    + rewrite (kept_startWebAssemblyIfNotStarted bool (hasWebAssemblyLoaded _ _ _ _));
        try reflexivity. exact Hloaded.
    + rewrite (kept_startCircuitIfNotStarted bool (hasWebAssemblyLoaded _ _ _ _));
        try reflexivity. exact Hloaded.
  - reflexivity.
  - reflexivity.
  - reflexivity.
  - destruct (remove_first k (awaiting _ _ _ _ m)) as [rest |]; [| reflexivity].
    specialize (Hevent k eq_refl). destruct k; try discriminate Hevent. reflexivity.
  - destruct (remove_first k (awaiting _ _ _ _ m)) as [rest |]; reflexivity.
Qed.

Lemma loaded_stays (m : Module_) (e : Event) :
  hasWebAssemblyLoaded _ _ _ _ m = true -> hasWebAssemblyLoaded _ _ _ _ (step' m e) = true.
Proof.
  intros Hloaded.
  destruct e as [options found | d | | | | | k | k];
    try (rewrite loaded_step; [exact Hloaded | intros k' H; discriminate H]).
  simpl. destruct (remove_first k (awaiting _ _ _ _ m)) as [rest |]; [| exact Hloaded].
  destruct k; simpl; try reflexivity; exact Hloaded.
Qed.

Lemma guarded_startCircuit_issued (m : Module_) :
  guarded m -> count isStartCircuit (calls _ _ _ _ (startCircuitIfNotStarted _ _ _ _ m)) = 1.
Proof.
  intros Hguarded.
  destruct (guarded_startCircuitIfNotStarted _ _ _ _ m Hguarded) as (_ & _ & Hcircuit).
  rewrite Hcircuit.
  destruct (advances_startCircuitIfNotStarted _ _ _ _ m) as [_ ->]. reflexivity.
Qed.

(** X7.  The mode of an [auto] component.  As long as no promise of the
    WebAssembly load or start has been fulfilled, the resolver answers
    [server] and sees to it that the circuit start has been issued, exactly
    once.  Once WebAssembly is marked as loaded it stays so, whatever
    happens, and the resolver answers [webassembly]. *)
Theorem auto_mode (events : list Event) :
  ((forall k, In (fulfilled _ _ _ _ k) events -> loadsWebAssembly k = false) ->
   fst (resolver (run' loaded' events)) = server
   /\ count isStartCircuit (calls _ _ _ _ (snd (resolver (run' loaded' events)))) = 1)
  /\ (forall m, hasWebAssemblyLoaded _ _ _ _ m = true ->
                fst (resolver (run' m events)) = webassembly).
Proof.
  split.
  - intros Hnone.
    assert (Hloaded : hasWebAssemblyLoaded _ _ _ _ (run' loaded' events) = false).
    { assert (Hgeneral : forall m, hasWebAssemblyLoaded _ _ _ _ m = false ->
                                   hasWebAssemblyLoaded _ _ _ _ (run' m events) = false).
      { induction events as [| e events IH]; intros m Hm; simpl; [exact Hm |].
        apply IH.
        - intros k Hk. apply Hnone. right. exact Hk.
        - rewrite loaded_step; [exact Hm |].
          intros k ->. apply Hnone. left. reflexivity. }
      apply Hgeneral. reflexivity. }
    unfold autoModeResolver. rewrite Hloaded. simpl.
    split; [reflexivity |].
    apply guarded_startCircuit_issued, guarded_run, guarded_loaded.
  - induction events as [| e events IH]; intros m Hm; simpl.
    + unfold autoModeResolver. rewrite Hm. reflexivity.
    + apply IH, loaded_stays, Hm.
Qed.

Lemma updates_app (l l' : list Call) : updates (l ++ l') = updates l ++ updates l'.
Proof.
  induction l as [| c l IH]; simpl; [reflexivity |].
  destruct c; simpl; rewrite IH; reflexivity.
Qed.

Lemma updates_start (m : Module_) (c : Call) :
  isStartCircuit c || isLoad c || isStartWebAssembly c = true ->
  updates (calls _ _ _ _ (call _ _ _ _ c m)) = updates (calls _ _ _ _ m).
Proof.
  intros Hc. simpl. rewrite updates_app.
  destruct c; simpl in *; try discriminate Hc; apply app_nil_r.
Qed.

Lemma attachNavigation_start (m : Module_) (c : Call) :
  isStartCircuit c || isLoad c || isStartWebAssembly c = true ->
  count isAttachNavigation (calls _ _ _ _ (call _ _ _ _ c m))
  = count isAttachNavigation (calls _ _ _ _ m).
Proof.
  intros Hc. simpl. rewrite count_snoc.
  destruct c; simpl in *; try discriminate Hc; lia.
Qed.

(** The navigation flag and the arguments of the updates so far. *)
Local Abbreviation navigation :=
  (fun m : Module_ =>
     (isPerformingEnhancedNavigation _ _ _ _ m, updates (calls _ _ _ _ m))).

Lemma navigation_register (d : Descriptor) (m : Module_) :
  navigation (register d m) = navigation m.
Proof.
  apply (kept_register _ navigation); try reflexivity.
  - intros m' c Hc. cbv beta. rewrite (updates_start m' c Hc). reflexivity.
  - intros m'. cbv beta. simpl. rewrite updates_app. simpl. rewrite app_nil_r. reflexivity.
Qed.

Lemma navigation_boot (options : option Options) (found : list Descriptor) (m : Module_) :
  navigation (snd (boot' options found m)) = navigation m.
Proof.
  unfold boot. destruct (started _ _ _ _ m); [reflexivity |]. cbn [snd].
  rewrite (kept_registers _ navigation); try reflexivity.
  - destruct (field _ _ _ options (ssr _ _ _)) as [ssrOptions |];
      [destruct (disableDomPreservation ssrOptions) as [[|] |] |];
      simpl; rewrite !updates_app; simpl; rewrite ?app_nil_r; reflexivity.
  - intros m' c Hc. cbv beta. rewrite (updates_start m' c Hc). reflexivity.
  - intros d m'. cbv beta. simpl. rewrite updates_app. simpl. rewrite app_nil_r. reflexivity.
Qed.

Lemma navigation_resolver (m : Module_) : navigation (snd (resolver m)) = navigation m.
Proof.
  unfold autoModeResolver. destruct (hasWebAssemblyLoaded _ _ _ _ m); cbn [snd].
  - apply (kept_startWebAssemblyIfNotStarted _ navigation); try reflexivity.
    intros m' c Hc. cbv beta. rewrite (updates_start m' c Hc). reflexivity.
  - apply (kept_startCircuitIfNotStarted _ navigation); try reflexivity.
    intros m' c Hc. cbv beta. rewrite (updates_start m' c Hc). reflexivity.
Qed.

Lemma outside_navigation_step (m : Module_) (e : Event) :
  e <> call_beforeEnhancedNavigation _ _ _ _ ->
  isPerformingEnhancedNavigation _ _ _ _ m = false ->
  Forall (eq true) (updates (calls _ _ _ _ m)) ->
  isPerformingEnhancedNavigation _ _ _ _ (step' m e) = false
  /\ Forall (eq true) (updates (calls _ _ _ _ (step' m e))).
Proof.
  intros He Hflag Hupdates.
  assert (Hkept : forall m', navigation m' = navigation m ->
                             isPerformingEnhancedNavigation _ _ _ _ m' = false
                             /\ Forall (eq true) (updates (calls _ _ _ _ m'))).
  { intros m' Hm'. injection Hm' as -> ->. split; assumption. }
  assert (Hupdated : forall m', navigation m' = navigation m ->
                                Forall (eq true)
                                       (updates (calls _ _ _ _ (handleUpdatedDescriptors _ _ _ _ m')))).
  { intros m' Hm'. injection Hm' as Hflag' Hupdates'.
    unfold handleUpdatedDescriptors. simpl. rewrite updates_app, Hflag', Hflag, Hupdates'.
    simpl. apply Forall_app. split; [exact Hupdates | repeat constructor]. }
  destruct e as [options found | d | | | | | k | k]; simpl.
  - apply Hkept, navigation_boot.
  - apply Hkept, navigation_register.
  - apply Hkept, navigation_resolver.
  - contradiction.
  - split; [exact Hflag | apply Hupdated; reflexivity].
  - split; [reflexivity |]. unfold afterEnhancedNavigation, handleUpdatedDescriptors. simpl.
    rewrite updates_app. simpl. apply Forall_app. split; [exact Hupdates | repeat constructor].
  - destruct (remove_first k (awaiting _ _ _ _ m)) as [rest |]; [| split; assumption].
    destruct k; simpl.
    + split; [exact Hflag | apply Hupdated; reflexivity].
    + split; assumption.
    + split; [exact Hflag | apply Hupdated; reflexivity].
  - destruct (remove_first k (awaiting _ _ _ _ m)) as [rest |]; split; assumption.
Qed.

(** X8.  The root component manager is told to add new root components
    except during an enhanced navigation.  As long as no navigation has
    begun, every call of [handleUpdatedRootComponents] is given [true]; and
    a navigation (begun, document updated, ended) makes two calls, the one
    for the updated document with [false], the one at its end with [true],
    and leaves the flag down. *)
Theorem updates_and_navigation (events : list Event) :
  (~ In (call_beforeEnhancedNavigation _ _ _ _) events ->
   Forall (eq true) (updates (calls _ _ _ _ (run' loaded' events))))
  /\ (forall m,
        let m' := run' m [call_beforeEnhancedNavigation _ _ _ _;
                          call_afterDocumentUpdated _ _ _ _;
                          call_afterEnhancedNavigation _ _ _ _] in
        updates (calls _ _ _ _ m') = updates (calls _ _ _ _ m) ++ [false; true]
        /\ isPerformingEnhancedNavigation _ _ _ _ m' = false).
Proof.
  split.
  - intros Hnone.
    assert (Hgeneral : forall m,
               isPerformingEnhancedNavigation _ _ _ _ m = false ->
               Forall (eq true) (updates (calls _ _ _ _ m)) ->
               Forall (eq true) (updates (calls _ _ _ _ (run' m events)))).
    { induction events as [| e events IH]; intros m Hflag Hupdates; simpl; [exact Hupdates |].
      destruct (outside_navigation_step m e) as [Hflag' Hupdates']; try assumption.
      - intros ->. apply Hnone. left. reflexivity.
      - apply IH; try assumption. intros Hin. apply Hnone. right. exact Hin. }
    apply Hgeneral; [reflexivity | constructor].
  - intros m. cbv zeta. simpl.
    rewrite !updates_app. simpl. rewrite <- app_assoc. split; reflexivity.
Qed.

(** The options as [boot] has left them, and the starts made with them. *)
Local Abbreviation booted :=
  (fun (options : option Options) (m : Module_) =>
     started _ _ _ _ m = true
     /\ webStartOptions _ _ _ _ m = options
     /\ Forall (startedWith options) (calls _ _ _ _ m)).

Lemma booted_call (options : option Options) (m : Module_) (c : Call) :
  startedWith options c -> booted options m -> booted options (call _ _ _ _ c m).
Proof.
  intros Hc (Hstarted & Hoptions & Hcalls). repeat split; try assumption.
  simpl. apply Forall_app. split; [exact Hcalls | constructor; [exact Hc | constructor]].
Qed.

Lemma booted_starts (options : option Options) (m : Module_) :
  booted options m ->
  booted options (startCircuitIfNotStarted _ _ _ _ m)
  /\ booted options (startLoadingWebAssembly _ _ _ _ m)
  /\ booted options (startWebAssemblyIfNotStarted _ _ _ _ m).
Proof.
  intros Hbooted. pose proof Hbooted as (Hstarted & Hoptions & Hcalls).
  unfold startCircuitIfNotStarted, startLoadingWebAssembly, startWebAssemblyIfNotStarted.
  repeat split;
    match goal with
    | |- context [if ?guard then _ else _] => destruct guard
    end; simpl; try assumption;
    apply Forall_app; (split; [exact Hcalls |]);
    constructor; try constructor; simpl; rewrite Hoptions; reflexivity.
Qed.

Lemma booted_register (options : option Options) (d : Descriptor) (m : Module_) :
  booted options m -> booted options (register d m).
Proof.
  intros Hbooted. unfold registerComponentDescriptor.
  assert (Hcalled : booted options
                           (call _ _ _ _ (rootComponentManager_registerComponentDescriptor
                                            _ _ _ _ d) m))
    by (apply booted_call; [exact I | exact Hbooted]).
  destruct (booted_starts options _ Hcalled) as (Hcircuit & Hload & Hwasm).
  destruct (Descriptor_type d); assumption.
Qed.

Lemma booted_registers (options : option Options) (found : list Descriptor) (m : Module_) :
  booted options m -> booted options (fold_left (fun m d => register d m) found m).
Proof.
  revert m. induction found as [| d found IH]; intros m Hbooted; simpl.
  - exact Hbooted.
  - apply IH, booted_register, Hbooted.
Qed.

Lemma booted_boot (options : option Options) (found : list Descriptor) (m : Module_) :
  started _ _ _ _ m = false ->
  Forall (startedWith options) (calls _ _ _ _ m) ->
  booted options (snd (boot' options found m)).
Proof.
  intros Hstarted Hcalls. unfold boot. rewrite Hstarted. cbn [snd].
  apply booted_registers.
  assert (Hset : booted options (set_started _ _ _ _ true options m))
    by (repeat split; assumption).
  apply booted_call; [exact I |].
  destruct (field _ _ _ options (ssr _ _ _)) as [ssrOptions |];
    [destruct (disableDomPreservation ssrOptions) as [[|] |] |];
    repeat (apply booted_call; [exact I |]); exact Hset.
Qed.

Lemma booted_step (options : option Options) (m : Module_) (e : Event) :
  booted options m -> booted options (step' m e).
Proof.
  intros Hbooted. pose proof Hbooted as (Hstarted & Hoptions & Hcalls).
  destruct (booted_starts options m Hbooted) as (Hcircuit & Hload & Hwasm).
  destruct e as [options' found | d | | | | | k | k]; simpl.
  - unfold boot. rewrite Hstarted. exact Hbooted.
  - apply booted_register, Hbooted.
  - unfold autoModeResolver. destruct (hasWebAssemblyLoaded _ _ _ _ m); assumption.
  - exact Hbooted.
  - apply booted_call; [exact I | exact Hbooted].
  - unfold afterEnhancedNavigation, handleUpdatedDescriptors.
    apply booted_call; [exact I |]. exact Hbooted.
  - destruct (remove_first k (awaiting _ _ _ _ m)) as [rest |]; [| exact Hbooted].
    destruct k; simpl; unfold handleUpdatedDescriptors;
      try (apply booted_call; [exact I |]); exact Hbooted.
  - destruct (remove_first k (awaiting _ _ _ _ m)) as [rest |]; exact Hbooted.
Qed.

(** X9.  The runtimes are started with the options given to [boot]: after
    a [boot] on the module as loaded, whatever the event loop runs, every
    call of [startCircuit] has been given the [circuit] part of those
    options and every call of [loadWebAssemblyPlatform] and of
    [startWebAssembly] their [webAssembly] part; options of a later call of
    [boot] are never used. *)
Theorem runtimes_started_with_boot_options (options : option Options)
        (found : list Descriptor) (events : list Event) :
  Forall (startedWith options)
         (calls _ _ _ _ (run' loaded' (call_boot _ _ _ _ options found :: events))).
Proof.
  assert (Hgeneral : forall m, booted options m -> booted options (run' m events)).
  { induction events as [| e events IH]; intros m Hbooted; simpl; [exact Hbooted |].
    apply IH, booted_step, Hbooted. }
  change (run' loaded' (call_boot _ _ _ _ options found :: events))
    with (run' (snd (boot' options found loaded')) events).
  apply Hgeneral, booted_boot; [reflexivity | constructor].
Qed.

(** X11.  Once a [server] descriptor has been registered, the circuit
    start has been issued exactly once, however many server descriptors and
    auto decisions follow or came before. *)
Theorem circuit_started_once (events : list Event) (d : Descriptor) :
  In (call_registerComponentDescriptor _ _ _ _ d) events ->
  Descriptor_type d = server ->
  count isStartCircuit (calls _ _ _ _ (run' loaded' events)) = 1.
Proof.
  intros Hin Hserver.
  destruct (guarded_run _ Descriptor_type _ _ _ disableDomPreservation events loaded'
                        (guarded_loaded _ _ _ _)) as (_ & _ & ->).
  apply in_split in Hin. destruct Hin as (before & after & ->).
  rewrite run_app. simpl.
  destruct (advances_run _ Descriptor_type _ _ _ disableDomPreservation after
                         (register d (run' loaded' before))) as (_ & _ & _ & Hkeep & _).
  rewrite Hkeep; [reflexivity |].
  unfold registerComponentDescriptor. rewrite Hserver.
  apply advances_startCircuitIfNotStarted.
Qed.

(** X12.  [boot] attaches the listener of progressively enhanced
    navigation once, unless the options disable the preservation of the
    DOM, in which case it does not attach it. *)
Theorem boot_attaches_navigation_listener (options : option Options)
        (found : list Descriptor) (m : Module_) :
  started _ _ _ _ m = false ->
  count isAttachNavigation (calls _ _ _ _ (snd (boot' options found m)))
  = count isAttachNavigation (calls _ _ _ _ m)
    + match options with
      | Some o =>
          match ssr _ _ _ o with
          | Some ssrOptions =>
              match disableDomPreservation ssrOptions with
              | Some true => 0
              | _ => 1
              end
          | None => 1
          end
      | None => 1
      end.
Proof.
  intros Hstarted. unfold boot. rewrite Hstarted. cbn [snd].
  rewrite (kept_registers _ (fun m => count isAttachNavigation (calls _ _ _ _ m)));
    try reflexivity.
  - destruct options as [o |]; simpl;
      [destruct (ssr _ _ _ o) as [ssrOptions |];
       [destruct (disableDomPreservation ssrOptions) as [[|] |] |] |];
      simpl; rewrite !count_snoc; simpl; lia.
  - intros m' c Hc. apply attachNavigation_start, Hc.
  - intros d m'. simpl. rewrite count_snoc. simpl. lia.
Qed.

End BootMore.

(** ** The persisted states, one per search *)

Lemma states_children (node : Node) :
  Node.isComment node = false -> states node = statesOf (Node.children node).
Proof.
  assert (Hall : forall children,
             (fix all (l : list Node) : list string :=
                match l with
                | [] => []
                | child :: rest => states child ++ all rest
                end) children = statesOf children).
  { induction children as [| child children IH]; [reflexivity |].
    unfold statesOf in *. simpl. rewrite IH. reflexivity. }
  destruct node as [content | data | tagName children | children]; intros Hnode;
    try discriminate Hnode; try reflexivity; simpl; apply Hall.
Qed.

Lemma statesOf_cons (node : Node) (rest : list Node) :
  statesOf (node :: rest) = states node ++ statesOf rest.
Proof. reflexivity. Qed.

Lemma statesOf_app (a b : list Node) : statesOf (a ++ b) = statesOf a ++ statesOf b.
Proof. unfold statesOf. apply flat_map_app. Qed.

Lemma statesOf_placed (after : option Node) (rest : list Node) :
  statesOf (placed after ++ rest) = statesOf (placed after) ++ statesOf rest.
Proof. apply statesOf_app. Qed.

Lemma candidates_consume (nodes : list Node) :
  Forall consumesFirst nodes ->
  match statesOf nodes with
  | [] => discoverPersistedState_candidates nodes = (Undefined, nodes)
  | state :: rest =>
      exists nodes', discoverPersistedState_candidates nodes = (State state, nodes')
                     /\ Text.isEmpty state = false
                     /\ statesOf nodes' = rest
  end.
Proof.
  induction nodes as [| candidate rest IH]; intros Hnodes.
  - reflexivity.
  - inversion Hnodes as [| ? ? Hcandidate Hrest]; subst. specialize (IH Hrest).
    rewrite statesOf_cons. cbn [discoverPersistedState_candidates].
    unfold consumesFirst in Hcandidate.
    destruct (states candidate) as [| state others] eqn:Hstates.
    + destruct Hcandidate as (notFound & -> & HnotFound).
      assert (Hfalsy : PersistedState_truthy notFound = false)
        by (destruct HnotFound as [-> | ->]; reflexivity).
      rewrite Hfalsy. cbn [app placed].
      destruct (statesOf rest) as [| state others].
      * rewrite IH. reflexivity.
      * destruct IH as (rest' & -> & Hstate & Hothers).
        exists (candidate :: rest'). split; [reflexivity | split; [exact Hstate |]].
        rewrite statesOf_cons, Hstates, Hothers. reflexivity.
    + destruct Hcandidate as (after & -> & Hstate & Hafter).
      cbn [PersistedState_truthy]. rewrite Hstate. cbn [negb app].
      exists (placed after ++ rest). split; [reflexivity | split; [exact Hstate |]].
      rewrite statesOf_placed, Hafter. reflexivity.
Qed.

Lemma consumesFirst_parent (node : Node) :
  Node.isComment node = false ->
  discoverPersistedState node
  = match Node.children node with
    | [] => (Undefined, Some node)
    | nodes => let (found, nodes') := discoverPersistedState_candidates nodes in
               (found, Some (withChildren node nodes'))
    end ->
  withChildren node (Node.children node) = node ->
  (forall nodes', Node.isComment (withChildren node nodes') = false
                  /\ Node.children (withChildren node nodes') = nodes'
                  \/ Node.children node = []) ->
  Forall consumesFirst (Node.children node) ->
  consumesFirst node.
Proof.
  intros Hnode Hsearch Hsame Hwith Hchildren. unfold consumesFirst.
  rewrite (states_children node Hnode), Hsearch.
  pose proof (candidates_consume (Node.children node) Hchildren) as Hloop.
  destruct (statesOf (Node.children node)) as [| state rest] eqn:Hstates.
  - exists Undefined. split; [| right; reflexivity].
    destruct (Node.children node) as [| c cs] eqn:Hnodes; [reflexivity |].
    rewrite Hloop, Hsame. reflexivity.
  - destruct Hloop as (nodes' & Hloop & Hstate & Hrest).
    destruct (Node.children node) as [| c cs] eqn:Hnodes; [discriminate Hstates |].
    rewrite Hloop. eexists. split; [reflexivity | split; [exact Hstate |]].
    destruct (Hwith nodes') as [[Hcomment Hnodes'] | Hempty]; [| discriminate Hempty].
    simpl. unfold statesOf. simpl. rewrite app_nil_r.
    rewrite (states_children _ Hcomment), Hnodes'. exact Hrest.
Qed.

Lemma consumesFirst_all (node : Node) : consumesFirst node.
Proof.
  induction node as [content | data | tagName children IH | children IH] using Node_induction.
  - unfold consumesFirst. rewrite discoverPersistedState_children. simpl.
    destruct (Text.blazorStateCommentRegularExpression content) as [state |] eqn:Hregex.
    + destruct (blazorStateCommentRegularExpression_state _ _ Hregex) as (Hempty & _).
      rewrite Hempty. cbn [negb]. exists None.
      split; [reflexivity | split; reflexivity].
    + exists Null. split; [reflexivity | left; reflexivity].
  - exists Undefined. split; [reflexivity | right; reflexivity].
  - apply consumesFirst_parent; try reflexivity; [| | exact IH].
    + rewrite discoverPersistedState_children. destruct children; reflexivity.
    + intros nodes'. left. split; reflexivity.
  - apply consumesFirst_parent; try reflexivity; [| | exact IH].
    + rewrite discoverPersistedState_children. destruct children; reflexivity.
    + intros nodes'. left. split; reflexivity.
Qed.

(** X13.  Each search consumes one persisted state.  With the states of
    the persisted-state comments of a subtree listed in document order, a
    search returns the first of the list and leaves a subtree whose list is
    the rest, so that the next search returns the second; on a subtree
    without any, it returns [null] or [undefined] and leaves it as it is. *)
Theorem persisted_states_consumed (node : Node) :
  match states node with
  | [] =>
      exists notFound, discoverPersistedState node = (notFound, Some node)
                       /\ (notFound = Null \/ notFound = Undefined)
  | state :: rest =>
      exists after, discoverPersistedState node = (State state, after)
                    /\ statesOf (placed after) = rest
  end.
Proof.
  pose proof (consumesFirst_all node) as H. unfold consumesFirst in H.
  destruct (states node) as [| state rest]; [exact H |].
  destruct H as (after & Hsearch & _ & Hrest). exists after. split; assumption.
Qed.

(** On the example: two searches return the two states, a third finds
    nothing. *)
Example persisted_states_twice :
  states withStates = ["QUJD"; "REVG"]
  /\ (let (first, after1) := discoverPersistedState withStates in
      match after1 with
      | Some tree1 =>
          let (second, after2) := discoverPersistedState tree1 in
          match after2 with
          | Some tree2 =>
              first = State "QUJD" /\ second = State "REVG"
              /\ fst (discoverPersistedState tree2) = Undefined
          | None => False
          end
      | None => False
      end).
Proof. split; [reflexivity | simpl; repeat split]. Qed.

(** ** The scan, marker by marker *)

Section ScanSteps.
Variable JSON_parse : string -> option Payload.t.

Local Abbreviation create :=
  (fun (type : TargetType) (payload : Payload.t) (start : Node)
       (iterator : ComponentCommentIterator.t) =>
     match type return result (option (ComponentCommentOf type) * ComponentCommentIterator.t) with
     | target_webassembly =>
         createWebAssemblyComponentComment JSON_parse payload start iterator
     | target_server => createServerComponentComment JSON_parse payload start iterator
     end).

(** The two [create...Comment] functions settle the end marker and then
    build the comment. *)
Lemma create_commentOf (type : TargetType) (payload : Payload.t) (start : Node)
      (iterator : ComponentCommentIterator.t) :
  create type payload start iterator
  = (let* (end_, iterator') := endOf JSON_parse (Payload.prerenderId payload) start iterator in
     let* componentComment := commentOf type payload start end_ in
     Return (componentComment, iterator')).
Proof.
  destruct type; unfold createWebAssemblyComponentComment, createServerComponentComment,
                 commentOf, webAssemblyComment, serverComment;
    destruct (endOf JSON_parse (Payload.prerenderId payload) start iterator)
      as [[end_ iterator'] | e |]; cbn [bind]; try reflexivity.
  - destruct (negb (equals (Payload.type payload) "webassembly")); [reflexivity |].
    destruct (Payload.assembly payload) as [assembly |]; [| reflexivity].
    destruct (Text.isEmpty assembly); [reflexivity |].
    destruct (Payload.typeName payload) as [typeName |]; [| reflexivity].
    destruct (Text.isEmpty typeName); [reflexivity |].
    destruct (decoded (Payload.parameterDefinitions payload)); cbn [bind]; try reflexivity.
    destruct (decoded (Payload.parameterValues payload)); reflexivity.
  - destruct (negb (equals (Payload.type payload) "server")); [reflexivity |].
    destruct (Payload.descriptor payload) as [descriptor |]; [| reflexivity].
    destruct (Text.isEmpty descriptor); [reflexivity |].
    destruct (Payload.sequence payload) as [[sequence |] |]; reflexivity.
Qed.

Lemma endOf_unpaired (prerenderId : option string) (start : Node)
      (iterator : ComponentCommentIterator.t) :
  truthy prerenderId = false ->
  endOf JSON_parse prerenderId start iterator = Return (None, iterator).
Proof.
  unfold endOf, truthy. intros Hfalsy.
  destruct prerenderId as [id |]; [| reflexivity].
  destruct (Text.isEmpty id); [reflexivity | discriminate Hfalsy].
Qed.

Lemma commentOf_total (type : TargetType) (payload : Payload.t) (start : Node)
      (end_ : option Node) :
  commentOf type payload start end_ <> OutOfFuel.
Proof.
  destruct type; unfold commentOf, webAssemblyComment, serverComment.
  - destruct (negb (equals (Payload.type payload) "webassembly")); [discriminate |].
    destruct (Payload.assembly payload) as [assembly |]; [| discriminate].
    destruct (Text.isEmpty assembly); [discriminate |].
    destruct (Payload.typeName payload) as [typeName |]; [| discriminate].
    destruct (Text.isEmpty typeName); [discriminate |].
    pose proof (decoded_total (Payload.parameterDefinitions payload)).
    pose proof (decoded_total (Payload.parameterValues payload)).
    destruct (decoded (Payload.parameterDefinitions payload)); cbn [bind];
      try discriminate; try contradiction.
    destruct (decoded (Payload.parameterValues payload)); cbn [bind];
      try discriminate; try contradiction.
  - destruct (negb (equals (Payload.type payload) "server")); [discriminate |].
    destruct (Payload.descriptor payload) as [descriptor |]; [| discriminate].
    destruct (Text.isEmpty descriptor); [discriminate |].
    destruct (Payload.sequence payload) as [[sequence |] |]; discriminate.
Qed.

(** A payload of the target type that lacks a required field gives no
    comment, whatever its end marker. *)
Lemma commentOf_lacksRequired (type : TargetType) (payload : Payload.t) (start : Node)
      (end_ : option Node) :
  Payload.type payload = Some (typeOf type) ->
  lacksRequired type payload ->
  exists e, commentOf type payload start end_ = Throw e.
Proof.
  intros Htype Hlacks.
  destruct type; unfold commentOf, webAssemblyComment, serverComment;
    rewrite Htype; cbn [typeOf equals]; rewrite String.eqb_refl; cbn [negb];
    unfold lacksRequired, truthy in Hlacks.
  - destruct (Payload.assembly payload) as [assembly |]; [| eexists; reflexivity].
    destruct (Text.isEmpty assembly); [eexists; reflexivity |].
    destruct (Payload.typeName payload) as [typeName |]; [| eexists; reflexivity].
    destruct (Text.isEmpty typeName); [eexists; reflexivity |].
    destruct Hlacks as [H | [H | [[e H] | [e H]]]]; try discriminate H.
    + rewrite H. eexists. reflexivity.
    + pose proof (decoded_total (Payload.parameterDefinitions payload)).
      destruct (decoded (Payload.parameterDefinitions payload)); cbn [bind];
        try contradiction; [| eexists; reflexivity].
      rewrite H. eexists. reflexivity.
  - destruct (Payload.descriptor payload) as [descriptor |]; [| eexists; reflexivity].
    destruct (Text.isEmpty descriptor); [eexists; reflexivity |].
    destruct Hlacks as [H | [H | H]]; try discriminate H; rewrite H; eexists; reflexivity.
Qed.

Lemma getComponentComment_on_document (iterator : ComponentCommentIterator.t)
      (type : TargetType) (text json : string) :
  ComponentCommentIterator.currentElement iterator = Some (Comment text) ->
  markerJson (Comment text) = Some json ->
  Node.isDocument (parentNode (ComponentCommentIterator.childNodes iterator)) = true ->
  getComponentComment JSON_parse iterator type = Throw RootComponentOnDocument.
Proof.
  intros Hcurrent Hmarker Hparent.
  destruct (markerJson_comment text json Hmarker) as (Htext & Hregex & Hjson).
  unfold getComponentComment. rewrite Hcurrent. simpl.
  rewrite Htext, Hregex, Hjson.
  unfold assertNotDirectlyOnDocument. rewrite Hparent. reflexivity.
Qed.

(** What [getComponentComment] does at a marker comment that is not
    directly on the document, in terms of the three steps. *)
Lemma getComponentComment_steps (iterator : ComponentCommentIterator.t)
      (type : TargetType) (text json : string) :
  ComponentCommentIterator.currentElement iterator = Some (Comment text) ->
  markerJson (Comment text) = Some json ->
  Node.isDocument (parentNode (ComponentCommentIterator.childNodes iterator)) = false ->
  getComponentComment JSON_parse iterator type
  = try_catch_rethrow
      (let* payload := parseCommentPayload JSON_parse json in
       let* (end_, iterator') :=
         endOf JSON_parse (Payload.prerenderId payload) (Comment text) iterator in
       let* componentComment := commentOf type payload (Comment text) end_ in
       Return (componentComment, iterator'))
      (MalformedComponentComment text).
Proof.
  intros Hcurrent Hmarker Hparent.
  rewrite (getComponentComment_marker JSON_parse iterator type text json Hcurrent Hmarker Hparent).
  destruct (parseCommentPayload JSON_parse json) as [payload | e |]; cbn [bind];
    try reflexivity.
  rewrite <- create_commentOf. destruct type; reflexivity.
Qed.

End ScanSteps.

(** ** The scan does not depend on its fuel *)

Section ScanFuel.
Variable JSON_parse : string -> option Payload.t.

Local Abbreviation resolveLoop := (resolveComponentComments_loop JSON_parse).

Lemma resolveComponentComments_loop_step (fuel : nat) (type : TargetType)
      (directChildrenOnly : bool) (iterator : ComponentCommentIterator.t)
      (result_ : list (ComponentCommentOf type)) :
  resolveLoop (S fuel) type directChildrenOnly iterator result_
  = (let (more, childNodeIterator) := ComponentCommentIterator.next iterator in
     match more, ComponentCommentIterator.currentElement childNodeIterator with
     | true, Some _ =>
         let* (componentComment, childNodeIterator) :=
           getComponentComment JSON_parse childNodeIterator type in
         match componentComment with
         | Some componentComment =>
             resolveLoop fuel type directChildrenOnly childNodeIterator
                         (result_ ++ [componentComment])
         | None =>
             if directChildrenOnly then
               resolveLoop fuel type directChildrenOnly childNodeIterator result_
             else
               match ComponentCommentIterator.currentElement childNodeIterator with
               | None => Throw TypeError
               | Some currentElement =>
                   if Node.hasChildNodes currentElement then
                     let* childResults :=
                       resolveLoop fuel type false
                                   (ComponentCommentIterator.new (childNodes currentElement))
                                   [] in
                     resolveLoop fuel type directChildrenOnly childNodeIterator
                                 (result_ ++ childResults)
                   else
                     resolveLoop fuel type directChildrenOnly childNodeIterator result_
               end
         end
     | _, _ => Return result_
     end).
Proof. reflexivity. Qed.

Lemma resolveComponentComments_loop_more_fuel (fuel : nat) :
  forall (type : TargetType) (directChildrenOnly : bool)
         (iterator : ComponentCommentIterator.t) (result_ : list (ComponentCommentOf type)),
    resolveLoop fuel type directChildrenOnly iterator result_ <> OutOfFuel ->
    resolveLoop (S fuel) type directChildrenOnly iterator result_
    = resolveLoop fuel type directChildrenOnly iterator result_.
Proof.
  induction fuel as [| fuel IH]; intros type directChildrenOnly iterator result_ Henough.
  - exfalso. apply Henough. reflexivity.
  - revert Henough.
    rewrite (resolveComponentComments_loop_step (S fuel)),
      (resolveComponentComments_loop_step fuel type directChildrenOnly iterator result_).
    destruct (ComponentCommentIterator.next iterator) as [more iterator1].
    destruct more; [| reflexivity].
    destruct (ComponentCommentIterator.currentElement iterator1); [| reflexivity].
    destruct (getComponentComment JSON_parse iterator1 type)
      as [[componentComment iterator2] | e |]; cbn [bind]; try reflexivity.
    destruct componentComment as [componentComment |]; [apply IH |].
    destruct directChildrenOnly; [apply IH |].
    destruct (ComponentCommentIterator.currentElement iterator2) as [currentElement |];
      [| reflexivity].
    destruct (Node.hasChildNodes currentElement); [| apply IH].
    destruct (resolveLoop fuel type false
                          (ComponentCommentIterator.new (childNodes currentElement)) [])
      as [childResults | e |] eqn:Hchildren.
    + rewrite IH by (rewrite Hchildren; discriminate). rewrite Hchildren. cbn [bind]. apply IH.
    + rewrite IH by (rewrite Hchildren; discriminate). rewrite Hchildren. reflexivity.
    + intros Henough. exfalso. apply Henough. reflexivity.
Qed.

Lemma resolveComponentComments_loop_any_more_fuel (more fuel : nat) (type : TargetType)
      (directChildrenOnly : bool) (iterator : ComponentCommentIterator.t)
      (result_ : list (ComponentCommentOf type)) :
  resolveLoop fuel type directChildrenOnly iterator result_ <> OutOfFuel ->
  resolveLoop (more + fuel) type directChildrenOnly iterator result_
  = resolveLoop fuel type directChildrenOnly iterator result_.
Proof.
  intros Henough. induction more as [| more IH]; [reflexivity |].
  change (S more + fuel) with (S (more + fuel)).
  rewrite resolveComponentComments_loop_more_fuel; rewrite IH; auto.
Qed.

(** Whatever fuel lets the loop end gives what [resolveComponentComments]
    returns. *)
Lemma resolveComponentComments_by_fuel (fuel : nat) (nodes : NodeList) (type : TargetType)
      (directChildrenOnly : bool) :
  resolveLoop fuel type directChildrenOnly (ComponentCommentIterator.new nodes) []
  <> OutOfFuel ->
  resolveComponentComments JSON_parse nodes type directChildrenOnly
  = resolveLoop fuel type directChildrenOnly (ComponentCommentIterator.new nodes) [].
Proof.
  intros Henough.
  pose proof (resolveComponentComments_fuel_enough JSON_parse nodes type directChildrenOnly)
    as Hown.
  unfold resolveComponentComments in *.
  set (own := S (Node.sizes (items nodes))) in *.
  rewrite <- (resolveComponentComments_loop_any_more_fuel fuel own) by exact Hown.
  rewrite <- (resolveComponentComments_loop_any_more_fuel own fuel) by exact Henough.
  f_equal. lia.
Qed.

End ScanFuel.

(** ** The scan of a subtree without prerendered markers *)

Section ScanUnpaired.
Variable JSON_parse : string -> option Payload.t.

Local Abbreviation resolveLoop := (resolveComponentComments_loop JSON_parse).

Lemma markerJson_some (node : Node) (json : string) :
  markerJson node = Some json -> exists text, node = Comment text.
Proof. destruct node; simpl; intros H; try discriminate H. eexists. reflexivity. Qed.

Lemma scanNode_marker (type : TargetType) (directChildrenOnly : bool) (parent : Node)
      (text json : string) :
  markerJson (Comment text) = Some json ->
  scanNode JSON_parse type directChildrenOnly parent (Comment text)
  = if Node.isDocument parent then Throw RootComponentOnDocument
    else
      try_catch_rethrow
        (let* payload := parseCommentPayload JSON_parse json in
         let* componentComment := commentOf type payload (Comment text) None in
         Return (listed componentComment))
        (MalformedComponentComment text).
Proof.
  intros Hmarker. cbn [scanNode]. rewrite Hmarker. reflexivity.
Qed.

Lemma scanNode_no_marker (type : TargetType) (directChildrenOnly : bool) (parent node : Node) :
  markerJson node = None ->
  scanNode JSON_parse type directChildrenOnly parent node
  = if directChildrenOnly then Return []
    else scanNodes JSON_parse type false node (Node.children node).
Proof.
  intros Hmarker.
  assert (Hall : forall children,
             (fix scanAll (l : list Node) : result (list (ComponentCommentOf type)) :=
                match l with
                | [] => Return []
                | child :: rest =>
                    let* found := scanNode JSON_parse type false node child in
                    let* others := scanAll rest in
                    Return (found ++ others)
                end) children
             = scanNodes JSON_parse type false node children).
  { induction children as [| child children IH]; [reflexivity |].
    cbn [scanNodes]. rewrite <- IH. reflexivity. }
  destruct node as [text | data | tagName children | children];
    cbn [scanNode]; rewrite ?Hmarker; cbn [markerJson Node.children];
    destruct directChildrenOnly; try reflexivity; apply Hall.
Qed.

Lemma hasPrerendered_children (node : Node) :
  markerJson node = None ->
  hasPrerendered JSON_parse node = anyPrerendered JSON_parse (Node.children node).
Proof.
  intros Hmarker.
  assert (Hany : forall children,
             (fix any (l : list Node) : bool :=
                match l with
                | [] => false
                | child :: rest => hasPrerendered JSON_parse child || any rest
                end) children
             = anyPrerendered JSON_parse children).
  { induction children as [| child children IH]; [reflexivity |].
    unfold anyPrerendered in *. simpl. rewrite IH. reflexivity. }
  destruct node as [text | data | tagName children | children]; cbn [hasPrerendered];
    rewrite ?Hmarker; try reflexivity; apply Hany.
Qed.

Lemma anyPrerendered_children (node : Node) :
  hasPrerendered JSON_parse node = false ->
  anyPrerendered JSON_parse (Node.children node) = false.
Proof.
  intros Hunpaired.
  destruct (markerJson node) as [json |] eqn:Hmarker.
  - destruct (markerJson_some node json Hmarker) as [text ->]. reflexivity.
  - rewrite <- (hasPrerendered_children node Hmarker). exact Hunpaired.
Qed.

Lemma parseCommentPayload_returns (json : string) (payload : Payload.t) :
  parseCommentPayload JSON_parse json = Return payload -> JSON_parse json = Some payload.
Proof.
  unfold parseCommentPayload, parse.
  destruct (JSON_parse json) as [p |]; cbn [bind]; [| discriminate].
  destruct (_ && _); [discriminate |]. intros H. injection H as ->. reflexivity.
Qed.

Lemma hasChildNodes_children (node : Node) :
  Node.hasChildNodes node = false -> Node.children node = [].
Proof. unfold Node.hasChildNodes. destruct (Node.children node); [reflexivity | discriminate]. Qed.

Ltac finish_scan :=
  repeat match goal with
         | |- context [bind ?r _] =>
             match r with
             | Return _ => cbn [bind]
             | Throw _ => cbn [bind]
             | OutOfFuel => cbn [bind]
             | _ => destruct r; cbn [bind]
             end
         end;
  rewrite <- ?app_assoc, ?app_nil_r; try reflexivity.

(** One turn of the loop on a sibling without prerendered markers, given
    what the recursive call on its children returns. *)
Lemma resolveComponentComments_loop_unpaired (fuel : nat) (type : TargetType)
      (directChildrenOnly : bool) (iterator : ComponentCommentIterator.t)
      (result_ : list (ComponentCommentOf type)) (current : Node) (rest : list Node) :
  wellFormed iterator ->
  ahead iterator = current :: rest ->
  hasPrerendered JSON_parse current = false ->
  resolveLoop fuel type false (ComponentCommentIterator.new (childNodes current)) []
  = scanNodes JSON_parse type false current (Node.children current) ->
  resolveLoop (S fuel) type directChildrenOnly iterator result_
  = (let* found :=
       scanNode JSON_parse type directChildrenOnly
                (parentNode (ComponentCommentIterator.childNodes iterator)) current in
     resolveLoop fuel type directChildrenOnly
                 (moved iterator (ComponentCommentIterator.currentIndex iterator + 1))
                 (result_ ++ found)).
Proof.
  intros Hwf Hahead Hunpaired Hchildren.
  rewrite resolveComponentComments_loop_step.
  destruct (next_cons iterator current rest Hwf Hahead) as (-> & Hcurrent & Hahead1 & Hwf1).
  set (iterator1 := moved iterator (ComponentCommentIterator.currentIndex iterator + 1)) in *.
  rewrite Hcurrent.
  destruct (markerJson current) as [json |] eqn:Hmarker.
  - destruct (markerJson_some current json Hmarker) as [text ->].
    rewrite (scanNode_marker type directChildrenOnly _ text json Hmarker).
    destruct (Node.isDocument (parentNode (ComponentCommentIterator.childNodes iterator)))
      eqn:Hdocument.
    + rewrite (getComponentComment_on_document JSON_parse iterator1 type text json
                                               Hcurrent Hmarker Hdocument).
      reflexivity.
    + rewrite (getComponentComment_steps JSON_parse iterator1 type text json
                                         Hcurrent Hmarker Hdocument).
      destruct (parseCommentPayload JSON_parse json) as [payload | e |] eqn:Hparse;
        cbn [bind try_catch_rethrow]; try reflexivity.
      apply parseCommentPayload_returns in Hparse.
      cbn [hasPrerendered] in Hunpaired. rewrite Hmarker, Hparse in Hunpaired.
      rewrite (endOf_unpaired JSON_parse _ (Comment text) iterator1 Hunpaired).
      cbn [bind].
      destruct (commentOf type payload (Comment text) None) as [[c |] | e |];
        cbn [bind try_catch_rethrow listed]; try reflexivity; rewrite app_nil_r.
      destruct directChildrenOnly; [reflexivity |].
      rewrite Hcurrent. reflexivity.
  - rewrite (getComponentComment_no_marker JSON_parse iterator1 type current Hcurrent Hmarker).
    cbn [bind]. rewrite (scanNode_no_marker type directChildrenOnly _ current Hmarker).
    destruct directChildrenOnly; [cbn [bind]; rewrite app_nil_r; reflexivity |].
    rewrite Hcurrent.
    destruct (Node.hasChildNodes current) eqn:Hhas.
    + rewrite Hchildren. reflexivity.
    + rewrite (hasChildNodes_children current Hhas). cbn [scanNodes bind].
      rewrite app_nil_r. reflexivity.
Qed.

(** On siblings without prerendered markers the loop gives what the scan
    in document order gives. *)
Lemma resolveComponentComments_loop_scan (fuel : nat) :
  forall (type : TargetType) (directChildrenOnly : bool)
         (iterator : ComponentCommentIterator.t) (result_ : list (ComponentCommentOf type)),
    wellFormed iterator ->
    anyPrerendered JSON_parse (ahead iterator) = false ->
    Node.sizes (ahead iterator) < fuel ->
    resolveLoop fuel type directChildrenOnly iterator result_
    = (let* found :=
         scanNodes JSON_parse type directChildrenOnly
                   (parentNode (ComponentCommentIterator.childNodes iterator))
                   (ahead iterator) in
       Return (result_ ++ found)).
Proof.
  induction fuel as [| fuel IH];
    intros type directChildrenOnly iterator result_ Hwf Hunpaired Hfuel; [lia |].
  destruct (ahead iterator) as [| current rest] eqn:Hahead.
  - rewrite resolveComponentComments_loop_step.
    destruct (next_nil iterator Hwf Hahead) as (iterator' & -> & Hcurrent).
    cbn [scanNodes bind]. rewrite app_nil_r. reflexivity.
  - destruct (next_cons iterator current rest Hwf Hahead) as (_ & _ & Hahead1 & Hwf1).
    unfold anyPrerendered in Hunpaired. cbn [existsb] in Hunpaired.
    apply orb_false_elim in Hunpaired. destruct Hunpaired as [Hcurrent_unpaired Hrest_unpaired].
    rewrite sizes_cons in Hfuel. pose proof (size_positive current) as Hpositive.
    pose proof (size_children current) as Hsize.
    destruct (wellFormed_new (childNodes current)) as [Hwf2 Hahead2].
    rewrite (resolveComponentComments_loop_unpaired
               fuel type directChildrenOnly iterator result_ current rest
               Hwf Hahead Hcurrent_unpaired).
    + cbn [scanNodes].
      destruct (scanNode JSON_parse type directChildrenOnly _ current) as [found | e |];
        cbn [bind]; try reflexivity.
      rewrite (IH type directChildrenOnly _ (result_ ++ found) Hwf1);
        rewrite Hahead1; [| exact Hrest_unpaired | lia].
      change (parentNode (ComponentCommentIterator.childNodes
                            (moved iterator (ComponentCommentIterator.currentIndex iterator + 1))))
        with (parentNode (ComponentCommentIterator.childNodes iterator)).
      finish_scan.
    + rewrite (IH type false _ [] Hwf2); rewrite Hahead2;
        change (items (childNodes current)) with (Node.children current).
      * change (parentNode (ComponentCommentIterator.childNodes
                              (ComponentCommentIterator.new (childNodes current))))
          with current.
        destruct (scanNodes JSON_parse type false current (Node.children current));
          reflexivity.
      * apply anyPrerendered_children, Hcurrent_unpaired.
      * lia.
Qed.

End ScanUnpaired.

(** ** What the discovery returns *)

Section Discovered.
Variable JSON_parse : string -> option Payload.t.

Local Abbreviation resolveLoop := (resolveComponentComments_loop JSON_parse).

Lemma parseCommentPayload_total (json : string) :
  parseCommentPayload JSON_parse json <> OutOfFuel.
Proof.
  unfold parseCommentPayload, parse.
  destruct (JSON_parse json) as [payload |]; cbn [bind]; [| discriminate].
  destruct (_ && _); discriminate.
Qed.

Lemma scanNodes_total_of (type : TargetType) (nodes : list Node) :
  Forall (fun node => forall directChildrenOnly parent,
              scanNode JSON_parse type directChildrenOnly parent node <> OutOfFuel) nodes ->
  forall directChildrenOnly parent,
    scanNodes JSON_parse type directChildrenOnly parent nodes <> OutOfFuel.
Proof.
  induction 1 as [| node nodes Hnode _ IH]; intros directChildrenOnly parent;
    cbn [scanNodes]; [discriminate |].
  specialize (Hnode directChildrenOnly parent). specialize (IH directChildrenOnly parent).
  destruct (scanNode JSON_parse type directChildrenOnly parent node); cbn [bind];
    [| discriminate | contradiction].
  destruct (scanNodes JSON_parse type directChildrenOnly parent nodes); cbn [bind];
    [discriminate | discriminate | contradiction].
Qed.

Lemma scanNode_total (type : TargetType) (node : Node) :
  forall directChildrenOnly parent,
    scanNode JSON_parse type directChildrenOnly parent node <> OutOfFuel.
Proof.
  assert (Hmarker : forall text json directChildrenOnly parent,
             markerJson (Comment text) = Some json ->
             scanNode JSON_parse type directChildrenOnly parent (Comment text) <> OutOfFuel).
  { intros text json directChildrenOnly parent Hjson.
    rewrite (scanNode_marker JSON_parse type directChildrenOnly parent text json Hjson).
    destruct (Node.isDocument parent); [discriminate |].
    pose proof (parseCommentPayload_total json) as Hparse.
    destruct (parseCommentPayload JSON_parse json) as [payload | e |];
      cbn [bind try_catch_rethrow]; [| discriminate | contradiction].
    pose proof (commentOf_total type payload (Comment text) None) as Hcomment.
    destruct (commentOf type payload (Comment text) None);
      cbn [bind try_catch_rethrow]; [discriminate | discriminate | contradiction]. }
  assert (Hparent : forall node,
             Forall (fun child => forall directChildrenOnly parent,
                         scanNode JSON_parse type directChildrenOnly parent child <> OutOfFuel)
                    (Node.children node) ->
             forall directChildrenOnly parent,
               scanNode JSON_parse type directChildrenOnly parent node <> OutOfFuel).
  { intros node0 Hchildren directChildrenOnly parent.
    destruct (markerJson node0) as [json |] eqn:Hjson.
    - destruct (markerJson_some node0 json Hjson) as [text ->].
      apply (Hmarker text json), Hjson.
    - rewrite (scanNode_no_marker JSON_parse type directChildrenOnly parent node0 Hjson).
      destruct directChildrenOnly; [discriminate |].
      apply scanNodes_total_of, Hchildren. }
  induction node as [content | data | tagName children IH | children IH] using Node_induction;
    apply Hparent; cbn [Node.children]; try constructor; exact IH.
Qed.

Lemma scanNodes_total (type : TargetType) (directChildrenOnly : bool) (parent : Node)
      (nodes : list Node) :
  scanNodes JSON_parse type directChildrenOnly parent nodes <> OutOfFuel.
Proof.
  apply scanNodes_total_of. apply Forall_forall. intros node _. apply scanNode_total.
Qed.

(** Without prerendered markers under [root], [resolveComponentComments]
    is the scan in document order. *)
Lemma resolveComponentComments_scan (root : Node) (type : TargetType)
      (directChildrenOnly : bool) :
  anyPrerendered JSON_parse (Node.children root) = false ->
  resolveComponentComments JSON_parse (childNodes root) type directChildrenOnly
  = scanNodes JSON_parse type directChildrenOnly root (Node.children root).
Proof.
  intros Hunpaired. unfold resolveComponentComments.
  destruct (wellFormed_new (childNodes root)) as [Hwf Hahead].
  rewrite (resolveComponentComments_loop_scan JSON_parse _ type directChildrenOnly _ [] Hwf);
    rewrite Hahead; change (items (childNodes root)) with (Node.children root).
  - change (parentNode (ComponentCommentIterator.childNodes
                          (ComponentCommentIterator.new (childNodes root)))) with root.
    destruct (scanNodes JSON_parse type directChildrenOnly root (Node.children root));
      reflexivity.
  - exact Hunpaired.
  - lia.
Qed.

Lemma discoverComponents_throws (globalId : Z) (root : Node) (type : TargetType)
      (directChildrenOnly : bool) (e : Error) :
  resolveComponentComments JSON_parse (childNodes root) type directChildrenOnly = Throw e ->
  discoverComponents JSON_parse globalId root type directChildrenOnly = Throw e.
Proof.
  intros Hresolve. unfold discoverComponents.
  destruct (Node.hasChildNodes root) eqn:Hchildren; cbn [negb].
  - unfold discoverComponentsFromNodeList, discoverWebAssemblyComponents,
      discoverServerComponents.
    destruct type; rewrite Hresolve; reflexivity.
  - rewrite (resolveComponentComments_childless JSON_parse root type directChildrenOnly Hchildren)
      in Hresolve.
    discriminate Hresolve.
Qed.

Lemma discoverComponents_returns (globalId : Z) (root : Node) (type : TargetType)
      (directChildrenOnly : bool) (comments : list (ComponentCommentOf type)) :
  resolveComponentComments JSON_parse (childNodes root) type directChildrenOnly
  = Return comments ->
  discoverComponents JSON_parse globalId root type directChildrenOnly
  = Return (discovered globalId type comments).
Proof.
  intros Hresolve. unfold discoverComponents, discovered.
  destruct (Node.hasChildNodes root) eqn:Hchildren; cbn [negb].
  - unfold discoverComponentsFromNodeList, discoverWebAssemblyComponents,
      discoverServerComponents.
    destruct type; rewrite Hresolve; cbn [bind]; [| reflexivity].
    destruct (webAssemblyEntries_ids comments globalId) as (Hcounter & _ & _).
    cbn [entries globalIdAfter].
    destruct (webAssemblyEntries globalId comments) as [entries_ globalId'].
    cbn [fst snd] in *. rewrite Hcounter. reflexivity.
  - rewrite (resolveComponentComments_childless JSON_parse root type directChildrenOnly Hchildren)
      in Hresolve.
    injection Hresolve as <-.
    destruct type; cbn [entries globalIdAfter List.length webAssemblyEntries map fst Array_sort];
      rewrite ?Z.add_0_r; reflexivity.
Qed.

End Discovered.

Section DiscoveryProperties.
Variable JSON_parse : string -> option Payload.t.

Local Abbreviation resolveLoop := (resolveComponentComments_loop JSON_parse).

(** X14.  Under a root none of whose markers carries a truthy
    [prerenderId], the discovery is the scan of the subtree in document
    order: every marker comment of the target type gives one comment, the
    markers of the other type give none, the children of every other node
    are scanned in turn unless [directChildrenOnly] is set, and the first
    marker in that order that is directly on the document, or malformed,
    ends the discovery with its error.  The comments found are turned into
    descriptors and sorted, and the counter of local-execution identities
    advances by their number. *)
Theorem discovery_in_document_order (globalId : Z) (root : Node) (type : TargetType)
        (directChildrenOnly : bool) :
  anyPrerendered JSON_parse (Node.children root) = false ->
  discoverComponents JSON_parse globalId root type directChildrenOnly
  = (let* comments :=
       scanNodes JSON_parse type directChildrenOnly root (Node.children root) in
     Return (discovered globalId type comments)).
Proof.
  intros Hunpaired.
  pose proof (resolveComponentComments_scan JSON_parse root type directChildrenOnly Hunpaired)
    as Hresolve.
  pose proof (scanNodes_total JSON_parse type directChildrenOnly root (Node.children root))
    as Htotal.
  destruct (scanNodes JSON_parse type directChildrenOnly root (Node.children root))
    as [comments | e |]; cbn [bind].
  - apply discoverComponents_returns, Hresolve.
  - apply discoverComponents_throws, Hresolve.
  - contradiction.
Qed.

Lemma webAssemblyEntries_consecutive (componentComments : list WebAssemblyComponentComment.t) :
  forall globalId : Z,
    map WebAssemblyComponentDescriptor.id (fst (webAssemblyEntries globalId componentComments))
    = consecutive globalId (List.length componentComments).
Proof.
  induction componentComments as [| componentComment rest IH]; intros globalId;
    [reflexivity |].
  cbn [webAssemblyEntries]. unfold webAssemblyEntry, WebAssemblyComponentDescriptor.new.
  specialize (IH (globalId + 1)%Z).
  destruct (webAssemblyEntries (globalId + 1) rest) as [entries_ globalId'].
  cbn [fst map List.length consecutive] in *. rewrite IH. reflexivity.
Qed.

(** X15.  A discovery for local execution that returns gives its
    descriptors the identities [globalId], [globalId + 1], ... in the order
    in which it returns them, and leaves the static counter after the last
    of them; so the identities of two discoveries never coincide. *)
Theorem local_execution_identities (globalId : Z) (root : Node) (directChildrenOnly : bool)
        (descriptors : list WebAssemblyComponentDescriptor.t) (globalId' : Z) :
  discoverComponents JSON_parse globalId root target_webassembly directChildrenOnly
  = Return (descriptors, globalId') ->
  map WebAssemblyComponentDescriptor.id descriptors
  = consecutive globalId (List.length descriptors)
  /\ globalId' = (globalId + Z.of_nat (List.length descriptors))%Z.
Proof.
  intros Hdiscover.
  destruct (resolveComponentComments JSON_parse (childNodes root) target_webassembly
                                     directChildrenOnly) as [comments | e |] eqn:Hresolve.
  - rewrite (discoverComponents_returns JSON_parse globalId root target_webassembly
                                        directChildrenOnly comments Hresolve) in Hdiscover.
    unfold discovered in Hdiscover. cbn [entries globalIdAfter] in Hdiscover.
    destruct (webAssemblyEntries_ids comments globalId) as (_ & _ & Hsorted).
    rewrite (Array_sort_of_ascending (orderingKey target_webassembly) _ Hsorted) in Hdiscover.
    injection Hdiscover as <- <-.
    rewrite webAssemblyEntries_consecutive.
    rewrite <- (length_map WebAssemblyComponentDescriptor.id
                           (fst (webAssemblyEntries globalId comments))).
    rewrite webAssemblyEntries_consecutive.
    assert (Hlength : forall from n, List.length (consecutive from n) = n).
    { intros from n. revert from. induction n as [| n IH]; intros from; simpl;
        [reflexivity | rewrite IH; reflexivity]. }
    rewrite Hlength. split; reflexivity.
  - rewrite (discoverComponents_throws JSON_parse globalId root target_webassembly
                                       directChildrenOnly e Hresolve) in Hdiscover.
    discriminate Hdiscover.
  - exfalso. exact (resolveComponentComments_fuel_enough JSON_parse _ _ _ Hresolve).
Qed.

End DiscoveryProperties.

(** ** Direct children *)

Section MarkerPairs.
Variable JSON_parse : string -> option Payload.t.

Local Abbreviation resolveLoop := (resolveComponentComments_loop JSON_parse).

(** With [directChildrenOnly], the loop returns what it has when none of
    the siblings ahead is a marker comment. *)
Lemma resolveComponentComments_loop_direct (nodes : list Node) :
  forall (fuel : nat) (type : TargetType) (iterator : ComponentCommentIterator.t)
         (result_ : list (ComponentCommentOf type)),
    wellFormed iterator ->
    ahead iterator = nodes ->
    Forall (fun node => markerJson node = None) nodes ->
    List.length nodes < fuel ->
    resolveLoop fuel type true iterator result_ = Return result_.
Proof.
  induction nodes as [| node nodes IH]; intros fuel type iterator result_ Hwf Hahead Hnone Hfuel;
    (destruct fuel as [| fuel]; [simpl in Hfuel; lia |]);
    rewrite resolveComponentComments_loop_step.
  - destruct (next_nil iterator Hwf Hahead) as (iterator' & -> & _). reflexivity.
  - inversion Hnone as [| ? ? Hnode Hnodes]; subst.
    destruct (next_cons iterator node nodes Hwf Hahead) as (-> & Hcurrent & Hahead1 & Hwf1).
    rewrite Hcurrent.
    rewrite (getComponentComment_no_marker JSON_parse _ type node Hcurrent Hnode).
    cbn [bind]. apply IH; [exact Hwf1 | exact Hahead1 | exact Hnodes | simpl in Hfuel; lia].
Qed.

(** X21.  With [directChildrenOnly], the discovery does not descend: when
    no child of the root is a marker comment it returns no descriptor and
    leaves the counter, whatever markers the children contain, well formed
    or not. *)
Theorem direct_children_only (globalId : Z) (root : Node) (type : TargetType) :
  Forall (fun node => markerJson node = None) (Node.children root) ->
  discoverComponents JSON_parse globalId root type true = Return ([], globalId).
Proof.
  intros Hnone.
  rewrite (discoverComponents_returns JSON_parse globalId root type true []).
  - unfold discovered. destruct type; cbn; rewrite ?Z.add_0_r; reflexivity.
  - unfold resolveComponentComments.
    destruct (wellFormed_new (childNodes root)) as [Hwf Hahead].
    apply (resolveComponentComments_loop_direct (Node.children root));
      [exact Hwf | exact Hahead | exact Hnone |].
    pose proof (sizes_length (Node.children root)).
    change (items (childNodes root)) with (Node.children root). lia.
Qed.

End MarkerPairs.

(** ** The end marker of a local-execution descriptor *)

Section WithoutEnd.
Variable JSON_parse : string -> option Payload.t.

Lemma webAssemblyEntries_without_end (componentComments : list WebAssemblyComponentComment.t) :
  forall globalId : Z,
    Forall (fun descriptor => WebAssemblyComponentDescriptor.end_ descriptor = None)
           (fst (webAssemblyEntries globalId componentComments)).
Proof.
  induction componentComments as [| componentComment rest IH]; intros globalId;
    [constructor |].
  cbn [webAssemblyEntries]. unfold webAssemblyEntry, WebAssemblyComponentDescriptor.new.
  specialize (IH (globalId + 1)%Z).
  destruct (webAssemblyEntries (globalId + 1) rest) as [entries_ globalId'].
  cbn [fst] in *. constructor; [reflexivity | exact IH].
Qed.

(** X22.  No local-execution descriptor that a discovery returns has an
    [end]: the constructor does not keep the end marker it is given, so the
    end marker that was found for a prerendered component is dropped, while
    a server descriptor carries it. *)
Theorem local_execution_descriptors_without_end (globalId : Z) (root : Node)
        (directChildrenOnly : bool) (descriptors : list WebAssemblyComponentDescriptor.t)
        (globalId' : Z) :
  discoverComponents JSON_parse globalId root target_webassembly directChildrenOnly
  = Return (descriptors, globalId') ->
  Forall (fun descriptor => WebAssemblyComponentDescriptor.end_ descriptor = None) descriptors.
Proof.
  intros Hdiscover.
  destruct (resolveComponentComments JSON_parse (childNodes root) target_webassembly
                                     directChildrenOnly) as [comments | e |] eqn:Hresolve.
  - rewrite (discoverComponents_returns JSON_parse globalId root target_webassembly
                                        directChildrenOnly comments Hresolve) in Hdiscover.
    unfold discovered in Hdiscover. injection Hdiscover as <- _.
    eapply Permutation_Forall.
    + apply Permutation_sym, (Array_sort_permutation (orderingKey target_webassembly)).
    + apply webAssemblyEntries_without_end.
  - rewrite (discoverComponents_throws JSON_parse globalId root target_webassembly
                                       directChildrenOnly e Hresolve) in Hdiscover.
    discriminate Hdiscover.
  - exfalso. exact (resolveComponentComments_fuel_enough JSON_parse _ _ _ Hresolve).
Qed.

End WithoutEnd.

(** ** The properties on documents and event sequences of the examples *)

Lemma circuit_started_once_witness :
  count isStartCircuit
        (calls _ _ _ _
               (run ComponentType (fun type => type) unit unit unit (fun _ => None)
                    (loaded ComponentType unit unit unit)
                    [call_registerComponentDescriptor ComponentType unit unit unit auto;
                     call_autoModeResolver ComponentType unit unit unit;
                     call_registerComponentDescriptor ComponentType unit unit unit server;
                     fulfilled ComponentType unit unit unit after_startCircuit;
                     call_registerComponentDescriptor ComponentType unit unit unit server]))
  = 1.
Proof.
  apply (circuit_started_once
           ComponentType (fun type => type) unit unit unit (fun _ => None)
           [call_registerComponentDescriptor ComponentType unit unit unit auto;
            call_autoModeResolver ComponentType unit unit unit;
            call_registerComponentDescriptor ComponentType unit unit unit server;
            fulfilled ComponentType unit unit unit after_startCircuit;
            call_registerComponentDescriptor ComponentType unit unit unit server]
           server).
  - simpl. right. right. left. reflexivity.
  - reflexivity.
Defined.

Lemma boot_attaches_navigation_listener_witness :
  count isAttachNavigation
        (calls _ _ _ _
               (snd (boot ComponentType (fun type => type) bool unit unit
                          (fun disable => Some disable)
                          (Some {| ssr := Some true; circuit := None; webAssembly := None |})
                          [server] (loaded ComponentType bool unit unit))))
  = 0.
Proof.
  apply (boot_attaches_navigation_listener
           ComponentType (fun type => type) bool unit unit (fun disable => Some disable)
           (Some {| ssr := Some true; circuit := None; webAssembly := None |})
           [server] (loaded ComponentType bool unit unit)).
  reflexivity.
Defined.

Lemma discovery_in_document_order_witness :
  discoverComponents JsonReader.parse 1
                     (Element "div" [server2; Element "p" [Text "body"; server1]; counter])
                     target_server false
  = (let* comments :=
       scanNodes JsonReader.parse target_server false
                 (Element "div" [server2; Element "p" [Text "body"; server1]; counter])
                 [server2; Element "p" [Text "body"; server1]; counter] in
     Return (discovered 1 target_server comments)).
Proof.
  apply (discovery_in_document_order
           JsonReader.parse 1
           (Element "div" [server2; Element "p" [Text "body"; server1]; counter])
           target_server false).
  reflexivity.
Defined.

Lemma local_execution_identities_witness :
  map WebAssemblyComponentDescriptor.id
      [fst (WebAssemblyComponentDescriptor.new 5 counter None "App" "Counter"
                                               None (Some "ABC"));
       fst (WebAssemblyComponentDescriptor.new 6 clock None "App" "Clock" None None)]
  = consecutive 5 2
  /\ 7%Z = (5 + Z.of_nat 2)%Z.
Proof.
  apply (local_execution_identities
           JsonReader.parse 5 (Element "div" [counter; server1; clock]) false
           [fst (WebAssemblyComponentDescriptor.new 5 counter None "App" "Counter"
                                                    None (Some "ABC"));
            fst (WebAssemblyComponentDescriptor.new 6 clock None "App" "Clock" None None)]
           7%Z).
  vm_compute. reflexivity.
Defined.

Lemma direct_children_only_witness :
  discoverComponents JsonReader.parse 1
                     (Element "div" [Text "head"; Element "p" [noDescriptor; startA]])
                     target_server true
  = Return ([], 1%Z).
Proof.
  apply (direct_children_only
           JsonReader.parse 1 (Element "div" [Text "head"; Element "p" [noDescriptor; startA]])
           target_server).
  repeat constructor.
Defined.

(** The end marker of the prerendered component is found, and the
    descriptor is without it. *)
Lemma local_execution_descriptors_without_end_witness :
  Forall (fun descriptor => WebAssemblyComponentDescriptor.end_ descriptor = None)
         [fst (WebAssemblyComponentDescriptor.new 5 counterA (Some endA) "App" "Counter"
                                                  None None)].
Proof.
  apply (local_execution_descriptors_without_end
           JsonReader.parse 5 (Element "div" [counterA; Text "body"; endA]) false
           [fst (WebAssemblyComponentDescriptor.new 5 counterA (Some endA) "App" "Counter"
                                                    None None)]
           6%Z).
  vm_compute. reflexivity.
Defined.

(** ** The scan, with the search for end markers *)

Section ReferenceScan.
Variable JSON_parse : string -> option Payload.t.

Local Abbreviation resolveLoop := (resolveComponentComments_loop JSON_parse).
Local Abbreviation siblings := (scanSiblings JSON_parse).

Lemma scanBelow_scan (type : TargetType) (node : Node) :
  scanBelow JSON_parse type node = scan JSON_parse type false node.
Proof.
  unfold scan.
  destruct node as [text | data | tagName children | children]; try reflexivity;
    cbn [scanBelow Node.children]; f_equal;
    [set (node := Element tagName children) | set (node := Document children)];
    clearbody node; generalize nothing;
    induction children as [| child children IH]; intros pending; try reflexivity;
    cbn [scanSiblings];
    match goal with
    | |- context [scanOne ?j ?t ?below ?d ?parent ?pe ?c] =>
        destruct (scanOne j t below d parent pe c) as [[found pending'] | e |]
    end; cbn [bind]; try reflexivity; rewrite IH; reflexivity.
Qed.

Lemma scanSiblings_app (type : TargetType) (directChildrenOnly : bool) (parent : Node)
      (before after : list Node) :
  forall pending,
    siblings type directChildrenOnly parent pending (before ++ after)
    = (let* (found, pending) := siblings type directChildrenOnly parent pending before in
       let* (others, pending) := siblings type directChildrenOnly parent pending after in
       Return (found ++ others, pending)).
Proof.
  induction before as [| node before IH]; intros pending; cbn [app scanSiblings bind].
  - destruct (siblings type directChildrenOnly parent pending after) as [[others pending'] | e |];
      reflexivity.
  - destruct (scanOne JSON_parse type (scanBelow JSON_parse type) directChildrenOnly parent
                      pending node) as [[found pending1] | e |]; cbn [bind]; try reflexivity.
    rewrite IH.
    destruct (siblings type directChildrenOnly parent pending1 before)
      as [[found' pending2] | e |]; cbn [bind]; try reflexivity.
    destruct (siblings type directChildrenOnly parent pending2 after)
      as [[others pending3] | e |]; cbn [bind]; rewrite ?app_assoc; reflexivity.
Qed.

Lemma settled_found (type : TargetType) (found : list (ComponentCommentOf type))
      (r : result (list (ComponentCommentOf type) * Pending)) :
  settled type (let* (others, pending) := r in Return (found ++ others, pending))
  = (let* others := settled type r in Return (found ++ others)).
Proof. destruct r as [[others [| start payload id]] | e |]; reflexivity. Qed.

Lemma bind_found {A : Type} (r : result (list A)) (result_ found : list A) :
  (let* others := (let* others := r in Return (found ++ others)) in Return (result_ ++ others))
  = (let* others := r in Return ((result_ ++ found) ++ others)).
Proof. destruct r; cbn [bind]; rewrite <- ?app_assoc; reflexivity. Qed.

Lemma bind_return {A B : Type} (r : result (A * B)) :
  (let* (a, b) := r in Return (a, b)) = r.
Proof. destruct r as [[a b] | e |]; reflexivity. Qed.

Lemma bind_nil {A : Type} (r : result (list A)) :
  (let* others := r in Return ([] ++ others)) = r.
Proof. destruct r; reflexivity. Qed.

(** While an end marker is looked for, the siblings that are no marker
    comments are passed. *)
Lemma scanSiblings_seeking_skips (type : TargetType) (directChildrenOnly : bool) (parent : Node)
      (start : Node) (payload : Payload.t) (id : string) (skipped rest : list Node) :
  Forall (fun node => markerJson node = None) skipped ->
  siblings type directChildrenOnly parent (seeking start payload id) (skipped ++ rest)
  = siblings type directChildrenOnly parent (seeking start payload id) rest.
Proof.
  induction 1 as [| node skipped Hnode _ IH]; [reflexivity |].
  cbn [app scanSiblings]. unfold scanOne. rewrite Hnode. cbn [bind]. rewrite IH.
  destruct (siblings type directChildrenOnly parent (seeking start payload id) rest)
    as [[others pending] | e |]; reflexivity.
Qed.

Lemma scanSiblings_seeking_exhausted (type : TargetType) (directChildrenOnly : bool)
      (parent : Node) (start : Node) (payload : Payload.t) (id : string) (nodes : list Node) :
  Forall (fun node => markerJson node = None) nodes ->
  siblings type directChildrenOnly parent (seeking start payload id) nodes
  = Return ([], seeking start payload id).
Proof.
  intros Hnone.
  rewrite <- (app_nil_r nodes), (scanSiblings_seeking_skips _ _ _ _ _ _ _ _ Hnone).
  reflexivity.
Qed.

(** The loop of [resolveComponentComments] gives what the scan of the
    siblings ahead gives, whatever markers they and their subtrees hold. *)
Lemma resolveComponentComments_loop_reference (fuel : nat) :
  forall (type : TargetType) (directChildrenOnly : bool)
         (iterator : ComponentCommentIterator.t) (result_ : list (ComponentCommentOf type)),
    wellFormed iterator ->
    Node.sizes (ahead iterator) < fuel ->
    resolveLoop fuel type directChildrenOnly iterator result_
    = (let* found :=
         settled type
                 (siblings type directChildrenOnly
                           (parentNode (ComponentCommentIterator.childNodes iterator))
                           nothing (ahead iterator)) in
       Return (result_ ++ found)).
Proof.
  induction fuel as [| fuel IH];
    intros type directChildrenOnly iterator result_ Hwf Hfuel; [lia |].
  rewrite resolveComponentComments_loop_step.
  destruct (ahead iterator) as [| current rest] eqn:Hahead.
  - destruct (next_nil iterator Hwf Hahead) as (iterator' & -> & Hcurrent).
    cbn [scanSiblings settled bind]. rewrite app_nil_r. reflexivity.
  - destruct (next_cons iterator current rest Hwf Hahead) as (-> & Hcurrent & Hahead1 & Hwf1).
    set (iterator1 := moved iterator (ComponentCommentIterator.currentIndex iterator + 1)) in *.
    set (parent := parentNode (ComponentCommentIterator.childNodes iterator)).
    rewrite Hcurrent.
    rewrite sizes_cons in Hfuel. pose proof (size_positive current) as Hpositive.
    assert (Hfrom : forall (iterator' : ComponentCommentIterator.t) nodes acc,
               wellFormed iterator' ->
               ahead iterator' = nodes ->
               ComponentCommentIterator.childNodes iterator'
               = ComponentCommentIterator.childNodes iterator1 ->
               Node.sizes nodes <= Node.sizes rest ->
               resolveLoop fuel type directChildrenOnly iterator' acc
               = (let* found :=
                    settled type (siblings type directChildrenOnly parent nothing nodes) in
                  Return (acc ++ found))).
    { intros iterator' nodes acc Hwf' Hahead' Hnodes' Hsizes.
      rewrite (IH type directChildrenOnly iterator' acc Hwf') by (rewrite Hahead'; lia).
      rewrite Hahead', Hnodes'. reflexivity. }
    assert (Hrest : forall acc,
               resolveLoop fuel type directChildrenOnly iterator1 acc
               = (let* found :=
                    settled type (siblings type directChildrenOnly parent nothing rest) in
                  Return (acc ++ found)))
      by (intros acc; apply Hfrom; [exact Hwf1 | exact Hahead1 | reflexivity | lia]).
    cbn [scanSiblings].
    destruct (markerJson current) as [json |] eqn:Hmarker.
    + destruct (markerJson_some current json Hmarker) as [text ->].
      unfold scanOne. rewrite Hmarker. fold parent.
      destruct (Node.isDocument parent) eqn:Hdocument.
      * rewrite (getComponentComment_on_document JSON_parse iterator1 type text json
                                                 Hcurrent Hmarker Hdocument).
        reflexivity.
      * rewrite (getComponentComment_steps JSON_parse iterator1 type text json
                                           Hcurrent Hmarker Hdocument).
        destruct (parseCommentPayload JSON_parse json) as [payload | e |];
          cbn [bind try_catch_rethrow]; try reflexivity.
        assert (Hunpaired :
                 truthy (Payload.prerenderId payload) = false ->
                 (let* (componentComment, childNodeIterator) :=
                    try_catch_rethrow
                      (let* (end_, iterator') :=
                         endOf JSON_parse (Payload.prerenderId payload) (Comment text)
                               iterator1 in
                       let* componentComment := commentOf type payload (Comment text) end_ in
                       Return (componentComment, iterator'))
                      (MalformedComponentComment text) in
                  match componentComment with
                  | Some componentComment =>
                      resolveLoop fuel type directChildrenOnly childNodeIterator
                                  (result_ ++ [componentComment])
                  | None =>
                      if directChildrenOnly
                      then resolveLoop fuel type directChildrenOnly childNodeIterator result_
                      else
                        match ComponentCommentIterator.currentElement childNodeIterator with
                        | Some currentElement =>
                            if Node.hasChildNodes currentElement
                            then
                              let* childResults :=
                                resolveLoop fuel type false
                                            (ComponentCommentIterator.new
                                               (childNodes currentElement)) [] in
                              resolveLoop fuel type directChildrenOnly childNodeIterator
                                          (result_ ++ childResults)
                            else resolveLoop fuel type directChildrenOnly childNodeIterator
                                             result_
                        | None => Throw TypeError
                        end
                  end)
                 = (let* found :=
                      settled type
                        (let* (found, pending) :=
                           try_catch_rethrow
                             (let* componentComment :=
                                commentOf type payload (Comment text) None in
                              Return (listed componentComment, nothing))
                             (MalformedComponentComment (Node.textContent (Comment text))) in
                         let* (others, pending) :=
                           siblings type directChildrenOnly parent pending rest in
                         Return (found ++ others, pending)) in
                    Return (result_ ++ found))).
        { intros Hfalsy.
          rewrite (endOf_unpaired JSON_parse _ (Comment text) iterator1 Hfalsy).
          cbn [bind Node.textContent].
          destruct (commentOf type payload (Comment text) None) as [[c |] | e |];
            cbn [bind try_catch_rethrow listed]; try reflexivity.
          - rewrite Hrest, settled_found, bind_found. reflexivity.
          - rewrite settled_found, bind_found, app_nil_r.
            destruct directChildrenOnly; [apply Hrest |].
            rewrite Hcurrent. cbn [Node.hasChildNodes Node.children]. apply Hrest. }
        destruct (Payload.prerenderId payload) as [id |] eqn:Hid;
          [destruct (Text.isEmpty id) eqn:Hempty |];
          try (apply Hunpaired; unfold truthy; rewrite ?Hempty; reflexivity).
        clear Hunpaired. cbn [bind try_catch_rethrow app].
        unfold endOf, truthy. rewrite Hempty. cbn [negb].
        destruct (first_marker rest)
          as [Hnone | (skipped & closing & endJson & rest' & -> & Hskipped & Hclosing)].
        -- destruct (getComponentEndComment_exhausted JSON_parse id iterator1 Hwf1)
             as [iterator2 ->]; [rewrite Hahead1; exact Hnone |].
           rewrite (scanSiblings_seeking_exhausted type directChildrenOnly parent
                                                   (Comment text) payload id rest Hnone).
           reflexivity.
        -- destruct (getComponentEndComment_first_marker
                       JSON_parse id iterator1 skipped closing endJson rest'
                       Hwf1 Hahead1 Hskipped Hclosing)
             as (iterator2 & -> & Hwf2 & Hahead2 & Hcurrent2 & Hnodes2).
           rewrite (scanSiblings_seeking_skips type directChildrenOnly parent (Comment text)
                                               payload id skipped (closing :: rest') Hskipped).
           cbn [scanSiblings]. unfold scanOne. rewrite Hclosing.
           rewrite sizes_app, sizes_cons in Hfuel.
           destruct (validateEndComponentPayload JSON_parse endJson id) as [[] | e |];
             cbn [bind try_catch_rethrow Node.textContent]; try reflexivity.
           destruct (commentOf type payload (Comment text) (Some closing)) as [[c |] | e |];
             cbn [bind try_catch_rethrow listed]; try reflexivity.
           ++ rewrite bind_return, settled_found, bind_found.
              apply Hfrom; [exact Hwf2 | exact Hahead2 | exact Hnodes2 |].
              rewrite sizes_app, sizes_cons. lia.
           ++ rewrite bind_return, settled_found, bind_found, app_nil_r.
              assert (Hgoes : resolveLoop fuel type directChildrenOnly iterator2 result_
                              = (let* found :=
                                   settled type (siblings type directChildrenOnly parent
                                                          nothing rest') in
                                 Return (result_ ++ found))).
              { apply Hfrom; [exact Hwf2 | exact Hahead2 | exact Hnodes2 |].
                rewrite sizes_app, sizes_cons. lia. }
              destruct directChildrenOnly; [exact Hgoes |].
              rewrite Hcurrent2.
              destruct (markerJson_some closing endJson Hclosing) as [endText ->].
              exact Hgoes.
    + rewrite (getComponentComment_no_marker JSON_parse iterator1 type current Hcurrent Hmarker).
      cbn [bind]. unfold scanOne. rewrite Hmarker.
      destruct directChildrenOnly.
      * cbn [bind]. rewrite settled_found, bind_found, app_nil_r. apply Hrest.
      * rewrite Hcurrent, scanBelow_scan. unfold scan.
        destruct (Node.hasChildNodes current) eqn:Hchildren.
        -- destruct (wellFormed_new (childNodes current)) as [Hwf2 Hahead2].
           pose proof (size_children current) as Hsize.
           rewrite (IH type false _ [] Hwf2)
             by (rewrite Hahead2;
                 change (items (childNodes current)) with (Node.children current); lia).
           rewrite Hahead2.
           change (items (childNodes current)) with (Node.children current).
           change (parentNode (ComponentCommentIterator.childNodes
                                 (ComponentCommentIterator.new (childNodes current))))
             with current.
           rewrite bind_nil.
           destruct (settled type (siblings type false current nothing (Node.children current)))
             as [found | e |]; cbn [bind]; try reflexivity.
           rewrite settled_found, bind_found. apply Hrest.
        -- rewrite (hasChildNodes_children current Hchildren).
           cbn [scanSiblings settled bind].
           rewrite settled_found, bind_found, app_nil_r. apply Hrest.
Qed.

(** [resolveComponentComments] is the scan of the children of the parent
    of its node list. *)
Lemma resolveComponentComments_reference (root : Node) (type : TargetType)
      (directChildrenOnly : bool) :
  resolveComponentComments JSON_parse (childNodes root) type directChildrenOnly
  = scan JSON_parse type directChildrenOnly root.
Proof.
  unfold resolveComponentComments, scan.
  destruct (wellFormed_new (childNodes root)) as [Hwf Hahead].
  rewrite (resolveComponentComments_loop_reference _ type directChildrenOnly _ [] Hwf)
    by (rewrite Hahead; lia).
  rewrite Hahead, bind_nil. reflexivity.
Qed.

(** The discovery turns the comments of the scan into descriptors. *)
Lemma discoverComponents_reference (globalId : Z) (root : Node) (type : TargetType)
      (directChildrenOnly : bool) :
  discoverComponents JSON_parse globalId root type directChildrenOnly
  = (let* comments := scan JSON_parse type directChildrenOnly root in
     Return (discovered globalId type comments)).
Proof.
  pose proof (resolveComponentComments_reference root type directChildrenOnly) as Hresolve.
  pose proof (resolveComponentComments_fuel_enough JSON_parse (childNodes root) type
                                                   directChildrenOnly) as Henough.
  destruct (scan JSON_parse type directChildrenOnly root) as [comments | e |]; cbn [bind].
  - apply discoverComponents_returns, Hresolve.
  - apply discoverComponents_throws, Hresolve.
  - contradiction.
Qed.

End ReferenceScan.

(** ** Where the scan arrives *)

Section ScanArrives.
Variable JSON_parse : string -> option Payload.t.

Local Abbreviation siblings := (scanSiblings JSON_parse).

Lemma validateEndComponentPayload_total (json prerenderedId : string) :
  validateEndComponentPayload JSON_parse json prerenderedId <> OutOfFuel.
Proof.
  unfold validateEndComponentPayload, parse.
  destruct (JSON_parse json) as [payload |]; cbn [bind]; [| discriminate].
  destruct (negb _); [discriminate |].
  destruct (Payload.prerenderId payload) as [endId |]; [| discriminate].
  destruct (Text.isEmpty endId); [discriminate |].
  destruct (negb _); discriminate.
Qed.

(** The scan uses the parent of the siblings only to tell whether it is
    the document. *)
Lemma scanSiblings_parent (type : TargetType) (directChildrenOnly : bool)
      (parent parent' : Node) (nodes : list Node) :
  Node.isDocument parent = Node.isDocument parent' ->
  forall pending,
    siblings type directChildrenOnly parent pending nodes
    = siblings type directChildrenOnly parent' pending nodes.
Proof.
  intros Hsame. induction nodes as [| node nodes IH]; intros pending; [reflexivity |].
  cbn [scanSiblings].
  replace (scanOne JSON_parse type (scanBelow JSON_parse type) directChildrenOnly parent
                   pending node)
    with (scanOne JSON_parse type (scanBelow JSON_parse type) directChildrenOnly parent'
                  pending node)
    by (unfold scanOne; rewrite Hsame; reflexivity).
  destruct (scanOne JSON_parse type (scanBelow JSON_parse type) directChildrenOnly parent'
                    pending node) as [[found pending'] | e |]; cbn [bind]; try reflexivity.
  rewrite IH. reflexivity.
Qed.

(** What the scan of the siblings from [current] on throws, the scan of
    the root throws, when it arrives at [current]. *)
Lemma scan_throws_at (type : TargetType) (directChildrenOnly : bool)
      (root parent current : Node) (after : list Node) (e : Error) :
  arrives JSON_parse type directChildrenOnly root parent current after ->
  settled type (siblings type directChildrenOnly parent nothing (current :: after)) = Throw e ->
  scan JSON_parse type directChildrenOnly root = Throw e.
Proof.
  induction 1 as [directChildrenOnly root before current after found Hchildren Hbefore
                 | root before child rest found parent current after Hchildren Hbefore
                        Hchild _ IH];
    intros Hthrows; unfold scan; rewrite Hchildren, scanSiblings_app, Hbefore; cbn [bind].
  - rewrite settled_found, Hthrows. reflexivity.
  - cbn [scanSiblings]. unfold scanOne. rewrite Hchild.
    rewrite scanBelow_scan, (IH Hthrows). reflexivity.
Qed.

Lemma discoverComponents_throws_where (globalId : Z) (type : TargetType)
      (directChildrenOnly : bool) (root parent current : Node) (after : list Node) (e : Error) :
  arrives JSON_parse type directChildrenOnly root parent current after ->
  settled type (siblings type directChildrenOnly parent nothing (current :: after)) = Throw e ->
  discoverComponents JSON_parse globalId root type directChildrenOnly = Throw e.
Proof.
  intros Harrives Hthrows.
  rewrite discoverComponents_reference,
    (scan_throws_at type directChildrenOnly root parent current after e Harrives Hthrows).
  reflexivity.
Qed.

(** A start marker whose end marker is looked for among siblings none of
    which is a marker comment has none. *)
Lemma scanSiblings_unterminated (type : TargetType) (directChildrenOnly : bool) (parent : Node)
      (text json : string) (payload : Payload.t) (id : string) (after : list Node) :
  Node.isDocument parent = false ->
  markerJson (Comment text) = Some json ->
  JSON_parse json = Some payload ->
  Payload.type payload = Some "server" \/ Payload.type payload = Some "webassembly" ->
  Payload.prerenderId payload = Some id ->
  id <> EmptyString ->
  Forall (fun node => markerJson node = None) after ->
  settled type (siblings type directChildrenOnly parent nothing (Comment text :: after))
  = Throw (MalformedComponentComment text).
Proof.
  intros Hparent Hmarker Hparse Htype Hid Hne Hafter.
  assert (Hempty : Text.isEmpty id = false) by (destruct id; [contradiction | reflexivity]).
  cbn [scanSiblings]. unfold scanOne.
  rewrite Hmarker, Hparent, (parseCommentPayload_valid JSON_parse json payload Hparse Htype).
  cbn [bind]. rewrite Hid, Hempty. cbn [try_catch_rethrow bind].
  rewrite (scanSiblings_seeking_exhausted JSON_parse type directChildrenOnly parent
                                          (Comment text) payload id after Hafter).
  reflexivity.
Qed.

(** C8, amended.  A start marker that the scan arrives at, not directly on
    the document, carries a truthy [prerenderId], and none of the siblings
    after it is a marker comment, so that the search for the end marker
    exhausts them.  Then both [create...Comment] functions throw the
    unterminated-marker error (Could not find an end component comment);
    [getComponentComment] catches it, and the scan and the discovery fail
    with the malformed-comment error on the start marker, at whatever depth
    below the root the marker is, and return no descriptor. *)
Theorem unterminated_marker_fails (globalId : Z) (type : TargetType)
        (directChildrenOnly : bool) (root parent : Node) (siblings_ : list Node)
        (text json : string) (payload : Payload.t) (id : string) :
  arrives JSON_parse type directChildrenOnly root parent (Comment text) siblings_ ->
  Node.isDocument parent = false ->
  markerJson (Comment text) = Some json ->
  JSON_parse json = Some payload ->
  Payload.type payload = Some "server" \/ Payload.type payload = Some "webassembly" ->
  Payload.prerenderId payload = Some id ->
  id <> EmptyString ->
  Forall (fun node => markerJson node = None) siblings_ ->
  (forall iterator,
      wellFormed iterator -> ahead iterator = siblings_ ->
      createServerComponentComment JSON_parse payload (Comment text) iterator
      = Throw (NoEndComponentComment text)
      /\ createWebAssemblyComponentComment JSON_parse payload (Comment text) iterator
         = Throw (NoEndComponentComment text))
  /\ (forall fuel iterator result_,
        wellFormed iterator -> ahead iterator = Comment text :: siblings_ ->
        Node.isDocument (parentNode (ComponentCommentIterator.childNodes iterator)) = false ->
        resolveComponentComments_loop JSON_parse (S fuel) type directChildrenOnly
                                      iterator result_
        = Throw (MalformedComponentComment text))
  /\ discoverComponents JSON_parse globalId root type directChildrenOnly
     = Throw (MalformedComponentComment text).
Proof.
  intros Harrives Hparent Hmarker Hparse Htype Hid Hne Hsiblings.
  assert (Hsearch : forall iterator,
             wellFormed iterator -> ahead iterator = siblings_ ->
             exists iterator',
               getComponentEndComment JSON_parse id iterator = Return (None, iterator')).
  { intros iterator Hwf Hahead.
    apply getComponentEndComment_exhausted; [exact Hwf | rewrite Hahead; exact Hsiblings]. }
  split; [| split].
  - intros iterator Hwf Hahead.
    destruct (Hsearch iterator Hwf Hahead) as [iterator' He].
    destruct (create_without_end JSON_parse payload (Comment text) iterator id Hid Hne)
      as [_ Hundefined].
    exact (Hundefined iterator' He).
  - intros fuel iterator result_ Hwf Hahead Hdocument.
    apply (resolveComponentComments_loop_fails_at_marker
             JSON_parse fuel type directChildrenOnly iterator result_ siblings_ text json
             payload id);
      try assumption.
    intros iterator' Hwf' Hahead'. right. exact (Hsearch iterator' Hwf' Hahead').
  - apply (discoverComponents_throws_where globalId type directChildrenOnly root parent
                                           (Comment text) siblings_ _ Harrives).
    apply (scanSiblings_unterminated type directChildrenOnly parent text json payload id);
      assumption.
Qed.

(** X16.  A marker comment that the scan arrives at and that is a child of
    a document ends the discovery with the root-component error, whatever
    its payload is: the parent is tested before the payload is parsed, and
    outside the [try]. *)
Theorem marker_on_document_rejected (globalId : Z) (type : TargetType)
        (directChildrenOnly : bool) (root parent : Node) (after : list Node)
        (text json : string) :
  arrives JSON_parse type directChildrenOnly root parent (Comment text) after ->
  Node.isDocument parent = true ->
  markerJson (Comment text) = Some json ->
  discoverComponents JSON_parse globalId root type directChildrenOnly
  = Throw RootComponentOnDocument.
Proof.
  intros Harrives Hparent Hmarker.
  apply (discoverComponents_throws_where globalId type directChildrenOnly root parent
                                         (Comment text) after _ Harrives).
  cbn [scanSiblings]. unfold scanOne. rewrite Hmarker, Hparent. reflexivity.
Qed.

(** X17.  A marker comment that the scan arrives at, not directly on the
    document, whose text after the prefix is no JSON, or whose [type] is
    neither ['server'] nor ['webassembly'], ends the discovery for either
    target type with the malformed-comment error on that comment. *)
Theorem malformed_marker_rejected (globalId : Z) (type : TargetType)
        (directChildrenOnly : bool) (root parent : Node) (after : list Node)
        (text json : string) :
  arrives JSON_parse type directChildrenOnly root parent (Comment text) after ->
  Node.isDocument parent = false ->
  markerJson (Comment text) = Some json ->
  (JSON_parse json = None
   \/ exists payload, JSON_parse json = Some payload
                      /\ Payload.type payload <> Some "server"
                      /\ Payload.type payload <> Some "webassembly") ->
  discoverComponents JSON_parse globalId root type directChildrenOnly
  = Throw (MalformedComponentComment text).
Proof.
  intros Harrives Hparent Hmarker Hpayload.
  apply (discoverComponents_throws_where globalId type directChildrenOnly root parent
                                         (Comment text) after _ Harrives).
  cbn [scanSiblings]. unfold scanOne. rewrite Hmarker, Hparent.
  unfold parseCommentPayload, parse.
  destruct Hpayload as [-> | (payload & -> & Hserver & Hwebassembly)]; [reflexivity |].
  cbn [bind]. unfold equals.
  destruct (Payload.type payload) as [t |]; [| reflexivity].
  destruct (String.eqb_spec t "server") as [-> | _]; [contradiction |].
  destruct (String.eqb_spec t "webassembly") as [-> | _]; [contradiction |].
  reflexivity.
Qed.

(** A start marker of the target type that lacks a required field fails
    wherever its end marker is, or is not. *)
Lemma scanSiblings_seeking_lacksRequired (type : TargetType) (directChildrenOnly : bool)
      (parent start : Node) (payload : Payload.t) (id : string) (nodes : list Node) :
  Payload.type payload = Some (typeOf type) ->
  lacksRequired type payload ->
  settled type (siblings type directChildrenOnly parent (seeking start payload id) nodes)
  = Throw (MalformedComponentComment (Node.textContent start)).
Proof.
  intros Htype Hlacks.
  destruct (first_marker nodes)
    as [Hnone | (skipped & closing & endJson & rest & -> & Hskipped & Hclosing)].
  - rewrite (scanSiblings_seeking_exhausted JSON_parse type directChildrenOnly parent start
                                            payload id nodes Hnone).
    reflexivity.
  - rewrite (scanSiblings_seeking_skips JSON_parse type directChildrenOnly parent start
                                        payload id skipped (closing :: rest) Hskipped).
    cbn [scanSiblings]. unfold scanOne. rewrite Hclosing.
    pose proof (validateEndComponentPayload_total endJson id) as Htotal.
    destruct (validateEndComponentPayload JSON_parse endJson id) as [[] | e |];
      cbn [bind try_catch_rethrow]; [| reflexivity | contradiction].
    destruct (commentOf_lacksRequired type payload start (Some closing) Htype Hlacks)
      as [e ->].
    reflexivity.
Qed.

(** X18.  A marker of the target type that the scan arrives at, not
    directly on the document, and that lacks a field its type requires (a
    truthy [descriptor] and an integer [sequence] for a server marker; a
    truthy [assembly] and [typeName], and parameters in base64, for a
    local-execution marker) ends the discovery with the malformed-comment
    error on that comment, whether or not it has a [prerenderId] and an end
    marker. *)
Theorem marker_lacking_fields_rejected (globalId : Z) (type : TargetType)
        (directChildrenOnly : bool) (root parent : Node) (after : list Node)
        (text json : string) (payload : Payload.t) :
  arrives JSON_parse type directChildrenOnly root parent (Comment text) after ->
  Node.isDocument parent = false ->
  markerJson (Comment text) = Some json ->
  JSON_parse json = Some payload ->
  Payload.type payload = Some (typeOf type) ->
  lacksRequired type payload ->
  discoverComponents JSON_parse globalId root type directChildrenOnly
  = Throw (MalformedComponentComment text).
Proof.
  intros Harrives Hparent Hmarker Hparse Htype Hlacks.
  apply (discoverComponents_throws_where globalId type directChildrenOnly root parent
                                         (Comment text) after _ Harrives).
  cbn [scanSiblings]. unfold scanOne. rewrite Hmarker, Hparent.
  rewrite (parseCommentPayload_valid JSON_parse json payload Hparse)
    by (rewrite Htype; destruct type; auto).
  cbn [bind].
  assert (Hunpaired :
           try_catch_rethrow
             (let* componentComment := commentOf type payload (Comment text) None in
              Return (listed componentComment, nothing))
             (MalformedComponentComment (Node.textContent (Comment text)))
           = Throw (MalformedComponentComment text)).
  { destruct (commentOf_lacksRequired type payload (Comment text) None Htype Hlacks)
      as [e ->].
    reflexivity. }
  destruct (Payload.prerenderId payload) as [id |]; [destruct (Text.isEmpty id) |];
    try (rewrite Hunpaired; reflexivity).
  cbn [try_catch_rethrow bind]. rewrite bind_return.
  apply (scanSiblings_seeking_lacksRequired type directChildrenOnly parent (Comment text)
                                            payload id after Htype Hlacks).
Qed.

End ScanArrives.

(** ** Markers of the other type, prerendered pairs, and the descriptors *)

Section ScanPairs.
Variable JSON_parse : string -> option Payload.t.

Local Abbreviation siblings := (scanSiblings JSON_parse).

(** X19.  A marker of the other component type without a truthy
    [prerenderId], among the children of an element, that the scan comes to
    while it looks for no end marker (the siblings before it are scanned
    without error and leave no start marker waiting for its end), is passed
    over: the discovery returns what it returns on the element without that
    comment, whatever comes after it, and the fields the other type
    requires are not looked at. *)
Theorem other_type_marker_ignored (globalId : Z) (tagName : string) (before after : list Node)
        (text json : string) (payload : Payload.t) (type : TargetType)
        (directChildrenOnly : bool) (found : list (ComponentCommentOf type)) :
  siblings type directChildrenOnly (Element tagName (before ++ Comment text :: after))
           nothing before = Return (found, nothing) ->
  markerJson (Comment text) = Some json ->
  JSON_parse json = Some payload ->
  Payload.type payload = Some (otherType type) ->
  truthy (Payload.prerenderId payload) = false ->
  discoverComponents JSON_parse globalId (Element tagName (before ++ Comment text :: after))
                     type directChildrenOnly
  = discoverComponents JSON_parse globalId (Element tagName (before ++ after))
                       type directChildrenOnly.
Proof.
  intros Hbefore Hmarker Hparse Htype Hfalsy.
  rewrite !discoverComponents_reference. unfold scan. cbn [Node.children].
  rewrite (scanSiblings_parent JSON_parse type directChildrenOnly
                               (Element tagName (before ++ Comment text :: after))
                               (Element tagName (before ++ after)) before eq_refl)
    in Hbefore.
  rewrite (scanSiblings_parent JSON_parse type directChildrenOnly
                               (Element tagName (before ++ Comment text :: after))
                               (Element tagName (before ++ after))
                               (before ++ Comment text :: after) eq_refl).
  rewrite !scanSiblings_app, Hbefore. cbn [bind scanSiblings].
  replace (scanOne JSON_parse type (scanBelow JSON_parse type) directChildrenOnly
                   (Element tagName (before ++ after)) nothing (Comment text))
    with (Return ([] : list (ComponentCommentOf type), nothing)).
  - cbn [bind app]. rewrite bind_return. reflexivity.
  - unfold scanOne. rewrite Hmarker. cbn [Node.isDocument].
    rewrite (parseCommentPayload_valid JSON_parse json payload Hparse)
      by (rewrite Htype; destruct type; auto).
    cbn [bind].
    assert (Hnone : commentOf type payload (Comment text) None = Return None)
      by (destruct type; unfold commentOf, webAssemblyComment, serverComment;
          rewrite Htype; reflexivity).
    unfold truthy in Hfalsy.
    destruct (Payload.prerenderId payload) as [id |];
      [destruct (Text.isEmpty id); [| discriminate Hfalsy] |];
      rewrite Hnone; reflexivity.
Qed.

(** X20.  A start marker with a truthy [prerenderId], among the children
    of a root that is no document, that the scan comes to while it looks
    for no end marker, is paired with the first marker comment among the
    siblings after it, when the payload of that comment is [prerenderId]
    alone, with the same value: the comment of the start marker carries it
    as its end, the siblings between the two are passed over without their
    children being scanned, and the scan goes on after the end marker with
    whatever is there, further pairs included.  A start marker of the other
    type is paired in the same way and gives no comment. *)
Theorem prerendered_pair_found (globalId : Z) (root : Node) (before between after : list Node)
        (text json : string) (payload : Payload.t) (id : string)
        (endText endJson : string) (endPayload : Payload.t)
        (type : TargetType) (directChildrenOnly : bool)
        (found : list (ComponentCommentOf type)) :
  Node.isDocument root = false ->
  Node.children root = before ++ Comment text :: between ++ Comment endText :: after ->
  siblings type directChildrenOnly root nothing before = Return (found, nothing) ->
  markerJson (Comment text) = Some json ->
  JSON_parse json = Some payload ->
  Payload.type payload = Some "server" \/ Payload.type payload = Some "webassembly" ->
  Payload.prerenderId payload = Some id ->
  id <> EmptyString ->
  Forall (fun node => markerJson node = None) between ->
  markerJson (Comment endText) = Some endJson ->
  JSON_parse endJson = Some endPayload ->
  Payload.keysLength endPayload = 1 ->
  Payload.prerenderId endPayload = Some id ->
  discoverComponents JSON_parse globalId root type directChildrenOnly
  = (let* componentComment :=
       try_catch_rethrow (commentOf type payload (Comment text) (Some (Comment endText)))
                         (MalformedComponentComment text) in
     let* others := settled type (siblings type directChildrenOnly root nothing after) in
     Return (discovered globalId type (found ++ listed componentComment ++ others))).
Proof.
  intros Hroot Hchildren Hbefore Hmarker Hparse Htype Hid Hne Hbetween
         HendMarker HendParse Hkeys HendId.
  assert (Hempty : Text.isEmpty id = false) by (destruct id; [contradiction | reflexivity]).
  rewrite discoverComponents_reference. unfold scan.
  rewrite Hchildren, scanSiblings_app, Hbefore. cbn [bind scanSiblings].
  unfold scanOne at 1. rewrite Hmarker, Hroot.
  rewrite (parseCommentPayload_valid JSON_parse json payload Hparse Htype).
  cbn [bind]. rewrite Hid, Hempty. cbn [try_catch_rethrow bind].
  rewrite (scanSiblings_seeking_skips JSON_parse type directChildrenOnly root (Comment text)
                                      payload id between (Comment endText :: after) Hbetween).
  cbn [scanSiblings]. unfold scanOne at 1. rewrite HendMarker.
  rewrite (validate_same_id JSON_parse endJson id endPayload HendParse Hkeys HendId Hne).
  cbn [bind Node.textContent].
  destruct (commentOf type payload (Comment text) (Some (Comment endText)))
    as [componentComment | e |]; cbn [bind try_catch_rethrow]; try reflexivity.
  rewrite bind_return, !settled_found.
  destruct (settled type (siblings type directChildrenOnly root nothing after))
    as [others | e |]; reflexivity.
Qed.

Lemma entries_described (type : TargetType) (comments : list (ComponentCommentOf type)) :
  forall globalId : Z, Forall2 (describes type) (entries globalId type comments) comments.
Proof.
  destruct type; cbn [entries describes];
    induction comments as [| componentComment comments IH]; intros globalId;
    try (constructor; fail).
  - cbn [webAssemblyEntries]. unfold webAssemblyEntry, WebAssemblyComponentDescriptor.new.
    specialize (IH (globalId + 1)%Z).
    destruct (webAssemblyEntries (globalId + 1) comments) as [entries_ globalId'].
    cbn [fst] in *. constructor; [| exact IH]. cbn. repeat split.
  - cbn [map]. constructor; [| apply (IH globalId)]. cbn. repeat split.
Qed.

(** C5.  On a well-formed subtree, one whose scan meets no error and finds
    the comments [comments] of the markers of the target type in document
    order, the discovery returns one descriptor for each of these comments,
    with the anchors and the payload of its comment, in ascending order of
    the ordering key: the [sequence] of the marker for server descriptors,
    in whatever order the document has the markers; the [id] for
    local-execution descriptors, which is assigned in the order of the
    scan from the counter on, so that these come in document order. *)
Theorem discovery_sorted_by_key (globalId : Z) (root : Node) (type : TargetType)
        (directChildrenOnly : bool) (comments : list (ComponentCommentOf type)) :
  scan JSON_parse type directChildrenOnly root = Return comments ->
  exists descriptors arranged,
    discoverComponents JSON_parse globalId root type directChildrenOnly
    = Return (descriptors, globalIdAfter type globalId (List.length comments))
    /\ StronglySorted (fun a b => (orderingKey type a <= orderingKey type b)%Z) descriptors
    /\ Permutation arranged comments
    /\ Forall2 (describes type) descriptors arranged
    /\ (type = target_webassembly ->
        arranged = comments
        /\ map (orderingKey type) descriptors = consecutive globalId (List.length comments)).
Proof.
  intros Hscan.
  rewrite discoverComponents_reference, Hscan. cbn [bind]. unfold discovered.
  pose proof (Array_sort_ascending (orderingKey type) (entries globalId type comments))
    as Hsorted.
  pose proof (Array_sort_permutation (orderingKey type) (entries globalId type comments))
    as Hpermutation.
  pose proof (entries_described type comments globalId) as Hdescribed.
  destruct type.
  - destruct (webAssemblyEntries_ids comments globalId) as (_ & _ & Hascending).
    assert (Hsame : Array_sort (fun a b : DescriptorOf target_webassembly =>
                                  (orderingKey target_webassembly a
                                   - orderingKey target_webassembly b)%Z)
                               (entries globalId target_webassembly comments)
                    = entries globalId target_webassembly comments)
      by exact (Array_sort_of_ascending (orderingKey target_webassembly) _ Hascending).
    rewrite Hsame in *.
    exists (entries globalId target_webassembly comments), comments.
    split; [reflexivity |].
    split; [exact Hsorted |].
    split; [apply Permutation_refl |].
    split; [exact Hdescribed |].
    intros _. split; [reflexivity |]. apply webAssemblyEntries_consecutive.
  - destruct (Permutation_Forall2 (Permutation_sym Hpermutation) Hdescribed)
      as (arranged & Harranged & Hforall).
    eexists _, arranged.
    split; [reflexivity |].
    split; [exact Hsorted |].
    split; [apply Permutation_sym, Harranged |].
    split; [exact Hforall |].
    intros Htype. discriminate Htype.
Qed.

End ScanPairs.

(** C8, as the specification states it, fails.  The unterminated-marker
    error is thrown where the comment of the start marker is made, but what
    the discovery fails with is the malformed-comment error; and a start
    marker without its end marker that the scan does not come to (between
    another start marker and its end, or below the children of the root
    when only these are looked at) does not make the discovery fail. *)
Lemma unterminated_marker_fails_counterexample :
  createServerComponentComment
    JsonReader.parse payloadA startA
    (ComponentCommentIterator.new (childNodes (Element "div" [Text "body"])))
  = Throw (NoEndComponentComment (Node.textContent startA))
  /\ discoverComponents JsonReader.parse 1 (Element "div" [startA; Text "body"])
                        target_server false
     = Throw (MalformedComponentComment (Node.textContent startA))
  /\ discoverComponents JsonReader.parse 1 (Element "div" [startA; Text "body"])
                        target_server false
     <> Throw (NoEndComponentComment (Node.textContent startA))
  /\ discoverComponents JsonReader.parse 1
                        (Element "div" [startA; Element "p" [startB; Text "body"]; endA])
                        target_server false
     = Return ([ServerComponentDescriptor.new startA (Some endA) 0 "AAA"], 1%Z)
  /\ discoverComponents JsonReader.parse 1 (Element "div" [Element "p" [startB; Text "body"]])
                        target_server true
     = Return ([], 1%Z).
Proof.
  split; [vm_compute; reflexivity |].
  split; [vm_compute; reflexivity |].
  split; [vm_compute; discriminate |].
  split; vm_compute; reflexivity.
Qed.

(** The start marker is below the root, after a prerendered pair. *)
Lemma unterminated_marker_fails_witness :
  discoverComponents JsonReader.parse 1
                     (Element "div"
                              [startB; endB;
                               Element "p" [Text "head"; Comment (Node.textContent startA);
                                            Text "body"; Comment "plain"]])
                     target_server false
  = Throw (MalformedComponentComment (Node.textContent startA)).
Proof.
  refine (proj2 (proj2 (unterminated_marker_fails
           JsonReader.parse 1 target_server false
           (Element "div"
                    [startB; endB;
                     Element "p" [Text "head"; Comment (Node.textContent startA);
                                  Text "body"; Comment "plain"]])
           (Element "p" [Text "head"; Comment (Node.textContent startA);
                         Text "body"; Comment "plain"])
           [Text "body"; Comment "plain"]
           (Node.textContent startA)
           (quoted "{'type':'server','sequence':0,'descriptor':'AAA','prerenderId':'A'}")
           payloadA "A" _ _ _ _ _ _ _ _))).
  - eapply (arrives_below JsonReader.parse target_server _ [startB; endB] _ []
                         [serverCommentOf startB (Some endB) 4 "EEE" (Some "B")]);
      [reflexivity | reflexivity | reflexivity |].
    eapply (arrives_child JsonReader.parse target_server false _ [Text "head"] _ _ []);
      reflexivity.
  - reflexivity.
  - reflexivity.
  - reflexivity.
  - left. reflexivity.
  - reflexivity.
  - discriminate.
  - repeat constructor.
Defined.

(** Three server markers, one of them prerendered, in descending order of
    [sequence], the second below the root. *)
Lemma discovery_sorted_by_key_witness :
  exists descriptors arranged,
    discoverComponents JsonReader.parse 1
                       (Element "div" [server2; Element "p" [Text "body"; server1];
                                       counter; startA; Text "body"; endA])
                       target_server false
    = Return (descriptors, 1%Z)
    /\ StronglySorted (fun a b => (orderingKey target_server a <= orderingKey target_server b)%Z)
                      descriptors
    /\ Permutation arranged [serverCommentOf server2 None 2 "BBB" None;
                             serverCommentOf server1 None 1 "CCC" None;
                             serverCommentOf startA (Some endA) 0 "AAA" (Some "A")]
    /\ Forall2 (describes target_server) descriptors arranged
    /\ (target_server = target_webassembly ->
        arranged = [serverCommentOf server2 None 2 "BBB" None;
                    serverCommentOf server1 None 1 "CCC" None;
                    serverCommentOf startA (Some endA) 0 "AAA" (Some "A")]
        /\ map (orderingKey target_server) descriptors = consecutive 1 3).
Proof.
  apply (discovery_sorted_by_key
           JsonReader.parse 1
           (Element "div" [server2; Element "p" [Text "body"; server1];
                           counter; startA; Text "body"; endA])
           target_server false
           [serverCommentOf server2 None 2 "BBB" None;
            serverCommentOf server1 None 1 "CCC" None;
            serverCommentOf startA (Some endA) 0 "AAA" (Some "A")]).
  vm_compute. reflexivity.
Defined.

(** The marker on the document comes after an element with a prerendered
    pair. *)
Lemma marker_on_document_rejected_witness :
  discoverComponents JsonReader.parse 1
                     (Document [Element "html" [startA; Text "body"; endA];
                                Comment (Node.textContent noType); server2])
                     target_server false
  = Throw RootComponentOnDocument.
Proof.
  refine (marker_on_document_rejected
            JsonReader.parse 1 target_server false
            (Document [Element "html" [startA; Text "body"; endA];
                       Comment (Node.textContent noType); server2])
            (Document [Element "html" [startA; Text "body"; endA];
                       Comment (Node.textContent noType); server2])
            [server2]
            (Node.textContent noType) (quoted "{'sequence':3,'descriptor':'DDD'}")
            _ _ _).
  - eapply (arrives_child JsonReader.parse target_server false _
                         [Element "html" [startA; Text "body"; endA]] _ _
                         [serverCommentOf startA (Some endA) 0 "AAA" (Some "A")]);
      reflexivity.
  - reflexivity.
  - reflexivity.
Defined.

(** The marker is below the root, after a prerendered pair and a marker. *)
Lemma malformed_marker_rejected_witness :
  discoverComponents JsonReader.parse 1
                     (Element "div" [startA; endA;
                                     Element "p" [server1; Comment (Node.textContent noType)]])
                     target_server false
  = Throw (MalformedComponentComment (Node.textContent noType)).
Proof.
  refine (malformed_marker_rejected
            JsonReader.parse 1 target_server false
            (Element "div" [startA; endA;
                            Element "p" [server1; Comment (Node.textContent noType)]])
            (Element "p" [server1; Comment (Node.textContent noType)])
            []
            (Node.textContent noType) (quoted "{'sequence':3,'descriptor':'DDD'}")
            _ _ _ _).
  - eapply (arrives_below JsonReader.parse target_server _ [startA; endA] _ []
                         [serverCommentOf startA (Some endA) 0 "AAA" (Some "A")]);
      [reflexivity | reflexivity | reflexivity |].
    eapply (arrives_child JsonReader.parse target_server false _ [server1] _ _
                         [serverCommentOf server1 None 1 "CCC" None]);
      reflexivity.
  - reflexivity.
  - reflexivity.
  - right.
    exists {| Payload.type := None; Payload.prerenderId := None;
              Payload.sequence := Some (Integer 3); Payload.descriptor := Some "DDD";
              Payload.typeName := None; Payload.assembly := None;
              Payload.parameterDefinitions := None;
              Payload.parameterValues := None; Payload.otherKeys := 0 |}.
    split; [reflexivity | split; discriminate].
Defined.

Lemma marker_lacking_fields_rejected_witness :
  discoverComponents JsonReader.parse 1
                     (Element "div" [startA; Element "p" [server2]; endA;
                                     Comment (Node.textContent noDescriptor); server2])
                     target_server false
  = Throw (MalformedComponentComment (Node.textContent noDescriptor)).
Proof.
  refine (marker_lacking_fields_rejected
            JsonReader.parse 1 target_server false
            (Element "div" [startA; Element "p" [server2]; endA;
                            Comment (Node.textContent noDescriptor); server2])
            (Element "div" [startA; Element "p" [server2]; endA;
                            Comment (Node.textContent noDescriptor); server2])
            [server2]
            (Node.textContent noDescriptor) (quoted "{'type':'server','sequence':3}")
            {| Payload.type := Some "server"; Payload.prerenderId := None;
               Payload.sequence := Some (Integer 3); Payload.descriptor := None;
               Payload.typeName := None; Payload.assembly := None;
               Payload.parameterDefinitions := None;
               Payload.parameterValues := None; Payload.otherKeys := 0 |}
            _ _ _ _ _ _).
  - eapply (arrives_child JsonReader.parse target_server false _
                         [startA; Element "p" [server2]; endA] _ _
                         [serverCommentOf startA (Some endA) 0 "AAA" (Some "A")]);
      reflexivity.
  - reflexivity.
  - reflexivity.
  - reflexivity.
  - reflexivity.
  - left. reflexivity.
Defined.

(** The marker of the other type stands between two prerendered pairs. *)
Lemma other_type_marker_ignored_witness :
  discoverComponents JsonReader.parse 1
                     (Element "div" ([startA; endA; server2]
                                       ++ Comment (Node.textContent clock) :: [startB; endB]))
                     target_server false
  = discoverComponents JsonReader.parse 1
                       (Element "div" ([startA; endA; server2] ++ [startB; endB]))
                       target_server false.
Proof.
  refine (other_type_marker_ignored
            JsonReader.parse 1 "div" [startA; endA; server2] [startB; endB]
            (Node.textContent clock)
            (quoted "{'type':'webassembly','assembly':'App','typeName':'Clock'}")
            {| Payload.type := Some "webassembly"; Payload.prerenderId := None;
               Payload.sequence := None; Payload.descriptor := None;
               Payload.typeName := Some "Clock"; Payload.assembly := Some "App";
               Payload.parameterDefinitions := None;
               Payload.parameterValues := None; Payload.otherKeys := 0 |}
            target_server false
            [serverCommentOf startA (Some endA) 0 "AAA" (Some "A");
             serverCommentOf server2 None 2 "BBB" None]
            _ _ _ _ _).
  - reflexivity.
  - reflexivity.
  - reflexivity.
  - reflexivity.
  - reflexivity.
Defined.

(** Three prerendered pairs in a row; the marker below the element between
    the second start marker and its end is not discovered. *)
Lemma prerendered_pair_found_witness :
  discoverComponents JsonReader.parse 1
                     (Element "div" ([startA; endA]
                                       ++ Comment (Node.textContent startB)
                                       :: [Element "p" [server2]]
                                       ++ Comment (Node.textContent endB)
                                       :: [server1; startA; Text "body"; endA]))
                     target_server false
  = Return ([ServerComponentDescriptor.new startA (Some endA) 0 "AAA";
             ServerComponentDescriptor.new startA (Some endA) 0 "AAA";
             ServerComponentDescriptor.new server1 None 1 "CCC";
             ServerComponentDescriptor.new startB (Some endB) 4 "EEE"], 1%Z).
Proof.
  refine (prerendered_pair_found
            JsonReader.parse 1
            (Element "div" ([startA; endA]
                              ++ Comment (Node.textContent startB)
                              :: [Element "p" [server2]]
                              ++ Comment (Node.textContent endB)
                              :: [server1; startA; Text "body"; endA]))
            [startA; endA] [Element "p" [server2]] [server1; startA; Text "body"; endA]
            (Node.textContent startB)
            (quoted "{'type':'server','sequence':4,'descriptor':'EEE','prerenderId':'B'}")
            payloadB "B"
            (Node.textContent endB) (quoted "{'prerenderId':'B'}") (endPayload "B")
            target_server false
            [serverCommentOf startA (Some endA) 0 "AAA" (Some "A")]
            _ _ _ _ _ _ _ _ _ _ _ _ _).
  - reflexivity.
  - reflexivity.
  - reflexivity.
  - reflexivity.
  - reflexivity.
  - left. reflexivity.
  - reflexivity.
  - discriminate.
  - repeat constructor.
  - reflexivity.
  - reflexivity.
  - reflexivity.
  - reflexivity.
Defined.
